(** * Creditor extraction, consolidation and comparison (utils/ai_analyzer.py)

    A shallow embedding of the class [AIAnalyzer]: the response parser with
    its fallback strategies, the per-chunk extraction loop, the batched
    consolidation with its cross-batch fold, and the comparison round trip.

    Python values are a small inductive type, exceptions are data, and the
    methods that talk to the generative service run in a state-and-exception
    monad whose state records every service call and every progress
    notification, in the order in which they happen.

    Around it, the two classes it works with: [PDFProcessor]
    (utils/pdf_processor.py), which gives it the text and the chunks, with
    the PDF libraries as an input of the model; and the rows that
    [DataExporter] (utils/data_exporter.py) builds from a comparison. *)

From Stdlib Require Import List String Ascii ZArith Arith Bool Lia.
From Stdlib Require Import SpecFloat DecimalString.
Import ListNotations.

Local Open Scope string_scope.
Local Open Scope list_scope.
Local Set Warnings "-register-all,-abstract-large-number".

(** ** Python values

    The values that [json.loads] produces and that the code passes around:
    a dict keeps its keys in insertion order, as Python's does. *)

Inductive pyval : Type :=
| PNone
| PBool (b : bool)
| PInt (z : Z)
| PFloat (f : spec_float)
| PStr (s : string)
| PList (l : list pyval)
| PDict (d : list (string * pyval)).

(** ** Exceptions

    The exception classes the code can meet.  [ServiceError] stands for
    whatever [fal_client.run] raises (a subclass of [Exception], which is
    what every [except Exception] of the code catches);
    [Wrapped] is the [raise Exception(f"...: {str(e)}")] of the three public
    methods, with the message prefix that tells them apart. *)

Inductive wrapper : Type :=
| ErroAnaliseIA        (* "Erro na análise com IA: ..." *)
| ErroExtracaoBlocos   (* "Erro na extração em blocos: ..." *)
| ErroComparacaoIA.    (* "Erro na comparação com IA: ..." *)

Inductive exn : Type :=
| JSONDecodeError
| TypeError
| ValueError
| AttributeError
| IndexError
| KeyError
| RecursionError
| ServiceError (code : nat)
| Wrapped (w : wrapper) (cause : exn).

Inductive result (A : Type) : Type :=
| Ok (a : A)
| Raise (e : exn).

Arguments Ok {A} a.
Arguments Raise {A} e.

Definition rbind {A B : Type} (r : result A) (k : A -> result B) : result B :=
  match r with
  | Ok a => k a
  | Raise e => Raise e
  end.

Fixpoint rmap_list {A B : Type} (f : A -> result B) (l : list A)
  : result (list B) :=
  match l with
  | [] => Ok []
  | x :: xs =>
      rbind (f x) (fun y => rbind (rmap_list f xs) (fun ys => Ok (y :: ys)))
  end.

(** ** The Python operations the code applies to these values *)

Fixpoint dict_lookup (k : string) (d : list (string * pyval)) : option pyval :=
  match d with
  | [] => None
  | (k', v) :: rest => if String.eqb k k' then Some v else dict_lookup k rest
  end.

(** [d[k] = v]: an existing key keeps its place, a new key goes last. *)
Fixpoint dict_set (k : string) (v : pyval) (d : list (string * pyval))
  : list (string * pyval) :=
  match d with
  | [] => [(k, v)]
  | (k', v') :: rest =>
      if String.eqb k k' then (k', v) :: rest else (k', v') :: dict_set k v rest
  end.

(** [d.pop(k, None)], the dict that is left. *)
Fixpoint dict_remove (k : string) (d : list (string * pyval))
  : list (string * pyval) :=
  match d with
  | [] => []
  | (k', v') :: rest =>
      if String.eqb k k' then dict_remove k rest else (k', v') :: dict_remove k rest
  end.

(** Truth value of an object in [if x], [not x] and [x and y]. *)
Definition py_truthy (v : pyval) : bool :=
  match v with
  | PNone => false
  | PBool b => b
  | PInt z => negb (Z.eqb z 0)
  | PFloat (S754_zero _) => false
  | PFloat _ => true
  | PStr s => negb (String.eqb s "")
  | PList l => negb (Nat.eqb (List.length l) 0)
  | PDict d => negb (Nat.eqb (List.length d) 0)
  end.

(** A text is held as the bytes of its UTF-8 encoding: a byte of the form
    [10xxxxxx] continues the character that the byte before it is part
    of, and every other byte begins a character. *)
Definition is_continuation (c : ascii) : bool :=
  let n := nat_of_ascii c in (128 <=? n)%nat && (n <? 192)%nat.

(** [len(s)] for a text: the number of its characters. *)
Fixpoint str_len (s : string) : nat :=
  match s with
  | EmptyString => 0
  | String c rest => (if is_continuation c then 0 else 1) + str_len rest
  end.

(** [s[:n]]: the first [n] characters of a text. *)
Fixpoint str_head (n : nat) (s : string) : string :=
  match s with
  | EmptyString => EmptyString
  | String c rest =>
      if is_continuation c then String c (str_head n rest)
      else match n with
           | O => EmptyString
           | S n' => String c (str_head n' rest)
           end
  end.

(** The characters of a text, each with its bytes; [current] holds the
    bytes of the character being read. *)
Fixpoint str_chars (s : string) (current : string) : list string :=
  match s with
  | EmptyString => if String.eqb current "" then [] else [current]
  | String c rest =>
      if is_continuation c || String.eqb current ""
      then str_chars rest (current ++ String c EmptyString)
      else current :: str_chars rest (String c EmptyString)
  end.

(** [len(x)] *)
Definition py_len (v : pyval) : result nat :=
  match v with
  | PStr s => Ok (str_len s)
  | PList l => Ok (List.length l)
  | PDict d => Ok (List.length d)
  | _ => Raise TypeError
  end.

Definition chars_of (s : string) : list pyval := map PStr (str_chars s "").

(** The items a [for x in v] loop visits. *)
Definition py_iter (v : pyval) : result (list pyval) :=
  match v with
  | PList l => Ok l
  | PDict d => Ok (map (fun kv => PStr (fst kv)) d)
  | PStr s => Ok (chars_of s)
  | _ => Raise TypeError
  end.

(** [o.get(k, dflt)] *)
Definition py_get (o : pyval) (k : string) (dflt : pyval) : result pyval :=
  match o with
  | PDict d =>
      Ok (match dict_lookup k d with Some v => v | None => dflt end)
  | _ => Raise AttributeError
  end.

(** [o[0]]; the keys of a dict are strings, so [0] is never one of them. *)
Definition py_item0 (o : pyval) : result pyval :=
  match o with
  | PList (x :: _) => Ok x
  | PList [] => Raise IndexError
  | PStr s =>
      match str_chars s "" with
      | c :: _ => Ok (PStr c)
      | [] => Raise IndexError
      end
  | PDict _ => Raise KeyError
  | _ => Raise TypeError
  end.

(** [o[k] = v] with a string key. *)
Definition py_setitem (o : pyval) (k : string) (v : pyval) : result pyval :=
  match o with
  | PDict d => Ok (PDict (dict_set k v d))
  | _ => Raise TypeError
  end.

(** [o.pop(k, None)], returning the object as the call leaves it. *)
Definition py_pop (o : pyval) (k : string) : result pyval :=
  match o with
  | PDict d => Ok (PDict (dict_remove k d))
  | PList _ => Raise TypeError
  | _ => Raise AttributeError
  end.

(** [a + b] on the containers the consolidation fold can meet. *)
Definition py_add (a b : pyval) : result pyval :=
  match a, b with
  | PList l1, PList l2 => Ok (PList (l1 ++ l2))
  | PStr s1, PStr s2 => Ok (PStr (s1 ++ s2))
  | _, _ => Raise TypeError
  end.

(** [x[:500]] inside a log message: only whether it raises matters. *)
Definition py_slice_check (v : pyval) : result unit :=
  match v with
  | PStr _ | PList _ => Ok tt
  | _ => Raise TypeError
  end.

(** Decimal text of an integer, as an f-string prints it. *)
Definition str_of_Z (z : Z) : string := NilZero.string_of_int (Z.to_int z).
Definition str_of_nat (n : nat) : string := str_of_Z (Z.of_nat n).

(** ** Text helpers: the [str] methods and the three regular expressions *)

(** [c.isspace()], which is also what [\s] matches in a [str] pattern, on
    the characters below 128.  The white space characters beyond ASCII take
    two or three bytes and are not white space here: [strip], [py_split]
    and the patterns are those of the code on the texts that have none of
    them, which [has_wide_space] tells. *)
Definition is_space (c : ascii) : bool :=
  let n := nat_of_ascii c in
  ((9 <=? n)%nat && (n <=? 13)%nat) || ((28 <=? n)%nat && (n <=? 32)%nat).

Fixpoint drop (n : nat) (s : string) : string :=
  match n, s with
  | O, _ => s
  | S n', EmptyString => EmptyString
  | S n', String _ rest => drop n' rest
  end.

Definition string_rev (s : string) : string :=
  string_of_list_ascii (rev (list_ascii_of_string s)).

Fixpoint lstrip (s : string) : string :=
  match s with
  | EmptyString => EmptyString
  | String c rest => if is_space c then lstrip rest else s
  end.

Definition rstrip (s : string) : string := string_rev (lstrip (string_rev s)).

(** [s.strip()] *)
Definition strip (s : string) : string := rstrip (lstrip s).

(** [s.startswith(p)] and [s.endswith(p)] *)
Definition startswith (p s : string) : bool := prefix p s.
Definition endswith (p s : string) : bool :=
  prefix (string_rev p) (string_rev s).

Fixpoint find_char (c : ascii) (s : string) : option nat :=
  match s with
  | EmptyString => None
  | String a rest =>
      if Ascii.eqb a c then Some 0
      else match find_char c rest with Some k => Some (S k) | None => None end
  end.

Fixpoint rfind_char (c : ascii) (s : string) : option nat :=
  match s with
  | EmptyString => None
  | String a rest =>
      match rfind_char c rest with
      | Some k => Some (S k)
      | None => if Ascii.eqb a c then Some 0 else None
      end
  end.

Definition fence : string := "```".

(** Group 1 of [re.search(r'```(?:json)?\s*(.*?)\s*```', s, re.DOTALL)]:
    the leftmost fence that has a closing fence after it, an optional
    [json] tag, then the shortest text up to the next fence, without the
    white space around it. *)
Definition re_search_fence (s : string) : option string :=
  match index 0 fence s with
  | None => None
  | Some i =>
      let rest := drop (i + 3) s in
      let rest := if startswith "json" rest then drop 4 rest else rest in
      match index 0 fence rest with
      | None => None
      | Some q => Some (strip (substring 0 q rest))
      end
  end.

(** Group 0 of [re.search(r'\[.*\]', s, re.DOTALL)] (and of the pattern
    with braces): greedy, from the first opening character to the last
    closing character after it. *)
Definition re_search_span (opening closing : ascii) (s : string)
  : option string :=
  match find_char opening s with
  | None => None
  | Some i =>
      match rfind_char closing (drop (i + 1) s) with
      | None => None
      | Some k => Some (substring i (k + 2) s)
      end
  end.

(** Strategy 4 of [_parse_ai_response]: strip, drop a surrounding pair of
    fences with [cleaned[3:-3]], drop a leading [json] tag. *)
Definition clean_fences (response : string) : string :=
  let cleaned := strip response in
  if startswith fence cleaned && endswith fence cleaned then
    let cleaned := strip (substring 3 (String.length cleaned - 6) cleaned) in
    if startswith "json" cleaned then strip (drop 4 cleaned) else cleaned
  else cleaned.

(** The white space characters beyond ASCII, by their bytes: U+0085,
    U+00A0, U+1680, U+2000 to U+200A, U+2028, U+2029, U+202F, U+205F and
    U+3000. *)
Definition wide_spaces : list string :=
  map string_of_list_ascii
    (map (map ascii_of_nat)
       [[194; 133]; [194; 160]; [225; 154; 128];
        [226; 128; 128]; [226; 128; 129]; [226; 128; 130]; [226; 128; 131];
        [226; 128; 132]; [226; 128; 133]; [226; 128; 134]; [226; 128; 135];
        [226; 128; 136]; [226; 128; 137]; [226; 128; 138];
        [226; 128; 168]; [226; 128; 169]; [226; 128; 175];
        [226; 129; 159]; [227; 128; 128]]).

(** The text has one of them. *)
Fixpoint has_wide_space (s : string) : bool :=
  match s with
  | EmptyString => false
  | String _ rest =>
      existsb (fun w => prefix w s) wide_spaces || has_wide_space rest
  end.

(** ** Requests to the generative service, and the observable state

    A request carries what the prompt is built from; the prompt text is a
    function of it.  [calls] lists the requests issued so far, oldest first;
    [progress] lists the arguments of the progress callback's invocations. *)

Inductive request : Type :=
| ExtractionRequest (pdf_text : string) (document_name : string)
| ConsolidationRequest (creditors : pyval) (document_name : string)
| ComparisonRequest (old_creditors new_creditors : list pyval).

Definition progress_event : Type := (nat * nat * Z * Z)%type.

Record world : Type := mkWorld {
  calls : list request;
  progress : list progress_event
}.

Definition M (A : Type) : Type := world -> result A * world.

Definition ret {A : Type} (a : A) : M A := fun w => (Ok a, w).

Definition raise {A : Type} (e : exn) : M A := fun w => (Raise e, w).

Definition bind {A B : Type} (m : M A) (k : A -> M B) : M B :=
  fun w =>
    match m w with
    | (Ok a, w') => k a w'
    | (Raise e, w') => (Raise e, w')
    end.

Definition lift {A : Type} (r : result A) : M A := fun w => (r, w).

(** [try: body / except Exception as e: handler(e)] *)
Definition try_except {A : Type} (body : M A) (handler : exn -> M A) : M A :=
  fun w =>
    match body w with
    | (Ok a, w') => (Ok a, w')
    | (Raise e, w') => handler e w'
    end.

Declare Scope py_scope.
Delimit Scope py_scope with py.
Notation "x <- m ;; k" := (bind m (fun x => k))
  (at level 61, m at next level, right associativity) : py_scope.
Notation "m ;;; k" := (bind m (fun _ => k))
  (at level 61, right associativity) : py_scope.

(** [enumerate]-free model of [range(start, stop, step)] for a positive
    step; [stop] steps of fuel are always enough. *)
Fixpoint range_from (fuel start stop step : nat) : list nat :=
  match fuel with
  | O => []
  | S fuel' =>
      if (start <? stop)%nat then start :: range_from fuel' (start + step) stop step
      else []
  end.

Definition py_range (start stop step : nat) : list nat :=
  range_from stop start stop step.

(** [creditors[i:j]] *)
Definition py_slice (i j : nat) (l : list pyval) : list pyval :=
  firstn (j - i) (skipn i l).

Record Chunk : Type := mkChunk {
  text : string;
  start_page : Z;
  end_page : Z;
  total_pages : Z
}.

Local Open Scope py_scope.

(** ** The analyzer *)

Section AIAnalyzer.

(** [json.loads] on a [str]: the decoded value, or what it raises.  On a
    text that is not a JSON document it raises [json.JSONDecodeError]; it
    also raises [ValueError] on an integer literal of more than 4300 digits
    and [RecursionError] on a text nested deeper than the interpreter's
    stack allows.  Nothing is assumed about it. *)
Variable json_decode : string -> result pyval.

(** [fal_client.run]: what the service does at its [n]-th call (counted
    from 0) on a given request, a returned response object or a raised
    exception.  Nothing is assumed about it. *)
Variable fal_client_reply : nat -> request -> result pyval.

Definition fal_client_run (req : request) : M pyval :=
  fun w =>
    (fal_client_reply (List.length (calls w)) req,
     mkWorld (calls w ++ [req]) (progress w)).

(** [json.loads(x)]; anything but a string is a [TypeError]. *)
Definition json_loads (x : pyval) : result pyval :=
  match x with
  | PStr s => json_decode s
  | _ => Raise TypeError
  end.

(** [try: return body / except json.JSONDecodeError: pass], then [next]. *)
Definition except_JSONDecodeError (body next : result pyval) : result pyval :=
  match body with
  | Raise JSONDecodeError => next
  | other => other
  end.

(** [if m: try: return json.loads(m.group(..)) except ...: pass] *)
Definition try_match (m : option string) (next : result pyval) : result pyval :=
  match m with
  | Some candidate => except_JSONDecodeError (json_loads (PStr candidate)) next
  | None => next
  end.

Definition _parse_ai_response (response : pyval) : result pyval :=
  match response with
  | PStr s =>
      (* Strategy 1: direct JSON parsing *)
      except_JSONDecodeError (json_loads response)
      (* Strategy 2: JSON inside a markdown code block *)
      (try_match (re_search_fence s)
      (* Strategy 3: JSON array pattern *)
      (try_match (re_search_span "[" "]" s)
      (* Strategy 4: clean and retry *)
      (except_JSONDecodeError (json_loads (PStr (clean_fences s)))
      (* all strategies failed *)
      (Ok (PList [])))))
  | _ => json_loads response
  end.

Definition default_comparison : pyval :=
  PDict [("new_creditors", PList []);
         ("removed_creditors", PList []);
         ("modified_creditors", PList []);
         ("unchanged_creditors", PList []);
         ("summary",
          PDict [("total_old", PInt 0);
                 ("total_new", PInt 0);
                 ("new_count", PInt 0);
                 ("removed_count", PInt 0);
                 ("modified_count", PInt 0);
                 ("unchanged_count", PInt 0)])].

Definition _parse_comparison_response (response : pyval) : result pyval :=
  match response with
  | PStr s =>
      except_JSONDecodeError (json_loads response)
      (try_match (re_search_fence s)
      (try_match (re_search_span "{" "}" s)
      (Ok default_comparison)))
  | _ => json_loads response
  end.

(** [response.get('choices', [{}])[0].get('message', {}).get('content', '')] *)
Definition response_content (response : pyval) : result pyval :=
  rbind (py_get response "choices" (PList [PDict []])) (fun choices =>
  rbind (py_item0 choices) (fun choice =>
  rbind (py_get choice "message" (PDict [])) (fun message =>
  py_get message "content" (PStr "")))).

(** [for creditor in creditors: creditor.pop('_source_pages', None)],
    giving [creditors] as the loop leaves it.  The dicts are popped in
    place; as every item of the list gets the same idempotent [pop], the
    list of popped values is what any holder of the list then sees. *)
Definition pop_source_pages (creditors : pyval) : result pyval :=
  rbind (py_iter creditors) (fun items =>
  rbind (rmap_list (fun creditor => py_pop creditor "_source_pages") items)
    (fun items' =>
       Ok (match creditors with PList _ => PList items' | _ => creditors end))).

(** [for creditor in chunk_creditors: creditor['_source_pages'] = pages] *)
Definition set_source_pages (chunk_creditors : pyval) (pages : string)
  : result pyval :=
  rbind (py_iter chunk_creditors) (fun items =>
  rbind (rmap_list
           (fun creditor => py_setitem creditor "_source_pages" (PStr pages))
           items)
    (fun items' =>
       Ok (match chunk_creditors with
           | PList _ => PList items'
           | _ => chunk_creditors
           end))).

Definition extract_creditors (pdf_text document_name : string)
  : M (pyval * nat) :=
  try_except
    (response <- fal_client_run
                   (ExtractionRequest (str_head 8000 pdf_text) document_name) ;;
     ai_response <- lift (response_content response) ;;
     if negb (py_truthy ai_response) then raise ValueError
     else
       (* the two log lines evaluate len(ai_response) and ai_response[:500] *)
       lift (py_len ai_response) ;;;
       lift (py_slice_check ai_response) ;;;
       creditors <- lift (_parse_ai_response ai_response) ;;
       n <- lift (py_len creditors) ;;
       ret (creditors, n))
    (fun e => raise (Wrapped ErroAnaliseIA e)).

Definition _consolidate_batch (creditors : pyval) (document_name : string)
  : M pyval :=
  try_except
    ((* the prompt prints len(creditors) and json.dumps(creditors) *)
     lift (py_len creditors) ;;;
     response <- fal_client_run (ConsolidationRequest creditors document_name) ;;
     ai_response <- lift (response_content response) ;;
     consolidated <- lift (_parse_ai_response ai_response) ;;
     (* if consolidated and len(consolidated) > 0 *)
     nonempty <- lift (if py_truthy consolidated
                       then rbind (py_len consolidated)
                              (fun n => Ok (0 <? n)%nat)
                       else Ok false) ;;
     if nonempty then ret consolidated
     else lift (pop_source_pages creditors))
    (fun _ => lift (pop_source_pages creditors)).

Definition lote_label (document_name : string) (i : nat) : string :=
  document_name ++ " - Lote " ++ str_of_nat (i / 100 + 1).

(** The body of [for i in range(0, len(creditors), batch_size)], over the
    indices still to visit, with [consolidated_result] as loop state. *)
Fixpoint consolidate_batches (creditors : list pyval) (document_name : string)
    (indices : list nat) (consolidated_result : pyval) : M pyval :=
  match indices with
  | [] => ret consolidated_result
  | i :: rest =>
      let batch := py_slice i (i + 100) creditors in
      batch_consolidated <-
        _consolidate_batch (PList batch) (lote_label document_name i) ;;
      consolidated_result' <-
        (if py_truthy consolidated_result then
           combined <- lift (py_add consolidated_result batch_consolidated) ;;
           _consolidate_batch combined document_name
         else ret batch_consolidated) ;;
      consolidate_batches creditors document_name rest consolidated_result'
  end.

Definition _consolidate_creditors_with_ai (creditors : list pyval)
    (document_name : string) : M pyval :=
  try_except
    (if (List.length creditors <=? 150)%nat then
       _consolidate_batch (PList creditors) document_name
     else
       consolidated_result <-
         consolidate_batches creditors document_name
           (py_range 0 (List.length creditors) 100) (PList []) ;;
       (* the log line evaluates len(consolidated_result) *)
       lift (py_len consolidated_result) ;;;
       ret consolidated_result)
    (fun _ => lift (pop_source_pages (PList creditors))).

Definition source_pages (chunk : Chunk) : string :=
  str_of_Z (start_page chunk) ++ "-" ++ str_of_Z (end_page chunk).

Definition chunk_label (document_name : string) (chunk : Chunk) : string :=
  document_name ++ " - Páginas " ++ str_of_Z (start_page chunk) ++ " a "
    ++ str_of_Z (end_page chunk) ++ " de " ++ str_of_Z (total_pages chunk).

Definition notify_progress (ev : progress_event) : M unit :=
  fun w => (Ok tt, mkWorld (calls w) (progress w ++ [ev])).

(** The body of [for i, chunk in enumerate(chunks)]; [total] is
    [len(chunks)], [progress_callback] tells whether a callback was given,
    [all_creditors] is the list accumulated so far. *)
Fixpoint extract_chunks (document_name : string) (progress_callback : bool)
    (total i : nat) (chunks : list Chunk) (all_creditors : list pyval)
  : M (list pyval) :=
  match chunks with
  | [] => ret all_creditors
  | chunk :: rest =>
      (if progress_callback
       then notify_progress (i, total, start_page chunk, end_page chunk)
       else ret tt) ;;;
      response <- fal_client_run
                    (ExtractionRequest (str_head 8000 (text chunk))
                       (chunk_label document_name chunk)) ;;
      ai_response <- lift (response_content response) ;;
      chunk_creditors <- lift (_parse_ai_response ai_response) ;;
      chunk_creditors <- lift (set_source_pages chunk_creditors
                                 (source_pages chunk)) ;;
      (* all_creditors.extend(chunk_creditors), then len(chunk_creditors) *)
      items <- lift (py_iter chunk_creditors) ;;
      lift (py_len chunk_creditors) ;;;
      extract_chunks document_name progress_callback total (S i) rest
        (all_creditors ++ items)
  end.

Definition extract_creditors_from_chunks (chunks : list Chunk)
    (document_name : string) (progress_callback : bool) : M (pyval * nat) :=
  try_except
    (all_creditors <- extract_chunks document_name progress_callback
                        (List.length chunks) 0 chunks [] ;;
     let pre_consolidation_count := List.length all_creditors in
     if (0 <? pre_consolidation_count)%nat then
       consolidated <- _consolidate_creditors_with_ai all_creditors
                         document_name ;;
       lift (py_len consolidated) ;;;
       ret (consolidated, pre_consolidation_count)
     else ret (PList all_creditors, pre_consolidation_count))
    (fun e => raise (Wrapped ErroExtracaoBlocos e)).

Definition compare_creditors_with_ai (old_creditors new_creditors : list pyval)
  : M pyval :=
  try_except
    (response <- fal_client_run
                   (ComparisonRequest old_creditors new_creditors) ;;
     ai_response <- lift (response_content response) ;;
     if negb (py_truthy ai_response) then raise ValueError
     else
       lift (py_len ai_response) ;;;
       lift (py_slice_check ai_response) ;;;
       lift (_parse_comparison_response ai_response))
    (fun e => raise (Wrapped ErroComparacaoIA e)).

End AIAnalyzer.

(** ** A decoder to run the analyzer on concrete texts

    [Json.decode] reads the JSON texts used in the examples of this file:
    [null], [true], [false], integers, strings with the one-letter escapes,
    arrays and objects (a repeated key keeps its first place and its last
    value).  On an integer literal of more than 4300 digits it raises
    [ValueError], as [json.loads] does when it converts the literal.
    Numbers with a fraction or an exponent, [\u] escapes and the
    non-standard [NaN] and [Infinity] are outside of what it reads, and it
    puts no limit on the depth of nesting.  The general theorems below hold
    for every decoder, this one included. *)

Module Json.

Local Open Scope char_scope.

Definition is_ws (c : ascii) : bool :=
  Ascii.eqb c " " || Ascii.eqb c "009" || Ascii.eqb c "010" || Ascii.eqb c "013".

Fixpoint skip_ws (l : list ascii) : list ascii :=
  match l with
  | c :: rest => if is_ws c then skip_ws rest else l
  | [] => []
  end.

Definition digit_of (c : ascii) : option Z :=
  let n := nat_of_ascii c in
  if ((48 <=? n) && (n <=? 57))%nat then Some (Z.of_nat (n - 48)) else None.

Definition is_digit (c : ascii) : bool :=
  match digit_of c with
  | Some _ => true
  | None => false
  end.

Fixpoint digits (acc : Z) (l : list ascii) : Z * list ascii :=
  match l with
  | c :: rest =>
      match digit_of c with
      | Some d => digits (10 * acc + d)%Z rest
      | None => (acc, l)
      end
  | [] => (acc, [])
  end.

(** What follows the digits makes the literal a float: a fraction, or an
    exponent. *)
Definition float_follows (l : list ascii) : bool :=
  match l with
  | "." :: d :: _ => is_digit d
  | e :: rest =>
      if Ascii.eqb e "e" || Ascii.eqb e "E" then
        match rest with
        | d :: rest' =>
            is_digit d ||
            ((Ascii.eqb d "+" || Ascii.eqb d "-") &&
             match rest' with
             | d' :: _ => is_digit d'
             | [] => false
             end)
        | [] => false
        end
      else false
  | [] => false
  end.

(** [sys.get_int_max_str_digits()] *)
Definition max_str_digits : nat := 4300.

(** An optional minus sign, then [0] or digits that do not start with [0];
    [int] refuses to convert more than 4300 digits. *)
Definition integer (l : list ascii) : result (Z * list ascii) :=
  let (neg, l') := match l with
                   | "-" :: rest => (true, rest)
                   | _ => (false, l)
                   end in
  match l' with
  | "0" :: rest => Ok (0%Z, rest)
  | c :: _ =>
      match digit_of c with
      | Some _ =>
          let (z, rest) := digits 0 l' in
          if float_follows rest then Raise JSONDecodeError
          else if (max_str_digits <? List.length l' - List.length rest)%nat
               then Raise ValueError
               else Ok (if neg then Z.opp z else z, rest)
      | None => Raise JSONDecodeError
      end
  | [] => Raise JSONDecodeError
  end.

(** The text of a string after its opening quote, up to the closing one. *)
Fixpoint string_body (l : list ascii) : option (string * list ascii) :=
  match l with
  | [] => None
  | "034" :: rest => Some (EmptyString, rest)
  | "\" :: e :: rest =>
      let unescaped :=
        match e with
        | "034" => Some "034"
        | "\" => Some "\"
        | "/" => Some "/"
        | "b" => Some "008"
        | "f" => Some "012"
        | "n" => Some "010"
        | "r" => Some "013"
        | "t" => Some "009"
        | _ => None
        end in
      match unescaped, string_body rest with
      | Some c, Some (s, rest') => Some (String c s, rest')
      | _, _ => None
      end
  | c :: rest =>
      if (nat_of_ascii c <? 32)%nat then None
      else match string_body rest with
           | Some (s, rest') => Some (String c s, rest')
           | None => None
           end
  end.

Fixpoint value (fuel : nat) (l : list ascii) {struct fuel}
  : result (pyval * list ascii) :=
  match fuel with
  | O => Raise JSONDecodeError
  | S fuel' =>
      match l with
      | "n" :: "u" :: "l" :: "l" :: rest => Ok (PNone, rest)
      | "t" :: "r" :: "u" :: "e" :: rest => Ok (PBool true, rest)
      | "f" :: "a" :: "l" :: "s" :: "e" :: rest => Ok (PBool false, rest)
      | "034" :: rest =>
          match string_body rest with
          | Some (s, rest') => Ok (PStr s, rest')
          | None => Raise JSONDecodeError
          end
      | "[" :: rest =>
          match skip_ws rest with
          | "]" :: rest' => Ok (PList [], rest')
          | rest' =>
              match elements fuel' rest' with
              | Ok (vs, rest'') => Ok (PList vs, rest'')
              | Raise e => Raise e
              end
          end
      | "{" :: rest =>
          match skip_ws rest with
          | "}" :: rest' => Ok (PDict [], rest')
          | rest' =>
              match members fuel' rest' [] with
              | Ok (d, rest'') => Ok (PDict d, rest'')
              | Raise e => Raise e
              end
          end
      | _ =>
          match integer l with
          | Ok (z, rest) => Ok (PInt z, rest)
          | Raise e => Raise e
          end
      end
  end

with elements (fuel : nat) (l : list ascii) {struct fuel}
  : result (list pyval * list ascii) :=
  match fuel with
  | O => Raise JSONDecodeError
  | S fuel' =>
      match value fuel' l with
      | Ok (v, rest) =>
          match skip_ws rest with
          | "," :: rest' =>
              match elements fuel' (skip_ws rest') with
              | Ok (vs, rest'') => Ok (v :: vs, rest'')
              | Raise e => Raise e
              end
          | "]" :: rest' => Ok ([v], rest')
          | _ => Raise JSONDecodeError
          end
      | Raise e => Raise e
      end
  end

with members (fuel : nat) (l : list ascii) (acc : list (string * pyval))
     {struct fuel} : result (list (string * pyval) * list ascii) :=
  match fuel with
  | O => Raise JSONDecodeError
  | S fuel' =>
      match l with
      | "034" :: rest =>
          match string_body rest with
          | Some (k, rest1) =>
              match skip_ws rest1 with
              | ":" :: rest2 =>
                  match value fuel' (skip_ws rest2) with
                  | Ok (v, rest3) =>
                      let acc' := dict_set k v acc in
                      match skip_ws rest3 with
                      | "," :: rest4 => members fuel' (skip_ws rest4) acc'
                      | "}" :: rest4 => Ok (acc', rest4)
                      | _ => Raise JSONDecodeError
                      end
                  | Raise e => Raise e
                  end
              | _ => Raise JSONDecodeError
              end
          | None => Raise JSONDecodeError
          end
      | _ => Raise JSONDecodeError
      end
  end.

Definition decode (s : string) : result pyval :=
  let l := list_ascii_of_string s in
  match value (2 * List.length l + 2) (skip_ws l) with
  | Ok (v, rest) =>
      match skip_ws rest with
      | [] => Ok v
      | _ => Raise JSONDecodeError
      end
  | Raise e => Raise e
  end.

End Json.

(** A double quote, to write JSON texts. *)
Definition dq : string := String "034"%char EmptyString.

(** A response object of the shape the service documents:
    [{'choices': [{'message': {'content': content}}]}]. *)
Definition response_with (content : pyval) : pyval :=
  PDict [("choices", PList [PDict [("message", PDict [("content", content)])]])].

(** ** PDF text extraction (utils/pdf_processor.py)

    What a PDF library does with the uploaded file is an input of the
    model: reading or opening the file raises, or gives the pages, and
    [extract_text()] on a page gives its text or raises.  A page without
    text is the empty string ([None] and [''] are alike under
    [if page_text:]).  White space is what [is_space] tells: the
    characters that [strip] and [split] also remove beyond ASCII are not
    told apart from other characters. *)

Definition pdf_reader : Type := result (list (result string)).

Record pdf_file : Type := mkPdfFile {
  seek : result unit;          (* the first pdf_file.seek(0) *)
  pdfplumber : pdf_reader;     (* pdfplumber.open(io.BytesIO(pdf_file.read())) *)
  pypdf2 : pdf_reader          (* seek(0), then PyPDF2.PdfReader(...) *)
}.

(** What the two methods raise: the cause named in the message of their
    [raise Exception(f"Erro ao processar PDF...: {str(e)}")]. *)
Inductive pdf_cause : Type :=
| NoTextExtracted     (* Exception("Não foi possível extrair texto ...") *)
| FileError (e : exn).  (* what the first seek raised *)

Inductive pdf_result (A : Type) : Type :=
| PdfOk (a : A)
| PdfError (cause : pdf_cause).

Arguments PdfOk {A} a.
Arguments PdfError {A} cause.

Definition newline : string := String "010"%char EmptyString.

(** [if s.strip():] *)
Definition nonblank (s : string) : bool := negb (String.eqb (strip s) "").

(** [for page in pages: page_text = page.extract_text();
     if page_text: text += page_text + "\n"] *)
Fixpoint add_pages (pages : list (result string)) (text : string)
  : result string :=
  match pages with
  | [] => Ok text
  | page :: rest =>
      match page with
      | Raise e => Raise e
      | Ok page_text =>
          add_pages rest
            (if String.eqb page_text "" then text
             else text ++ page_text ++ newline)
      end
  end.

(** One method of [extract_text]: the text its [try] block returns, or
    [None] when the block ends without a [return] (no text but white space)
    or raises (the exception is logged and dropped). *)
Definition read_text (reader : pdf_reader) : option string :=
  match reader with
  | Raise _ => None
  | Ok pages =>
      match add_pages pages "" with
      | Ok text => if nonblank text then Some text else None
      | Raise _ => None
      end
  end.

Definition extract_text (f : pdf_file) : pdf_result string :=
  match seek f with
  | Raise e => PdfError (FileError e)
  | Ok _ =>
      match read_text (pdfplumber f) with
      | Some text => PdfOk text
      | None =>
          match read_text (pypdf2 f) with
          | Some fallback_text => PdfOk fallback_text
          | None => PdfError NoTextExtracted
          end
      end
  end.

(** [pages[i:j]] *)
Definition page_slice (i j : nat) (pages : list (result string))
  : list (result string) :=
  firstn (j - i) (skipn i pages).

(** The body of [for start_page in range(0, total_pages, pages_per_chunk)]
    over the starts still to visit.  [chunks] is the list the chunks are
    appended to; the result says whether the loop raised, and what [chunks]
    holds then. *)
Fixpoint chunk_pages (pages : list (result string))
    (pages_per_chunk total_pages : nat) (starts : list nat)
    (chunks : list Chunk) : list Chunk * option exn :=
  match starts with
  | [] => (chunks, None)
  | start_page :: rest =>
      let end_page := Nat.min (start_page + pages_per_chunk) total_pages in
      match add_pages (page_slice start_page end_page pages) "" with
      | Raise e => (chunks, Some e)
      | Ok chunk_text =>
          chunk_pages pages pages_per_chunk total_pages rest
            (if nonblank chunk_text
             then chunks ++ [mkChunk chunk_text (Z.of_nat start_page + 1)
                               (Z.of_nat end_page) (Z.of_nat total_pages)]
             else chunks)
      end
  end.

(** One method of [extract_text_in_chunks], up to its [if chunks:].
    [range] with a step of zero raises [ValueError]. *)
Definition read_chunks (reader : pdf_reader) (pages_per_chunk : nat)
    (chunks : list Chunk) : list Chunk * option exn :=
  match reader with
  | Raise e => (chunks, Some e)
  | Ok pages =>
      let total_pages := List.length pages in
      if Nat.eqb pages_per_chunk 0 then (chunks, Some ValueError)
      else chunk_pages pages pages_per_chunk total_pages
             (py_range 0 total_pages pages_per_chunk) chunks
  end.

(** [chunks] is created once, before the first method, and both methods
    append to it.  [pages_per_chunk] is a page count (the slider's value),
    not negative. *)
Definition extract_text_in_chunks (f : pdf_file) (pages_per_chunk : nat)
  : pdf_result (list Chunk) :=
  match seek f with
  | Raise e => PdfError (FileError e)
  | Ok _ =>
      match read_chunks (pdfplumber f) pages_per_chunk [] with
      | ((_ :: _) as chunks, None) => PdfOk chunks
      | (chunks, _) =>
          match read_chunks (pypdf2 f) pages_per_chunk chunks with
          | ((_ :: _) as chunks', None) => PdfOk chunks'
          | _ => PdfError NoTextExtracted
          end
      end
  end.

(** [text.replace('\x00', '')] *)
Fixpoint remove_nul (s : string) : string :=
  match s with
  | EmptyString => EmptyString
  | String c rest =>
      if Ascii.eqb c "000"%char then remove_nul rest
      else String c (remove_nul rest)
  end.

(** [s.split()]: the maximal runs of characters that are not white space;
    [word] holds the run being read. *)
Fixpoint py_split (s : string) (word : string) : list string :=
  match s with
  | EmptyString => if String.eqb word "" then [] else [word]
  | String c rest =>
      if is_space c then
        if String.eqb word "" then py_split rest ""
        else word :: py_split rest ""
      else py_split rest (word ++ String c EmptyString)
  end.

Definition clean_text (text : string) : string :=
  let cleaned := remove_nul text in
  String.concat " " (py_split cleaned "").

(** ** Export of a comparison (utils/data_exporter.py)

    [export_to_csv] first builds [combined_data], the list of rows, and
    then hands it to pandas.  The rows are modelled; what pandas writes
    from them is not. *)

(** [o.copy()] *)
Definition py_copy (o : pyval) : result pyval :=
  match o with
  | PDict _ | PList _ => Ok o
  | _ => Raise AttributeError
  end.

(** [o.items()] *)
Definition py_items (o : pyval) : result (list (string * pyval)) :=
  match o with
  | PDict d => Ok d
  | _ => Raise AttributeError
  end.

(** The float [1.0] *)
Definition one : pyval := PFloat (S754_finite false 4503599627370496 (-52)).

(** The body of the loops over the new, the removed and the unchanged
    creditors:
    [creditor_data = creditor.copy(); creditor_data['Status'] = status;
     creditor_data['Mudanças'] = changes] *)
Definition status_row (status changes : string) (creditor : pyval)
  : result pyval :=
  rbind (py_copy creditor) (fun creditor_data =>
  rbind (py_setitem creditor_data "Status" (PStr status)) (fun creditor_data =>
  py_setitem creditor_data "Mudanças" (PStr changes))).

(** [for key, old_value in old_values.items():
       creditor_data[f'Valor_Anterior_{key}'] = old_value] *)
Fixpoint set_old_values (old_values : list (string * pyval))
    (creditor_data : pyval) : result pyval :=
  match old_values with
  | [] => Ok creditor_data
  | (key, old_value) :: rest =>
      rbind (py_setitem creditor_data ("Valor_Anterior_" ++ key) old_value)
        (set_old_values rest)
  end.

(** The body of the loop over the modified creditors. *)
Definition modified_row (item : pyval) : result pyval :=
  rbind (py_get item "creditor" (PDict [])) (fun creditor =>
  rbind (py_copy creditor) (fun creditor_data =>
  rbind (py_setitem creditor_data "Status" (PStr "MODIFICADO"))
    (fun creditor_data =>
  rbind (py_get item "changes" (PStr "Modificações identificadas"))
    (fun changes =>
  rbind (py_setitem creditor_data "Mudanças" changes) (fun creditor_data =>
  rbind (py_get item "confidence_score" one) (fun score =>
  rbind (py_setitem creditor_data "Score_Confiança" score)
    (fun creditor_data =>
  rbind (py_get item "old_values" (PDict [])) (fun old_values =>
  rbind (py_items old_values) (fun pairs =>
  set_old_values pairs creditor_data))))))))).

(** [for x in results.get(name, []): combined_data.append(row(x))], the
    rows appended. *)
Definition bucket_rows (results : pyval) (name : string)
    (row : pyval -> result pyval) : result (list pyval) :=
  rbind (py_get results name (PList [])) (fun creditors =>
  rbind (py_iter creditors) (rmap_list row)).

(** [combined_data] as the four loops of [export_to_csv] leave it. *)
Definition combined_data (results : pyval) : result (list pyval) :=
  rbind (bucket_rows results "new_creditors"
           (status_row "NOVO" "Credor adicionado na nova versão"))
    (fun new_rows =>
  rbind (bucket_rows results "removed_creditors"
           (status_row "REMOVIDO" "Credor removido da nova versão"))
    (fun removed_rows =>
  rbind (bucket_rows results "modified_creditors" modified_row)
    (fun modified_rows =>
  rbind (bucket_rows results "unchanged_creditors"
           (status_row "INALTERADO" "Nenhuma mudança identificada"))
    (fun unchanged_rows =>
  Ok (new_rows ++ removed_rows ++ modified_rows ++ unchanged_rows))))).

(** The [Status] column of a row. *)
Definition status_of (row : pyval) : option pyval :=
  match row with
  | PDict d => dict_lookup "Status" d
  | _ => None
  end.

Definition bucket_names : list string :=
  ["new_creditors"; "removed_creditors"; "modified_creditors";
   "unchanged_creditors"].

(** ** Notions used to state the properties *)

(** A creditor record is a mapping (a dict). *)
Definition is_record (v : pyval) : bool :=
  match v with
  | PDict _ => true
  | _ => false
  end.

Definition records (ds : list (list (string * pyval))) : list pyval :=
  map PDict ds.

(** The record without its page-provenance field. *)
Definition without_source_pages (d : list (string * pyval))
  : list (string * pyval) :=
  dict_remove "_source_pages" d.

(** The record carries the provenance field with the given text. *)
Definition has_source_pages (pages : string) (v : pyval) : Prop :=
  exists d, v = PDict d /\ dict_lookup "_source_pages" d = Some (PStr pages).

(** *** The parser's strategies, as the specification lists them *)

Definition opt_list {A : Type} (o : option A) : list A :=
  match o with
  | Some a => [a]
  | None => []
  end.

(** [t] is a part of [s]. *)
Definition is_substring (t s : string) : Prop :=
  exists a b, s = (a ++ t ++ b)%string.

(** The texts the array-mode parser tries, in order. *)
Definition array_candidates (s : string) : list string :=
  s :: opt_list (re_search_fence s)
    ++ opt_list (re_search_span "[" "]" s)
    ++ [clean_fences s].

(** The texts the object-mode parser tries, in order. *)
Definition object_candidates (s : string) : list string :=
  s :: opt_list (re_search_fence s) ++ opt_list (re_search_span "{" "}" s).

(** What the strategies make of the texts they try, in order: the outcome
    of the first one on which [json.loads] does anything but raise
    [JSONDecodeError] -- a value, or another exception, which no handler of
    the parser catches -- and the default when all of them raise
    [JSONDecodeError]. *)
Fixpoint first_outcome (decode : string -> result pyval)
    (candidates : list string) (default : pyval) : result pyval :=
  match candidates with
  | [] => Ok default
  | c :: rest =>
      match decode c with
      | Raise JSONDecodeError => first_outcome decode rest default
      | outcome => outcome
      end
  end.

(** [c] is the first of the candidates that [json.loads] does not reject
    with [JSONDecodeError], and [outcome] is what it does on it. *)
Definition first_not_rejected (decode : string -> result pyval)
    (candidates : list string) (c : string) (outcome : result pyval) : Prop :=
  exists before after,
    candidates = before ++ c :: after /\
    Forall (fun t => decode t = Raise JSONDecodeError) before /\
    decode c = outcome /\ outcome <> Raise JSONDecodeError.

(** [json.loads] raises nothing but [JSONDecodeError] on the text. *)
Definition decodes_or_rejects (decode : string -> result pyval)
    (t : string) : Prop :=
  decode t = Raise JSONDecodeError \/ exists v, decode t = Ok v.

(** *** What a consolidation batch call makes of the service's reply *)

(** Lines 235-236 applied to the reply: the parsed content, or what was
    raised on the way. *)
Definition parsed_reply (decode : string -> result pyval)
    (reply : result pyval) : result pyval :=
  rbind reply (fun response =>
  rbind (response_content response) (_parse_ai_response decode)).

(** The test of line 239 holds. *)
Definition accepted (v : pyval) : bool :=
  py_truthy v && match py_len v with
                 | Ok n => (0 <? n)%nat
                 | Raise _ => false
                 end.

(** What [_consolidate_batch] returns, as a function of the reply. *)
Definition batch_outcome (decode : string -> result pyval)
    (reply : result pyval) (creditors : pyval) : result pyval :=
  match parsed_reply decode reply with
  | Ok v => if accepted v then Ok v else pop_source_pages creditors
  | Raise _ => pop_source_pages creditors
  end.

(** The parsed value is no non-empty string or object, and a list only of
    records: nothing but a record list is ever accepted. *)
Definition record_list_or_rejected (v : pyval) : bool :=
  match v with
  | PList l => forallb is_record l
  | PStr s => String.eqb s ""
  | PDict d => Nat.eqb (List.length d) 0
  | _ => true
  end.

(** Every consolidation reply that parses, parses to such a value. *)
Definition consolidation_replies_typed (decode : string -> result pyval)
    (reply : nat -> request -> result pyval) : Prop :=
  forall n creditors document_name v,
    parsed_reply decode (reply n (ConsolidationRequest creditors document_name))
      = Ok v ->
    record_list_or_rejected v = true.

(** No accepted consolidation reply has more items than the list sent. *)
Definition consolidation_replies_bounded (decode : string -> result pyval)
    (reply : nat -> request -> result pyval) : Prop :=
  forall n creditors document_name v k m,
    parsed_reply decode (reply n (ConsolidationRequest creditors document_name))
      = Ok v ->
    accepted v = true ->
    py_len creditors = Ok k ->
    py_len v = Ok m ->
    m <= k.

(** *** The calls of the batched consolidation, as the specification
    describes them

    [batch k] is the [k]-th run of 100 records; the first batch is
    consolidated alone, and every later batch is consolidated and then
    folded: the running total, followed by the batch's output, is
    consolidated again.  [n] is the index of the next service call. *)

Definition batch (creditors : list pyval) (k : nat) : list pyval :=
  firstn 100 (skipn (100 * k) creditors).

Definition batch_call (creditors : list pyval) (document_name : string)
    (k : nat) : request :=
  ConsolidationRequest (PList (batch creditors k))
    (document_name ++ " - Lote " ++ str_of_nat (k + 1)).

Definition list_of (r : result pyval) : list pyval :=
  match r with
  | Ok (PList l) => l
  | _ => []
  end.

Definition outcome_of (decode : string -> result pyval)
    (reply : nat -> request -> result pyval) (n : nat) (req : request)
  : list pyval :=
  match req with
  | ConsolidationRequest creditors _ =>
      list_of (batch_outcome decode (reply n req) creditors)
  | _ => []
  end.

Fixpoint fold_calls (decode : string -> result pyval)
    (reply : nat -> request -> result pyval)
    (creditors : list pyval) (document_name : string)
    (ks : list nat) (n : nat) (total : list pyval) : list request :=
  match ks with
  | [] => []
  | k :: rest =>
      let b := batch_call creditors document_name k in
      let f := ConsolidationRequest
                 (PList (total ++ outcome_of decode reply n b)) document_name in
      b :: f :: fold_calls decode reply creditors document_name rest (n + 2)
                  (outcome_of decode reply (n + 1) f)
  end.

Definition batched_calls (decode : string -> result pyval)
    (reply : nat -> request -> result pyval)
    (creditors : list pyval) (document_name : string) (n : nat)
  : list request :=
  let count := (List.length creditors + 99) / 100 in
  let first := batch_call creditors document_name 0 in
  first :: fold_calls decode reply creditors document_name
             (seq 1 (count - 1)) (n + 1) (outcome_of decode reply n first).

(** *** Progress notifications expected for a chunk list *)

Fixpoint progress_of (total i : nat) (chunks : list Chunk)
  : list progress_event :=
  match chunks with
  | [] => []
  | chunk :: rest =>
      (i, total, start_page chunk, end_page chunk)
        :: progress_of total (S i) rest
  end.

(** The parsed value can be tagged and accumulated: a list of records, or
    an empty string or object (which contribute nothing). *)
Definition taggable (v : pyval) : bool :=
  match v with
  | PList l => forallb is_record l
  | PStr s => String.eqb s ""
  | PDict d => Nat.eqb (List.length d) 0
  | _ => false
  end.

(** Every extraction call returns a response whose content the parser
    turns into such a value (the empty list when nothing decodes). *)
Definition extraction_replies_typed (decode : string -> result pyval)
    (reply : nat -> request -> result pyval) : Prop :=
  forall n pdf_text document_name,
    exists response content v,
      reply n (ExtractionRequest pdf_text document_name) = Ok response /\
      response_content response = Ok content /\
      _parse_ai_response decode content = Ok v /\
      taggable v = true.

(** What one turn of the chunk loop adds to the accumulated list, as a
    function of the service's reply: the parsed content, tagged. *)
Definition chunk_items (decode : string -> result pyval)
    (reply : result pyval) (pages : string) : result (list pyval) :=
  rbind reply (fun response =>
  rbind (response_content response) (fun ai_response =>
  rbind (_parse_ai_response decode ai_response) (fun chunk_creditors =>
  rbind (set_source_pages chunk_creditors pages) (fun tagged =>
  rbind (py_iter tagged) (fun items =>
  rbind (py_len tagged) (fun _ => Ok items)))))).

(** *** The chunk loop as the specification words it: [extractFromText]
    (here [extract_creditors]) is invoked for each chunk. *)

Fixpoint extract_chunks_by_text (decode : string -> result pyval)
    (reply : nat -> request -> result pyval)
    (document_name : string) (progress_callback : bool)
    (total i : nat) (chunks : list Chunk) (all_creditors : list pyval)
  : M (list pyval) :=
  match chunks with
  | [] => ret all_creditors
  | chunk :: rest =>
      (if progress_callback
       then notify_progress (i, total, start_page chunk, end_page chunk)
       else ret tt) ;;;
      extracted <- extract_creditors decode reply (text chunk)
                     (chunk_label document_name chunk) ;;
      chunk_creditors <- lift (set_source_pages (fst extracted)
                                 (source_pages chunk)) ;;
      items <- lift (py_iter chunk_creditors) ;;
      extract_chunks_by_text decode reply document_name progress_callback
        total (S i) rest (all_creditors ++ items)
  end.

(** *** The comparison's classification *)

Definition bucket (comparison : pyval) (name : string) : list pyval :=
  match comparison with
  | PDict d =>
      match dict_lookup name d with
      | Some (PList l) => l
      | _ => []
      end
  | _ => []
  end.

(** A modified entry is about the record in its [creditor] field. *)
Definition is_entry_of (r entry : pyval) : Prop :=
  match entry with
  | PDict e => dict_lookup "creditor" e = Some r
  | _ => False
  end.

Definition in_new (r c : pyval) : Prop := In r (bucket c "new_creditors").
Definition in_removed (r c : pyval) : Prop := In r (bucket c "removed_creditors").
Definition in_unchanged (r c : pyval) : Prop :=
  In r (bucket c "unchanged_creditors").
Definition in_modified (r c : pyval) : Prop :=
  exists entry, In entry (bucket c "modified_creditors") /\ is_entry_of r entry.

Definition classified_once (r c : pyval) : Prop :=
  (in_new r c /\ ~ in_removed r c /\ ~ in_modified r c /\ ~ in_unchanged r c) \/
  (~ in_new r c /\ in_removed r c /\ ~ in_modified r c /\ ~ in_unchanged r c) \/
  (~ in_new r c /\ ~ in_removed r c /\ in_modified r c /\ ~ in_unchanged r c) \/
  (~ in_new r c /\ ~ in_removed r c /\ ~ in_modified r c /\ in_unchanged r c).

Definition summary_count (c : pyval) (name : string) : option pyval :=
  match c with
  | PDict d =>
      match dict_lookup "summary" d with
      | Some (PDict sm) => dict_lookup name sm
      | _ => None
      end
  | _ => None
  end.

Definition count_matches (c : pyval) (count_name bucket_name : string) : Prop :=
  summary_count c count_name
    = Some (PInt (Z.of_nat (List.length (bucket c bucket_name)))).

Definition valid_partition (old_creditors new_creditors : list pyval)
    (c : pyval) : Prop :=
  (forall r, In r (old_creditors ++ new_creditors) -> classified_once r c) /\
  count_matches c "new_count" "new_creditors" /\
  count_matches c "removed_count" "removed_creditors" /\
  count_matches c "modified_count" "modified_creditors" /\
  count_matches c "unchanged_count" "unchanged_creditors".

(** *** Sizes of what the consolidation returns *)

(** The value has a length, and it is not zero. *)
Definition nonempty (v : pyval) : Prop := exists m, py_len v = Ok (S m).

(** The value has a length, and it is at most [bound]. *)
Definition at_most (bound : nat) (v : pyval) : Prop :=
  exists m, py_len v = Ok m /\ m <= bound.

(** *** The service's contract

    What the service did at a call, for a service that keeps to its
    contract: it threw, or it returned a response with string content. *)

Inductive service_reply : Type :=
| Throws (e : exn)
| Responds (content : string).

Definition reply_is (reply : result pyval) (c : service_reply) : Prop :=
  match c with
  | Throws e => reply = Raise e
  | Responds s =>
      exists response,
        reply = Ok response /\ response_content response = Ok (PStr s)
  end.

(** *** Notions for the PDF text extraction *)

(** Some character of the text is not white space. *)
Fixpoint has_ink (s : string) : bool :=
  match s with
  | EmptyString => false
  | String c rest => negb (is_space c) || has_ink rest
  end.

(** What the page loop adds for pages that all give their text. *)
Fixpoint join_pages (texts : list string) : string :=
  match texts with
  | [] => EmptyString
  | t :: rest =>
      (if String.eqb t "" then EmptyString else t ++ newline)
        ++ join_pages rest
  end.

(** The pages of a chunk lie in the document, start a run of
    [pages_per_chunk] pages and are at most that many; its text is not
    blank. *)
Definition chunk_in_range (pages_per_chunk : nat) (c : Chunk) : Prop :=
  nonblank (text c) = true /\
  (1 <= start_page c <= end_page c)%Z /\
  (end_page c <= total_pages c)%Z /\
  (end_page c - start_page c < Z.of_nat pages_per_chunk)%Z /\
  ((start_page c - 1) mod Z.of_nat pages_per_chunk = 0)%Z.

(** The chunks follow one another in the document without overlap. *)
Fixpoint pages_ascend (last_end : Z) (chunks : list Chunk) : Prop :=
  match chunks with
  | [] => True
  | c :: rest => (last_end < start_page c)%Z /\ pages_ascend (end_page c) rest
  end.

(** The text of the run of pages that starts at page index [i]. *)
Definition group_text (texts : list string) (pages_per_chunk i : nat) : string :=
  join_pages
    (firstn (Nat.min (i + pages_per_chunk) (List.length texts) - i)
       (skipn i texts)).

(** The chunk made of that run. *)
Definition chunk_at (texts : list string) (pages_per_chunk i : nat) : Chunk :=
  mkChunk (group_text texts pages_per_chunk i) (Z.of_nat i + 1)
    (Z.of_nat (Nat.min (i + pages_per_chunk) (List.length texts)))
    (Z.of_nat (List.length texts)).

(** The library gives the text of every page, or fails before the first
    one: it does not fail part-way through the document. *)
Definition reads_all_or_nothing (reader : pdf_reader) : Prop :=
  match reader with
  | Raise _ => True
  | Ok pages => exists texts, pages = map Ok texts
  end.

(** No page text that the library gives has white space beyond ASCII. *)
Definition ascii_spaced (reader : pdf_reader) : Prop :=
  match reader with
  | Raise _ => True
  | Ok pages =>
      Forall (fun page =>
                match page with
                | Ok page_text => has_wide_space page_text = false
                | Raise _ => True
                end)
        pages
  end.

(** The texts of the runs of [pages_per_chunk] pages, in order. *)
Definition runs_of (texts : list string) (pages_per_chunk : nat)
  : list string :=
  map (group_text texts pages_per_chunk)
    (py_range 0 (List.length texts) pages_per_chunk).

(** *** Notions for [clean_text] *)

(** A character that is neither white space nor NUL. *)
Definition is_plain (c : ascii) : bool :=
  negb (is_space c) && negb (Ascii.eqb c "000"%char).

Fixpoint all_plain (s : string) : bool :=
  match s with
  | EmptyString => true
  | String c rest => is_plain c && all_plain rest
  end.

(** A word: at least one character, all of them plain. *)
Definition is_word (w : string) : bool :=
  negb (String.eqb w "") && all_plain w.

(** Words with one space between each two, and nothing else. *)
Definition single_spaced (s : string) : Prop :=
  exists words, forallb is_word words = true /\ s = String.concat " " words.

(** The plain characters of a text, in order. *)
Fixpoint plain_chars (s : string) : string :=
  match s with
  | EmptyString => EmptyString
  | String c rest =>
      if is_plain c then String c (plain_chars rest) else plain_chars rest
  end.

(** *** Notions for the calls of the extraction *)

(** The request that [extract_creditors] and the chunk loop build from a
    text: its first 8000 characters ([pdf_text[:8000]] in the prompt). *)
Definition extraction_call (pdf_text document_name : string) : request :=
  ExtractionRequest (str_head 8000 pdf_text) document_name.

Definition chunk_call (document_name : string) (chunk : Chunk) : request :=
  extraction_call (text chunk) (chunk_label document_name chunk).

Definition is_consolidation (req : request) : bool :=
  match req with
  | ConsolidationRequest _ _ => true
  | _ => false
  end.

(** No consolidation reply is accepted: the call throws, or what is parsed
    from its reply is empty or has no length. *)
Definition consolidation_rejected (decode : string -> result pyval)
    (reply : nat -> request -> result pyval) : Prop :=
  forall n creditors document_name v,
    parsed_reply decode (reply n (ConsolidationRequest creditors document_name))
      = Ok v ->
    accepted v = false.

(** The text does not begin in the middle of a character. *)
Definition begins_character (s : string) : bool :=
  match s with
  | EmptyString => true
  | String c _ => negb (is_continuation c)
  end.

(** Two chunks with the same pages and the same first 8000 characters. *)
Definition same_head (c c' : Chunk) : Prop :=
  str_head 8000 (text c) = str_head 8000 (text c') /\
  start_page c = start_page c' /\
  end_page c = end_page c' /\
  total_pages c = total_pages c'.

(** The reply to the extraction call of each chunk parses to a list of
    records: [groups] has the records of each chunk, in chunk order; [n] is
    the index of the call for the first chunk. *)
Fixpoint chunk_replies (decode : string -> result pyval)
    (reply : nat -> request -> result pyval) (document_name : string)
    (n : nat) (chunks : list Chunk)
    (groups : list (list (list (string * pyval)))) : Prop :=
  match chunks, groups with
  | [], [] => True
  | chunk :: chunks', group :: groups' =>
      parsed_reply decode (reply n (chunk_call document_name chunk))
        = Ok (PList (records group)) /\
      chunk_replies decode reply document_name (S n) chunks' groups'
  | _, _ => False
  end.

(** *** Services and inputs for the examples *)

Definition world0 : world := mkWorld [] [].

(** A service that answers every call with the same content. *)
Definition always (content : string) : nat -> request -> result pyval :=
  fun _ _ => Ok (response_with (PStr content)).

(** A service whose every call fails. *)
Definition failing : nat -> request -> result pyval :=
  fun _ _ => Raise (ServiceError 0).

(** A service that follows a script: the [n]-th call gets the [n]-th
    content, and the calls after the script fail. *)
Definition scripted (contents : list string) : nat -> request -> result pyval :=
  fun n _ =>
    match nth_error contents n with
    | Some content => Ok (response_with (PStr content))
    | None => Raise (ServiceError n)
    end.

(** The JSON text of a record with a name and an amount. *)
Definition creditor_json (nome valor : string) : string :=
  "{" ++ dq ++ "nome" ++ dq ++ ": " ++ dq ++ nome ++ dq ++ ", "
      ++ dq ++ "valor" ++ dq ++ ": " ++ dq ++ valor ++ dq ++ "}".

Definition json_array (items : list string) : string :=
  "[" ++ String.concat ", " items ++ "]".

Definition creditor (nome valor : string) : pyval :=
  PDict [("nome", PStr nome); ("valor", PStr valor)].

(** A service that merges whatever records it is sent into a single one. *)
Definition merging : nat -> request -> result pyval :=
  fun _ req =>
    match req with
    | ConsolidationRequest (PList (_ :: _)) _ =>
        Ok (response_with (PStr "[{}]"))
    | _ => Ok (response_with (PStr "[]"))
    end.

(** The text [{"credores": []}]: a JSON object around the list, where a
    bare list was asked for. *)
Definition wrapped_list : string :=
  "{" ++ dq ++ "credores" ++ dq ++ ": []}".

Definition banco_x_fields : list (string * pyval) :=
  [("nome", PStr "Banco X"); ("valor", PStr "100");
   ("_source_pages", PStr "1-20")].

Definition banco_x : pyval := PDict banco_x_fields.

(** An integer literal of 4400 digits. *)
Definition many_digits : string :=
  string_of_list_ascii (repeat "1"%char 4400).

(** The text of a comparison with one new creditor, and what it decodes
    to. *)
Definition one_new_json : string :=
  "{" ++ dq ++ "new_creditors" ++ dq ++ ": [" ++ creditor_json "Loja Y" "50"
      ++ "], " ++ dq ++ "summary" ++ dq ++ ": {"
      ++ dq ++ "new_count" ++ dq ++ ": 1, "
      ++ dq ++ "removed_count" ++ dq ++ ": 0, "
      ++ dq ++ "modified_count" ++ dq ++ ": 0, "
      ++ dq ++ "unchanged_count" ++ dq ++ ": 0}}".

Definition one_new_comparison : pyval :=
  PDict [("new_creditors", PList [creditor "Loja Y" "50"]);
         ("summary", PDict [("new_count", PInt 1);
                            ("removed_count", PInt 0);
                            ("modified_count", PInt 0);
                            ("unchanged_count", PInt 0)])].

(** Three consolidation replies: one record; one record that still has its
    pages; and an empty content. *)
Definition fold_rejected : nat -> request -> result pyval :=
  scripted
    [json_array [creditor_json "Banco X" "100"];
     ("[{" ++ dq ++ "nome" ++ dq ++ ": " ++ dq ++ "Loja Y" ++ dq ++ ", "
           ++ dq ++ "_source_pages" ++ dq ++ ": " ++ dq ++ "21-40" ++ dq
           ++ "}]")%string;
     ""].

Definition chunk_1_20 : Chunk := mkChunk "Banco X 100" 1 20 40.
Definition chunk_21_40 : Chunk := mkChunk "Loja Y 50" 21 40 40.

(** *** Documents, services and comparisons for the examples *)

(** Three pages, the second without text; both libraries read them. *)
Definition three_pages : pdf_file :=
  mkPdfFile (Ok tt)
    (Ok [Ok "Banco X 100"; Ok ""; Ok "Loja Y 50"])
    (Ok [Ok "Banco X 100"; Ok ""; Ok "Loja Y 50"]).

(** Its chunks of two pages. *)
Definition three_pages_chunks : list Chunk :=
  [mkChunk ("Banco X 100" ++ newline) 1 2 3;
   mkChunk ("Loja Y 50" ++ newline) 3 3 3].

(** Two pages; pdfplumber fails on the second, PyPDF2 reads both. *)
Definition second_page_fails : pdf_file :=
  mkPdfFile (Ok tt)
    (Ok [Ok "Banco X 100"; Raise KeyError])
    (Ok [Ok "Banco X 100"; Ok "Loja Y 50"]).

Definition page_1_chunk : Chunk := mkChunk ("Banco X 100" ++ newline) 1 1 2.
Definition page_2_chunk : Chunk := mkChunk ("Loja Y 50" ++ newline) 2 2 2.

(** A text of 8000 characters. *)
Definition long_text : string := string_of_list_ascii (repeat "a"%char 8000).

(** A service that extracts one record from every text, and whose
    consolidation is down. *)
Definition consolidation_down : nat -> request -> result pyval :=
  fun _ req =>
    match req with
    | ExtractionRequest _ _ =>
        Ok (response_with (PStr (json_array [creditor_json "Banco X" "100"])))
    | _ => Raise (ServiceError 503)
    end.

(** A comparison with one new creditor and one modified one. *)
Definition sample_comparison : pyval :=
  PDict [("new_creditors", PList [PDict [("nome", PStr "Loja Y");
                                         ("Status", PStr "ativo")]]);
         ("modified_creditors",
          PList [PDict [("creditor", creditor "Banco X" "100");
                        ("old_values", PDict [("valor", PStr "90")])]])].

(** A comparison whose list of removed creditors holds a name, not a
    record. *)
Definition names_only_comparison : pyval :=
  PDict [("removed_creditors", PList [PStr "Banco X"])].

(** *** Proof steps for the examples *)

(** Given [H : s = a ++ t ++ b] for a short text [s], the texts [t] that
    are a part of [s], one by one. *)
Ltac part_of H t tac :=
  destruct t as [|? t]; cbn [append] in H;
  [tac|first [discriminate H|injection H as <- H; part_of H t tac]].

Ltac parts_of H a t tac :=
  destruct a as [|? a]; cbn [append] in H;
  [part_of H t tac
  |first [discriminate H|injection H as <- H; parts_of H a t tac]].

(** * Properties *)

(** ** Dicts and the two loops over records *)

Lemma dict_lookup_remove_same (k : string) (d : list (string * pyval)) :
  dict_lookup k (dict_remove k d) = None.
Proof.
  induction d as [|[k' v] d IH]; simpl; [reflexivity|].
  destruct (String.eqb k k') eqn:E; simpl; [assumption|].
  rewrite E. assumption.
Qed.

Lemma dict_lookup_remove_other (k k' : string) (d : list (string * pyval)) :
  k' <> k -> dict_lookup k' (dict_remove k d) = dict_lookup k' d.
Proof.
  intros Hne. induction d as [|[k0 v] d IH]; simpl; [reflexivity|].
  destruct (String.eqb k k0) eqn:E.
  - apply String.eqb_eq in E. subst k0.
    destruct (String.eqb k' k) eqn:E'; [|assumption].
    apply String.eqb_eq in E'. contradiction.
  - simpl. rewrite IH. reflexivity.
Qed.

Lemma dict_lookup_set_same (k : string) (v : pyval) (d : list (string * pyval)) :
  dict_lookup k (dict_set k v d) = Some v.
Proof.
  induction d as [|[k' v'] d IH]; simpl.
  - rewrite String.eqb_refl. reflexivity.
  - destruct (String.eqb k k') eqn:E; simpl; rewrite E; [reflexivity|assumption].
Qed.

Lemma rmap_list_length {A B : Type} (f : A -> result B) (l : list A) (l' : list B) :
  rmap_list f l = Ok l' -> List.length l' = List.length l.
Proof.
  revert l'. induction l as [|x xs IH]; simpl; intros l' H.
  - injection H as <-. reflexivity.
  - destruct (f x) as [y|e]; simpl in H; [|discriminate].
    destruct (rmap_list f xs) as [ys|e]; simpl in H; [|discriminate].
    injection H as <-. simpl. f_equal. apply IH. reflexivity.
Qed.

Lemma pop_records (ds : list (list (string * pyval))) :
  rmap_list (fun creditor => py_pop creditor "_source_pages") (records ds)
  = Ok (records (map without_source_pages ds)).
Proof.
  unfold records.
  induction ds as [|d ds IH]; cbn [map rmap_list]; [reflexivity|].
  rewrite IH. reflexivity.
Qed.

Lemma pop_source_pages_records (ds : list (list (string * pyval))) :
  pop_source_pages (PList (records ds))
  = Ok (PList (records (map without_source_pages ds))).
Proof. unfold pop_source_pages. simpl. rewrite pop_records. reflexivity. Qed.

Lemma pop_source_pages_len (creditors creditors' : pyval) :
  pop_source_pages creditors = Ok creditors' ->
  py_len creditors' = py_len creditors.
Proof.
  unfold pop_source_pages. intros H.
  destruct (py_iter creditors) as [items|e] eqn:Hi; simpl in H; [|discriminate].
  destruct (rmap_list _ items) as [items'|e] eqn:Hm; simpl in H; [|discriminate].
  injection H as <-.
  destruct creditors; try reflexivity.
  simpl in Hi. injection Hi as <-. simpl.
  f_equal. eapply rmap_list_length. eassumption.
Qed.

Lemma records_of_forallb (l : list pyval) :
  forallb is_record l = true -> exists ds, l = records ds.
Proof.
  induction l as [|x xs IH]; simpl; intros H.
  - exists []. reflexivity.
  - apply andb_prop in H as [Hx Hxs]. destruct (IH Hxs) as [ds ->].
    destruct x; try discriminate. exists (d :: ds). reflexivity.
Qed.

Lemma forallb_records (ds : list (list (string * pyval))) :
  forallb is_record (records ds) = true.
Proof. induction ds; simpl; auto. Qed.

Lemma string_app_assoc (a b c : string) :
  ((a ++ b) ++ c = a ++ b ++ c)%string.
Proof. induction a as [|x a IH]; simpl; [reflexivity|]. rewrite IH. reflexivity. Qed.

Lemma string_app_nil_r (a : string) : (a ++ "")%string = a.
Proof. induction a as [|x a IH]; simpl; [reflexivity|]. rewrite IH. reflexivity. Qed.

Lemma str_chars_nonempty (s current : string) :
  s <> "" \/ current <> "" -> str_chars s current <> [].
Proof.
  revert current. induction s as [|c s IH]; intros current H; cbn [str_chars].
  - destruct H as [H|H]; [contradiction|].
    destruct (String.eqb_spec current ""); [contradiction|discriminate].
  - destruct (is_continuation c || String.eqb current ""); [|discriminate].
    apply IH. right. destruct current; discriminate.
Qed.

(** A text that is not empty has a first character. *)
Lemma chars_of_cons (c : ascii) (s : string) :
  exists x rest, chars_of (String c s) = PStr x :: rest.
Proof.
  unfold chars_of.
  destruct (str_chars (String c s) "") as [|x rest] eqn:E.
  - exfalso. apply (str_chars_nonempty (String c s) ""); [left; discriminate|].
    assumption.
  - exists x, (map PStr rest). reflexivity.
Qed.

Lemma set_source_pages_items (v v' : pyval) (pages : string) (items : list pyval) :
  set_source_pages v pages = Ok v' ->
  py_iter v' = Ok items ->
  Forall (has_source_pages pages) items.
Proof.
  unfold set_source_pages. intros H Hit.
  destruct (py_iter v) as [xs|e] eqn:Hi; simpl in H; [|discriminate].
  destruct (rmap_list _ xs) as [xs'|e] eqn:Hm; simpl in H; [|discriminate].
  injection H as <-.
  assert (Hall : Forall (has_source_pages pages) xs').
  { clear Hi Hit. revert xs' Hm. induction xs as [|x xs IH]; simpl; intros xs' Hm.
    - injection Hm as <-. constructor.
    - destruct (py_setitem x "_source_pages" (PStr pages)) as [y|e] eqn:Hy;
        simpl in Hm; [|discriminate].
      destruct (rmap_list _ xs) as [ys|e] eqn:Hys; simpl in Hm; [|discriminate].
      injection Hm as <-. constructor; [|apply IH; reflexivity].
      destruct x; try discriminate. simpl in Hy. injection Hy as <-.
      eexists. split; [reflexivity|]. apply dict_lookup_set_same. }
  destruct v; try discriminate.
  - (* a string: its characters cannot take the field *)
    simpl in Hi, Hit. injection Hi as <-. injection Hit as <-.
    destruct s as [|c s]; [constructor|].
    destruct (chars_of_cons c s) as [x [rest Hx]]. rewrite Hx in Hm.
    simpl in Hm. discriminate.
  - simpl in Hit. injection Hit as <-. assumption.
  - (* a dict: its keys cannot take the field *)
    simpl in Hi, Hit. injection Hi as <-. injection Hit as <-.
    destruct d as [|[k x] d]; [constructor|]. simpl in Hm. discriminate.
Qed.

Lemma set_source_pages_taggable (v : pyval) (pages : string) :
  taggable v = true ->
  exists v' items n,
    set_source_pages v pages = Ok v' /\ py_iter v' = Ok items /\ py_len v' = Ok n.
Proof.
  intros H. destruct v; try discriminate; simpl in H.
  - apply String.eqb_eq in H. subst s. exists (PStr ""), [], 0. repeat split.
  - destruct (records_of_forallb _ H) as [ds ->].
    assert (Hm : rmap_list
                   (fun creditor => py_setitem creditor "_source_pages" (PStr pages))
                   (records ds)
                 = Ok (records (map (dict_set "_source_pages" (PStr pages)) ds))).
    { clear H. unfold records.
      induction ds as [|d ds IH]; cbn [map rmap_list]; [reflexivity|].
      rewrite IH. reflexivity. }
    unfold set_source_pages. simpl. rewrite Hm. simpl.
    do 3 eexists. repeat split.
  - destruct d; [|discriminate]. exists (PDict []), [], 0. repeat split.
Qed.

Section Properties.

Variable decode : string -> result pyval.
Variable svc : nat -> request -> result pyval.

(** ** The response parser *)

Lemma try_match_first_outcome (m : option string) (rest : list string)
    (default : pyval) (next : result pyval) :
  next = first_outcome decode rest default ->
  try_match decode m next
  = first_outcome decode (opt_list m ++ rest) default.
Proof.
  intros ->. destruct m as [c|]; cbn [try_match opt_list app]; [|reflexivity].
  cbn [first_outcome json_loads except_JSONDecodeError].
  destruct (decode c) as [v|[]]; reflexivity.
Qed.

Lemma parse_ai_response_first_outcome (s : string) :
  _parse_ai_response decode (PStr s)
  = first_outcome decode (array_candidates s) (PList []).
Proof.
  unfold _parse_ai_response, array_candidates.
  cbn [first_outcome json_loads].
  destruct (decode s) as [v|[]]; cbn [except_JSONDecodeError];
    try reflexivity.
  apply try_match_first_outcome. apply try_match_first_outcome.
  cbn [first_outcome]. destruct (decode (clean_fences s)) as [v|[]];
    reflexivity.
Qed.

Lemma parse_comparison_response_first_outcome (s : string) :
  _parse_comparison_response decode (PStr s)
  = first_outcome decode (object_candidates s) default_comparison.
Proof.
  unfold _parse_comparison_response, object_candidates.
  cbn [first_outcome json_loads].
  destruct (decode s) as [v|[]]; cbn [except_JSONDecodeError];
    try reflexivity.
  apply try_match_first_outcome.
  rewrite <- (app_nil_r (opt_list (re_search_span "{" "}" s))).
  apply try_match_first_outcome. reflexivity.
Qed.

Lemma first_outcome_cases (candidates : list string) (default : pyval) :
  (exists c,
      first_not_rejected decode candidates c
        (first_outcome decode candidates default)) \/
  (Forall (fun t => decode t = Raise JSONDecodeError) candidates /\
   first_outcome decode candidates default = Ok default).
Proof.
  induction candidates as [|c rest IH]; cbn [first_outcome].
  - right. split; [constructor|reflexivity].
  - assert (Hfirst : forall outcome,
               decode c = outcome -> outcome <> Raise JSONDecodeError ->
               first_not_rejected decode (c :: rest) c outcome).
    { intros outcome Hc Hne. exists [], rest. repeat split; auto. }
    destruct (decode c) as [v|e] eqn:E.
    + left. exists c. apply Hfirst; [reflexivity|discriminate].
    + destruct e;
        try (left; exists c; apply Hfirst; [reflexivity|discriminate]).
      cbv iota.
      destruct IH as [[c' [before [after [Hc [Hb [Hd Hne]]]]]]|[Hall Hd]].
      * left. exists c', (c :: before), after. subst rest.
        split; [reflexivity|]. split; [constructor; assumption|].
        split; assumption.
      * right. split; [constructor; assumption|assumption].
Qed.

Lemma first_outcome_returns (candidates : list string) (default : pyval) :
  Forall (decodes_or_rejects decode) candidates ->
  exists v,
    first_outcome decode candidates default = Ok v /\
    ((exists t, In t candidates /\ decode t = Ok v) \/ v = default).
Proof.
  induction 1 as [|c rest [Hc|[v Hc]] _ IH]; cbn [first_outcome].
  - exists default. split; [reflexivity|right; reflexivity].
  - rewrite Hc. destruct IH as [v [Hv [[t [Hin Ht]]|Hd]]].
    + exists v. split; [assumption|]. left. exists t.
      split; [right; assumption|assumption].
    + exists v. split; [assumption|right; assumption].
  - rewrite Hc. exists v. split; [reflexivity|]. left. exists c.
    split; [left; reflexivity|assumption].
Qed.

(** *** Every text a strategy tries is a part of the response *)

Lemma is_substring_refl (s : string) : is_substring s s.
Proof. exists "", "". cbn [append]. symmetry. apply string_app_nil_r. Qed.

Lemma is_substring_trans (a b c : string) :
  is_substring a b -> is_substring b c -> is_substring a c.
Proof.
  intros [x [y ->]] [x' [y' ->]]. exists (x' ++ x)%string, (y ++ y')%string.
  rewrite !string_app_assoc. reflexivity.
Qed.

Lemma drop_suffix (n : nat) (s : string) : exists a, s = (a ++ drop n s)%string.
Proof.
  revert s. induction n as [|n IH]; intros s.
  - exists "". destruct s; reflexivity.
  - destruct s as [|c s]; [exists ""; reflexivity|].
    destruct (IH s) as [a Ha]. exists (String c a). cbn [drop append].
    rewrite <- Ha. reflexivity.
Qed.

Lemma is_substring_drop (n : nat) (s : string) : is_substring (drop n s) s.
Proof.
  destruct (drop_suffix n s) as [a Ha]. exists a, "".
  rewrite string_app_nil_r. assumption.
Qed.

Lemma substring_0_prefix (m : nat) (s : string) :
  exists b, s = (substring 0 m s ++ b)%string.
Proof.
  revert m. induction s as [|c s IH]; intros m.
  - exists "". destruct m; reflexivity.
  - destruct m as [|m]; [exists (String c s); reflexivity|].
    destruct (IH m) as [b Hb]. exists b. cbn [substring append].
    rewrite <- Hb. reflexivity.
Qed.

Lemma is_substring_substring (n m : nat) (s : string) :
  is_substring (substring n m s) s.
Proof.
  revert n. induction s as [|c s IH]; intros n.
  - exists "", "". destruct n, m; reflexivity.
  - destruct n as [|n].
    + destruct (substring_0_prefix m (String c s)) as [b Hb].
      exists "", b. assumption.
    + destruct (IH n) as [a [b Hab]]. exists (String c a), b.
      cbn [substring append]. rewrite <- Hab. reflexivity.
Qed.

Lemma lstrip_suffix (s : string) : exists a, s = (a ++ lstrip s)%string.
Proof.
  induction s as [|c s [a Ha]]; [exists ""; reflexivity|].
  cbn [lstrip]. destruct (is_space c).
  - exists (String c a). cbn [append]. rewrite <- Ha. reflexivity.
  - exists "". reflexivity.
Qed.

Lemma list_ascii_of_string_app (a b : string) :
  list_ascii_of_string (a ++ b)
  = list_ascii_of_string a ++ list_ascii_of_string b.
Proof.
  induction a as [|c a IH]; cbn [append list_ascii_of_string app];
    [reflexivity|]. rewrite IH. reflexivity.
Qed.

Lemma string_of_list_ascii_app (l1 l2 : list ascii) :
  string_of_list_ascii (l1 ++ l2)
  = (string_of_list_ascii l1 ++ string_of_list_ascii l2)%string.
Proof.
  induction l1 as [|c l1 IH]; cbn [app string_of_list_ascii append];
    [reflexivity|]. rewrite IH. reflexivity.
Qed.

Lemma string_rev_app (a b : string) :
  string_rev (a ++ b) = (string_rev b ++ string_rev a)%string.
Proof.
  unfold string_rev.
  rewrite list_ascii_of_string_app, rev_app_distr, string_of_list_ascii_app.
  reflexivity.
Qed.

Lemma string_rev_involutive (s : string) : string_rev (string_rev s) = s.
Proof.
  unfold string_rev.
  rewrite list_ascii_of_string_of_list_ascii, rev_involutive.
  apply string_of_list_ascii_of_string.
Qed.

Lemma rstrip_prefix (s : string) : exists b, s = (rstrip s ++ b)%string.
Proof.
  unfold rstrip. destruct (lstrip_suffix (string_rev s)) as [a Ha].
  exists (string_rev a).
  rewrite <- string_rev_app, <- Ha. symmetry. apply string_rev_involutive.
Qed.

Lemma is_substring_strip (s : string) : is_substring (strip s) s.
Proof.
  unfold strip. destruct (lstrip_suffix s) as [a Ha].
  destruct (rstrip_prefix (lstrip s)) as [b Hb].
  exists a, b. rewrite <- Hb. assumption.
Qed.

Lemma is_substring_fence (s c : string) :
  re_search_fence s = Some c -> is_substring c s.
Proof.
  unfold re_search_fence. destruct (index 0 fence s) as [i|]; [|discriminate].
  cbv zeta.
  set (rest := drop (i + 3) s).
  assert (Hrest : is_substring
                    (if startswith "json" rest then drop 4 rest else rest) s).
  { destruct (startswith "json" rest).
    - eapply is_substring_trans; apply is_substring_drop.
    - apply is_substring_drop. }
  destruct (index 0 fence _) as [q|]; [|discriminate].
  intros H. injection H as <-.
  eapply is_substring_trans; [apply is_substring_strip|].
  eapply is_substring_trans; [apply is_substring_substring|exact Hrest].
Qed.

Lemma is_substring_span (opening closing : ascii) (s c : string) :
  re_search_span opening closing s = Some c -> is_substring c s.
Proof.
  unfold re_search_span. destruct (find_char opening s) as [i|]; [|discriminate].
  destruct (rfind_char closing _) as [k|]; [|discriminate].
  intros H. injection H as <-. apply is_substring_substring.
Qed.

Lemma is_substring_clean_fences (s : string) : is_substring (clean_fences s) s.
Proof.
  unfold clean_fences. cbv zeta.
  destruct (startswith fence (strip s) && endswith fence (strip s));
    [|apply is_substring_strip].
  assert (H : is_substring
                (strip (substring 3 (String.length (strip s) - 6) (strip s)))
                s).
  { eapply is_substring_trans; [apply is_substring_strip|].
    eapply is_substring_trans;
      [apply is_substring_substring|apply is_substring_strip]. }
  destruct (startswith "json" _); [|exact H].
  eapply is_substring_trans; [apply is_substring_strip|].
  eapply is_substring_trans; [apply is_substring_drop|exact H].
Qed.

Lemma opt_list_substring (m : option string) (s : string) :
  (forall c, m = Some c -> is_substring c s) ->
  Forall (fun t => is_substring t s) (opt_list m).
Proof.
  intros H. destruct m as [c|]; cbn [opt_list]; [|constructor].
  constructor; [apply H; reflexivity|constructor].
Qed.

Lemma array_candidates_substrings (s : string) :
  Forall (fun t => is_substring t s) (array_candidates s).
Proof.
  unfold array_candidates. constructor; [apply is_substring_refl|].
  apply Forall_app. split;
    [apply opt_list_substring; intros c; apply is_substring_fence|].
  apply Forall_app. split;
    [apply opt_list_substring; intros c; apply is_substring_span|].
  constructor; [apply is_substring_clean_fences|constructor].
Qed.

Lemma object_candidates_substrings (s : string) :
  Forall (fun t => is_substring t s) (object_candidates s).
Proof.
  unfold object_candidates. constructor; [apply is_substring_refl|].
  apply Forall_app. split;
    [apply opt_list_substring; intros c; apply is_substring_fence|].
  apply opt_list_substring. intros c. apply is_substring_span.
Qed.

(** When [json.loads] raises nothing but [JSONDecodeError] on the parts of
    the response, the candidates give a value of one of them, or the
    default. *)
Lemma candidates_return (s : string) (candidates : list string)
    (default : pyval) :
  Forall (fun t => is_substring t s) candidates ->
  (forall t, is_substring t s -> decodes_or_rejects decode t) ->
  exists v,
    first_outcome decode candidates default = Ok v /\
    ((exists t, is_substring t s /\ decode t = Ok v) \/ v = default).
Proof.
  intros Hsub Hdec.
  destruct (first_outcome_returns candidates default)
    as [v [Hv [[t [Hin Ht]]|Hd]]].
  - eapply Forall_impl; [|exact Hsub]. intros t. apply Hdec.
  - exists v. split; [assumption|]. left. exists t. split; [|assumption].
    rewrite Forall_forall in Hsub. apply Hsub. assumption.
  - exists v. split; [assumption|right; assumption].
Qed.

(** C5, as the code has it.  The parsers catch [JSONDecodeError] and
    nothing else: on a response whose parts [json.loads] either decodes or
    rejects with [JSONDecodeError], both return -- a value decoded from a
    part of the response, else the empty list (array mode) or the object
    with four empty lists and six zero counts (object mode).  On a response
    without white space beyond ASCII, each is the outcome of the first of
    its candidate texts (the whole text, the fenced block, the bracketed
    span, and in array mode the cleaned text) that [json.loads] does not
    reject: its value, or the exception it raises there, which the parser
    then raises too; and the default when all are rejected. *)
Theorem parsers_never_raise (s : string) :
  let zero :=
    PDict [("new_creditors", PList []);
           ("removed_creditors", PList []);
           ("modified_creditors", PList []);
           ("unchanged_creditors", PList []);
           ("summary",
            PDict [("total_old", PInt 0);
                   ("total_new", PInt 0);
                   ("new_count", PInt 0);
                   ("removed_count", PInt 0);
                   ("modified_count", PInt 0);
                   ("unchanged_count", PInt 0)])] in
  ((forall t, is_substring t s -> decodes_or_rejects decode t) ->
   (exists v,
       _parse_ai_response decode (PStr s) = Ok v /\
       ((exists t, is_substring t s /\ decode t = Ok v) \/ v = PList [])) /\
   (exists v,
       _parse_comparison_response decode (PStr s) = Ok v /\
       ((exists t, is_substring t s /\ decode t = Ok v) \/ v = zero))) /\
  (has_wide_space s = false ->
   _parse_ai_response decode (PStr s)
   = first_outcome decode (array_candidates s) (PList []) /\
   _parse_comparison_response decode (PStr s)
   = first_outcome decode (object_candidates s) zero /\
   ((exists c,
        first_not_rejected decode (array_candidates s) c
          (_parse_ai_response decode (PStr s))) \/
    (Forall (fun t => decode t = Raise JSONDecodeError) (array_candidates s) /\
     _parse_ai_response decode (PStr s) = Ok (PList []))) /\
   ((exists c,
        first_not_rejected decode (object_candidates s) c
          (_parse_comparison_response decode (PStr s))) \/
    (Forall (fun t => decode t = Raise JSONDecodeError) (object_candidates s) /\
     _parse_comparison_response decode (PStr s) = Ok zero))).
Proof.
  intros zero. change zero with default_comparison.
  rewrite parse_ai_response_first_outcome,
    parse_comparison_response_first_outcome.
  split.
  - intros Hdec. split.
    + apply (candidates_return s); [apply array_candidates_substrings|assumption].
    + apply (candidates_return s); [apply object_candidates_substrings|assumption].
  - intros _. split; [reflexivity|]. split; [reflexivity|].
    split; apply first_outcome_cases.
Qed.

(** ** The comparison *)

Lemma compare_run (old_creditors new_creditors : list pyval) (w : world)
    (c : service_reply) :
  reply_is (svc (List.length (calls w))
              (ComparisonRequest old_creditors new_creditors)) c ->
  fst (compare_creditors_with_ai decode svc old_creditors new_creditors w)
  = match c with
    | Throws e => Raise (Wrapped ErroComparacaoIA e)
    | Responds s =>
        if String.eqb s "" then Raise (Wrapped ErroComparacaoIA ValueError)
        else
          match first_outcome decode (object_candidates s) default_comparison
          with
          | Ok v => Ok v
          | Raise e => Raise (Wrapped ErroComparacaoIA e)
          end
    end.
Proof.
  intros H.
  unfold compare_creditors_with_ai, try_except, bind, fal_client_run, lift, raise.
  destruct c as [e|s]; cbn [reply_is] in H.
  - rewrite H. reflexivity.
  - destruct H as [response [-> Hc]]. rewrite Hc.
    cbn [py_truthy negb].
    destruct (String.eqb s ""); cbn [negb]; [reflexivity|].
    cbn [py_len py_slice_check].
    rewrite parse_comparison_response_first_outcome.
    destruct (first_outcome decode (object_candidates s) default_comparison);
      reflexivity.
Qed.

(** C6, as the code has it.  For a service that keeps to its contract,
    [compare] raises nothing but its comparison error; it raises it when
    the call throws and when the content is the empty string -- and also,
    with content that is not empty, when the object-mode parser raises,
    which it does when [json.loads] raises something other than
    [JSONDecodeError] on a text the parser tries.  When
    [json.loads] decodes or rejects every part of the content, [compare]
    returns; and on a content without white space beyond ASCII its outcome
    is that of the first object-mode candidate that is not rejected, and
    the object with four empty lists and six zero counts when all are. *)
Theorem compare_raises_iff (old_creditors new_creditors : list pyval)
    (w : world) (c : service_reply) :
  reply_is (svc (List.length (calls w))
              (ComparisonRequest old_creditors new_creditors)) c ->
  let outcome :=
    fst (compare_creditors_with_ai decode svc old_creditors new_creditors w) in
  let zero :=
    PDict [("new_creditors", PList []);
           ("removed_creditors", PList []);
           ("modified_creditors", PList []);
           ("unchanged_creditors", PList []);
           ("summary",
            PDict [("total_old", PInt 0);
                   ("total_new", PInt 0);
                   ("new_count", PInt 0);
                   ("removed_count", PInt 0);
                   ("modified_count", PInt 0);
                   ("unchanged_count", PInt 0)])] in
  (forall e, outcome = Raise e ->
             exists cause, e = Wrapped ErroComparacaoIA cause) /\
  (forall e, c = Throws e -> outcome = Raise (Wrapped ErroComparacaoIA e)) /\
  (c = Responds "" -> outcome = Raise (Wrapped ErroComparacaoIA ValueError)) /\
  (forall s, c = Responds s -> s <> "" ->
     outcome
     = match _parse_comparison_response decode (PStr s) with
       | Ok v => Ok v
       | Raise e => Raise (Wrapped ErroComparacaoIA e)
       end /\
     ((forall t, is_substring t s -> decodes_or_rejects decode t) ->
      exists v, outcome = Ok v) /\
     (has_wide_space s = false ->
      outcome
      = match first_outcome decode (object_candidates s) zero with
        | Ok v => Ok v
        | Raise e => Raise (Wrapped ErroComparacaoIA e)
        end /\
      ((exists e, outcome = Raise e) <->
       (exists e, first_outcome decode (object_candidates s) zero = Raise e)) /\
      (Forall (fun t => decode t = Raise JSONDecodeError) (object_candidates s) ->
       outcome = Ok zero))).
Proof.
  intros H outcome zero. subst outcome. change zero with default_comparison.
  rewrite (compare_run _ _ _ _ H).
  split; [|split; [|split]].
  - intros e He. destruct c as [e'|s].
    + injection He as <-. eexists. reflexivity.
    + destruct (String.eqb s "");
        [injection He as <-; eexists; reflexivity|].
      destruct (first_outcome decode (object_candidates s) default_comparison);
        [discriminate|]. injection He as <-. eexists. reflexivity.
  - intros e ->. reflexivity.
  - intros ->. reflexivity.
  - intros s -> Hne. apply String.eqb_neq in Hne. rewrite Hne.
    split; [rewrite parse_comparison_response_first_outcome; reflexivity|].
    split.
    + intros Hdec.
      destruct (candidates_return s (object_candidates s) default_comparison
                  (object_candidates_substrings s) Hdec) as [v [-> _]].
      exists v. reflexivity.
    + intros _. split; [reflexivity|]. split.
      * split.
        -- intros [e He].
           destruct (first_outcome decode (object_candidates s)
                       default_comparison) as [v|e']; [discriminate|].
           exists e'. reflexivity.
        -- intros [e ->]. eexists. reflexivity.
      * intros Hall.
        destruct (first_outcome_cases (object_candidates s) default_comparison)
          as [[t [before [after [Hc [_ [Ht Hneq]]]]]]|[_ ->]]; [|reflexivity].
        exfalso. rewrite Forall_forall in Hall.
        rewrite <- Ht, (Hall t) in Hneq; [contradiction|].
        rewrite Hc. apply in_or_app. right. left. reflexivity.
Qed.

(** C1, as the code has it: [compare] checks nothing against its input
    lists.  When the call returns content that is not empty, its outcome is
    what the object-mode parser makes of that content (an exception of the
    parser comes out as the comparison error).  With content that
    [json.loads] decodes, it returns the decoded value as it is, so what it
    returns is a partition of the input records with matching counts
    exactly when the service's response is one; with other content (and no
    white space beyond ASCII) its outcome is what the object-mode
    candidates give.  In every case the outcome is a function of the
    service's reply alone: a run on other record lists that gets the same
    reply has the same outcome. *)
Theorem compare_outcome_from_reply_alone
    (old_creditors new_creditors : list pyval) (w : world) (s : string) :
  reply_is (svc (List.length (calls w))
              (ComparisonRequest old_creditors new_creditors)) (Responds s) ->
  s <> "" ->
  let outcome :=
    fst (compare_creditors_with_ai decode svc old_creditors new_creditors w) in
  let zero :=
    PDict [("new_creditors", PList []);
           ("removed_creditors", PList []);
           ("modified_creditors", PList []);
           ("unchanged_creditors", PList []);
           ("summary",
            PDict [("total_old", PInt 0);
                   ("total_new", PInt 0);
                   ("new_count", PInt 0);
                   ("removed_count", PInt 0);
                   ("modified_count", PInt 0);
                   ("unchanged_count", PInt 0)])] in
  outcome
  = match _parse_comparison_response decode (PStr s) with
    | Ok v => Ok v
    | Raise e => Raise (Wrapped ErroComparacaoIA e)
    end /\
  (forall c, decode s = Ok c ->
     outcome = Ok c /\
     ((exists c', outcome = Ok c' /\
                  valid_partition old_creditors new_creditors c') <->
      valid_partition old_creditors new_creditors c)) /\
  (has_wide_space s = false ->
   outcome
   = match first_outcome decode (object_candidates s) zero with
     | Ok v => Ok v
     | Raise e => Raise (Wrapped ErroComparacaoIA e)
     end) /\
  (forall old_creditors' new_creditors' w',
      svc (List.length (calls w'))
        (ComparisonRequest old_creditors' new_creditors')
      = svc (List.length (calls w))
          (ComparisonRequest old_creditors new_creditors) ->
      fst (compare_creditors_with_ai decode svc old_creditors' new_creditors' w')
      = outcome).
Proof.
  intros H Hne outcome zero. subst outcome. change zero with default_comparison.
  split; [|split; [|split]].
  - rewrite (compare_run _ _ _ _ H).
    apply String.eqb_neq in Hne. rewrite Hne.
    rewrite parse_comparison_response_first_outcome. reflexivity.
  - intros c Hc. rewrite (compare_run _ _ _ _ H).
    apply String.eqb_neq in Hne. rewrite Hne.
    unfold object_candidates. cbn [first_outcome]. rewrite Hc.
    split; [reflexivity|]. split.
    + intros [c' [Heq Hv]]. injection Heq as <-. assumption.
    + intros Hv. exists c. split; [reflexivity|assumption].
  - intros _. rewrite (compare_run _ _ _ _ H).
    apply String.eqb_neq in Hne. rewrite Hne. reflexivity.
  - intros old' new' w' Heq.
    unfold compare_creditors_with_ai, try_except, bind, fal_client_run, lift,
      raise.
    rewrite Heq.
    destruct (svc _ (ComparisonRequest old_creditors new_creditors))
      as [response|e]; [|reflexivity].
    destruct (response_content response) as [content|e]; [|reflexivity].
    destruct (negb (py_truthy content)); [reflexivity|].
    destruct (py_len content); [|reflexivity].
    destruct (py_slice_check content); [|reflexivity].
    destruct (_parse_comparison_response decode content); reflexivity.
Qed.

(** ** One consolidation batch call *)

(** A batch operation on a sized value issues exactly one service call
    and returns what [batch_outcome] makes of the reply. *)
Lemma consolidate_batch_run (creditors : pyval) (document_name : string)
    (w : world) (k : nat) :
  py_len creditors = Ok k ->
  _consolidate_batch decode svc creditors document_name w
  = (batch_outcome decode
       (svc (List.length (calls w))
          (ConsolidationRequest creditors document_name)) creditors,
     mkWorld (calls w ++ [ConsolidationRequest creditors document_name])
       (progress w)).
Proof.
  intros Hlen.
  unfold _consolidate_batch, batch_outcome, parsed_reply, accepted,
    try_except, bind, fal_client_run, lift, ret.
  rewrite Hlen.
  destruct (svc _ _) as [response|e]; cbn [rbind]; [|reflexivity].
  destruct (response_content response) as [content|e]; cbn [rbind];
    [|reflexivity].
  destruct (_parse_ai_response decode content) as [v|e]; [|reflexivity].
  destruct (py_truthy v); cbn [andb].
  - destruct (py_len v) as [n|e]; cbn [rbind]; [|reflexivity].
    destruct (0 <? n)%nat; [reflexivity|].
    destruct (pop_source_pages creditors); reflexivity.
  - destruct (pop_source_pages creditors); reflexivity.
Qed.

Lemma consolidate_batch_progress (creditors : pyval) (document_name : string)
    (w : world) :
  progress (snd (_consolidate_batch decode svc creditors document_name w))
  = progress w.
Proof.
  destruct (py_len creditors) as [k|e] eqn:Hlen.
  - erewrite consolidate_batch_run by eassumption. reflexivity.
  - unfold _consolidate_batch, try_except, bind, lift. rewrite Hlen.
    reflexivity.
Qed.

Lemma batch_outcome_cases (reply : result pyval) (creditors : pyval) :
  (exists v, batch_outcome decode reply creditors = Ok v /\
             parsed_reply decode reply = Ok v /\ accepted v = true) \/
  batch_outcome decode reply creditors = pop_source_pages creditors.
Proof.
  unfold batch_outcome.
  destruct (parsed_reply decode reply) as [v|e]; [|right; reflexivity].
  destruct (accepted v) eqn:E; [|right; reflexivity].
  left. exists v. repeat split. assumption.
Qed.

Lemma accepted_len (v : pyval) :
  accepted v = true -> exists m, py_len v = Ok (S m).
Proof.
  unfold accepted. intros H. apply andb_prop in H as [_ H].
  destruct (py_len v) as [n|e]; [|discriminate].
  destruct n; [discriminate|]. eexists. reflexivity.
Qed.

(** C2: when the reply of a consolidation batch call raises on the way to
    a parsed value, or parses to an empty (falsy) value, or to one that has
    no length, the batch operation returns the batch it was given: the same
    records in the same order and number, each without its
    [_source_pages] field and with every other field as it was. *)
Theorem consolidate_batch_fallback (ds : list (list (string * pyval)))
    (document_name : string) (w : world) :
  let reply := svc (List.length (calls w))
                 (ConsolidationRequest (PList (records ds)) document_name) in
  ((exists e, parsed_reply decode reply = Raise e) \/
   (exists v, parsed_reply decode reply = Ok v /\ py_truthy v = false) \/
   (exists v e, parsed_reply decode reply = Ok v /\ py_len v = Raise e)) ->
  fst (_consolidate_batch decode svc (PList (records ds)) document_name w)
  = Ok (PList (records (map without_source_pages ds))) /\
  List.length (map without_source_pages ds) = List.length ds /\
  Forall (fun d =>
            dict_lookup "_source_pages" (without_source_pages d) = None /\
            forall k, k <> "_source_pages" ->
                      dict_lookup k (without_source_pages d) = dict_lookup k d)
    ds.
Proof.
  intros reply H. split; [|split].
  - erewrite consolidate_batch_run by reflexivity. cbn [fst].
    fold reply. unfold batch_outcome.
    rewrite pop_source_pages_records.
    destruct H as [[e ->]|[[v [-> Hv]]|[v [e [-> Hv]]]]]; [reflexivity| |].
    + unfold accepted. rewrite Hv. reflexivity.
    + unfold accepted. rewrite Hv. rewrite andb_false_r. reflexivity.
  - apply length_map.
  - apply Forall_forall. intros d _. split.
    + apply dict_lookup_remove_same.
    + intros k Hk. apply dict_lookup_remove_other. assumption.
Qed.

(** ** The batched consolidation *)

Lemma string_length_append (s1 s2 : string) :
  String.length (s1 ++ s2) = String.length s1 + String.length s2.
Proof. induction s1 as [|c s1 IH]; simpl; [reflexivity|]. rewrite IH. reflexivity. Qed.

Lemma str_len_append (s1 s2 : string) :
  str_len (s1 ++ s2) = str_len s1 + str_len s2.
Proof.
  induction s1 as [|c s1 IH]; cbn [append str_len]; [reflexivity|].
  rewrite IH. lia.
Qed.

Lemma py_add_len (a b c : pyval) :
  py_add a b = Ok c ->
  exists la lb,
    py_len a = Ok la /\ py_len b = Ok lb /\ py_len c = Ok (la + lb).
Proof.
  destruct a, b; simpl; try discriminate; intros H; injection H as <-;
    do 2 eexists; repeat split; simpl; f_equal.
  - apply str_len_append.
  - apply length_app.
Qed.

Lemma py_slice_batch (creditors : list pyval) (i : nat) :
  py_slice i (i + 100) creditors = firstn 100 (skipn i creditors).
Proof. unfold py_slice. replace (i + 100 - i) with 100 by lia. reflexivity. Qed.

Lemma py_slice_length (creditors : list pyval) (i : nat) :
  List.length (py_slice i (i + 100) creditors)
  = Nat.min 100 (List.length creditors - i).
Proof. rewrite py_slice_batch, length_firstn, length_skipn. reflexivity. Qed.

(** One turn of the loop: a batch call, then, once there is a running
    total, the sum and a second call on it. *)
Lemma consolidate_batches_cons (creditors : list pyval) (document_name : string)
    (i : nat) (rest : list nat) (total : pyval) (w : world) :
  consolidate_batches decode svc creditors document_name (i :: rest) total w
  = let b := PList (py_slice i (i + 100) creditors) in
    let req1 := ConsolidationRequest b (lote_label document_name i) in
    let w1 := mkWorld (calls w ++ [req1]) (progress w) in
    match batch_outcome decode (svc (List.length (calls w)) req1) b with
    | Raise e => (Raise e, w1)
    | Ok bc =>
        if py_truthy total then
          match py_add total bc with
          | Raise e => (Raise e, w1)
          | Ok combined =>
              let req2 := ConsolidationRequest combined document_name in
              let w2 := mkWorld (calls w ++ [req1; req2]) (progress w) in
              match batch_outcome decode
                      (svc (S (List.length (calls w))) req2) combined with
              | Raise e => (Raise e, w2)
              | Ok total' =>
                  consolidate_batches decode svc creditors document_name
                    rest total' w2
              end
          end
        else
          consolidate_batches decode svc creditors document_name rest bc w1
    end.
Proof.
  cbn [consolidate_batches]. cbv zeta. unfold bind at 1.
  erewrite consolidate_batch_run by reflexivity.
  destruct (batch_outcome _ _ _) as [bc|e]; [|reflexivity].
  unfold bind at 1.
  destruct (py_truthy total); [|reflexivity].
  unfold bind at 1. unfold lift at 1.
  destruct (py_add total bc) as [combined|e] eqn:Hadd; [|reflexivity].
  destruct (py_add_len _ _ _ Hadd) as [la [lb [_ [_ Hc]]]].
  erewrite consolidate_batch_run by eassumption.
  cbn [calls progress]. rewrite length_app, Nat.add_1_r.
  rewrite <- app_assoc. cbn [app].
  destruct (batch_outcome _ _ combined); reflexivity.
Qed.

Lemma batch_outcome_nonempty (reply : result pyval) (creditors v : pyval) :
  nonempty creditors ->
  batch_outcome decode reply creditors = Ok v ->
  nonempty v.
Proof.
  intros Hc Hv.
  destruct (batch_outcome_cases reply creditors) as [[v' [Hv' [_ Ha]]]|Hpop].
  - rewrite Hv in Hv'. injection Hv' as <-. apply accepted_len. assumption.
  - rewrite Hpop in Hv. apply pop_source_pages_len in Hv.
    destruct Hc as [m Hm]. exists m. congruence.
Qed.

Lemma nonempty_truthy (v : pyval) : nonempty v -> py_truthy v = true.
Proof.
  intros [m Hm]. destruct v; try discriminate; simpl in *; injection Hm as Hm.
  - destruct s; [discriminate|reflexivity].
  - destruct l; [discriminate|reflexivity].
  - destruct d; [discriminate|reflexivity].
Qed.

(** Whatever the service does, a loop that ends normally ends with a
    non-empty total, if it started with one or had a batch to visit. *)
Lemma consolidate_batches_nonempty (creditors : list pyval)
    (document_name : string) (indices : list nat) :
  Forall (fun i => i < List.length creditors) indices ->
  forall (total : pyval) (w : world) (v : pyval) (w' : world),
    (indices <> [] \/ nonempty total) ->
    consolidate_batches decode svc creditors document_name indices total w
    = (Ok v, w') ->
    nonempty v.
Proof.
  induction 1 as [|i rest Hi _ IH]; intros total w v w' Hstart Hrun.
  - cbn in Hrun. injection Hrun as <- _.
    destruct Hstart as [Hne|Hne]; [contradiction|assumption].
  - rewrite consolidate_batches_cons in Hrun. cbv zeta in Hrun.
    assert (Hb : nonempty (PList (py_slice i (i + 100) creditors))).
    { exists (Nat.pred (Nat.min 100 (List.length creditors - i))).
      cbn [py_len]. rewrite py_slice_length. f_equal. lia. }
    destruct (batch_outcome _ _ _) as [bc|e] eqn:Hbc; [|discriminate].
    pose proof (batch_outcome_nonempty _ _ _ Hb Hbc) as Hbcne.
    destruct (py_truthy total).
    + destruct (py_add total bc) as [combined|e] eqn:Hadd; [|discriminate].
      destruct (batch_outcome _ _ combined) as [total'|e] eqn:Ht;
        [|discriminate].
      eapply IH; [right|eassumption].
      apply (batch_outcome_nonempty _ _ _) with (2 := Ht).
      destruct (py_add_len _ _ _ Hadd) as [la [lb [_ [Hlb Hc]]]].
      destruct Hbcne as [m Hm]. rewrite Hm in Hlb. injection Hlb as <-.
      exists (la + m). rewrite Hc. f_equal. lia.
    + eapply IH; [right|]; eassumption.
Qed.

Lemma range_from_lt (fuel start stop step : nat) :
  Forall (fun i => i < stop) (range_from fuel start stop step).
Proof.
  revert start. induction fuel as [|fuel IH]; intros start; simpl.
  - constructor.
  - destruct (Nat.ltb_spec start stop); constructor; [assumption|apply IH].
Qed.

Lemma consolidate_handler (body : M pyval)
    (ds : list (list (string * pyval))) (w : world) :
  fst (try_except body
         (fun _ => lift (pop_source_pages (PList (records ds)))) w)
  = match fst (body w) with
    | Ok v => Ok v
    | Raise _ => Ok (PList (records (map without_source_pages ds)))
    end.
Proof.
  unfold try_except, lift. destruct (body w) as [[v|e] w']; [reflexivity|].
  rewrite pop_source_pages_records. reflexivity.
Qed.

Lemma at_most_le (b b' : nat) (v : pyval) :
  b <= b' -> at_most b v -> at_most b' v.
Proof. intros Hle [m [Hm Hb]]. exists m. split; [assumption|lia]. Qed.

Lemma batch_outcome_at_most (n k : nat) (creditors v : pyval)
    (document_name : string) :
  consolidation_replies_bounded decode svc ->
  py_len creditors = Ok k ->
  batch_outcome decode
    (svc n (ConsolidationRequest creditors document_name)) creditors = Ok v ->
  at_most k v.
Proof.
  intros Hb Hk Hv.
  destruct (batch_outcome_cases
              (svc n (ConsolidationRequest creditors document_name)) creditors)
    as [[v' [Hv' [Hp Ha]]]|Hpop].
  - rewrite Hv in Hv'. injection Hv' as <-.
    destruct (accepted_len _ Ha) as [m Hm].
    exists (S m). split; [assumption|].
    eapply Hb; eassumption.
  - rewrite Hpop in Hv. apply pop_source_pages_len in Hv.
    exists k. split; [congruence|lia].
Qed.

(** The log line after the loop changes nothing for a value that has a
    length. *)
Lemma logged_len_run (body : M pyval) (w : world) :
  bind body (fun r => bind (lift (py_len r)) (fun _ => ret r)) w
  = match body w with
    | (Ok v, w') =>
        match py_len v with
        | Ok _ => (Ok v, w')
        | Raise e => (Raise e, w')
        end
    | (Raise e, w') => (Raise e, w')
    end.
Proof.
  unfold bind, lift, ret. destruct (body w) as [[v|e] w']; [|reflexivity].
  destruct (py_len v); reflexivity.
Qed.

(** With a service that never returns more than it was sent, the running
    total never exceeds the number of records visited so far. *)
Lemma consolidate_batches_at_most (creditors : list pyval)
    (document_name : string) :
  consolidation_replies_bounded decode svc ->
  forall (fuel i t : nat) (total : pyval) (w : world) (v : pyval) (w' : world),
    at_most t total ->
    consolidate_batches decode svc creditors document_name
      (range_from fuel i (List.length creditors) 100) total w = (Ok v, w') ->
    at_most (t + (List.length creditors - i)) v.
Proof.
  intros Hb. induction fuel as [|fuel IH]; intros i t total w v w' Ht Hrun.
  - cbn in Hrun. injection Hrun as <- _. eapply at_most_le; [|eassumption]. lia.
  - cbn [range_from] in Hrun.
    destruct (Nat.ltb_spec i (List.length creditors)) as [Hi|Hi].
    + rewrite consolidate_batches_cons in Hrun. cbv zeta in Hrun.
      destruct (batch_outcome _ _ _) as [bc|e] eqn:Hbc; [|discriminate].
      apply batch_outcome_at_most with (k := List.length (py_slice i (i + 100) creditors))
        in Hbc; [|assumption|reflexivity].
      rewrite py_slice_length in Hbc.
      destruct (py_truthy total).
      * destruct (py_add total bc) as [combined|e] eqn:Hadd; [|discriminate].
        destruct (batch_outcome _ _ combined) as [total'|e] eqn:Ht';
          [|discriminate].
        destruct (py_add_len _ _ _ Hadd) as [la [lb [Hla [Hlb Hc]]]].
        apply batch_outcome_at_most with (k := la + lb) in Ht';
          [|assumption|assumption].
        apply IH with (t := t + Nat.min 100 (List.length creditors - i))
          in Hrun.
        -- eapply at_most_le; [|exact Hrun]. lia.
        -- destruct Ht as [m [Hm Hmt]]. destruct Hbc as [m' [Hm' Hmb]].
           eapply at_most_le; [|exact Ht']. 
           rewrite Hm in Hla. injection Hla as <-.
           rewrite Hm' in Hlb. injection Hlb as <-. lia.
      * apply IH with (t := t + Nat.min 100 (List.length creditors - i))
          in Hrun.
        -- eapply at_most_le; [|exact Hrun]. lia.
        -- eapply at_most_le; [|exact Hbc]. lia.
    + cbn in Hrun. injection Hrun as <- _.
      eapply at_most_le; [|eassumption]. lia.
Qed.

(** C7, as the code has it: the result is bounded by the input only when
    the service is: if no accepted reply to a consolidation call has more
    items than the list sent with the call, [consolidate] returns at most
    as many items as it was given records. *)
Theorem consolidate_at_most_input (ds : list (list (string * pyval)))
    (document_name : string) (w : world) :
  consolidation_replies_bounded decode svc ->
  exists v,
    fst (_consolidate_creditors_with_ai decode svc (records ds)
           document_name w) = Ok v /\
    at_most (List.length ds) v.
Proof.
  intros Hb. unfold _consolidate_creditors_with_ai.
  rewrite consolidate_handler.
  assert (Hlen : List.length (records ds) = List.length ds)
    by apply length_map.
  assert (Hout :
            at_most (List.length ds)
              (PList (records (map without_source_pages ds)))).
  { exists (List.length ds). split; [|lia].
    cbn [py_len]. unfold records. rewrite !length_map. reflexivity. }
  destruct (List.length (records ds) <=? 150)%nat.
  - erewrite consolidate_batch_run by reflexivity. cbn [fst].
    destruct (batch_outcome _ _ _) as [v|e] eqn:Hv.
    + exists v. split; [reflexivity|]. rewrite <- Hlen.
      exact (batch_outcome_at_most _ _ (PList (records ds)) _ _ Hb eq_refl Hv).
    + eexists. split; [reflexivity|assumption].
  - rewrite logged_len_run.
    destruct (consolidate_batches _ _ _ _ _ _ w) as [[v|e] w'] eqn:Hrun;
      cbn [fst].
    + unfold py_range in Hrun.
      apply consolidate_batches_at_most with (t := 0) in Hrun;
        [|assumption|exists 0; split; [reflexivity|lia]].
      assert (Hv : at_most (List.length ds) v).
      { rewrite <- Hlen. eapply at_most_le; [|exact Hrun]. lia. }
      destruct Hv as [m [Hm Hle]]. rewrite Hm. cbn [fst].
      exists v. split; [reflexivity|]. exists m. split; assumption.
    + eexists. split; [reflexivity|assumption].
Qed.

(** *** The calls of the batched consolidation *)

Lemma range_from_batches (n fuel k : nat) :
  (n + 99) / 100 <= fuel + k ->
  range_from fuel (100 * k) n 100
  = map (fun j => 100 * j) (seq k ((n + 99) / 100 - k)).
Proof.
  pose proof (Nat.div_mod_eq (n + 99) 100) as Hd.
  pose proof (Nat.mod_upper_bound (n + 99) 100) as Hm.
  revert k. induction fuel as [|fuel IH]; intros k Hk.
  - replace ((n + 99) / 100 - k) with 0 by lia. reflexivity.
  - cbn [range_from]. destruct (Nat.ltb_spec (100 * k) n) as [Hlt|Hge].
    + replace ((n + 99) / 100 - k) with (S ((n + 99) / 100 - S k)) by lia.
      cbn [seq map]. f_equal.
      replace (100 * k + 100) with (100 * S k) by lia.
      apply IH. lia.
    + replace ((n + 99) / 100 - k) with 0 by lia. reflexivity.
Qed.

Lemma py_range_batches (n : nat) :
  py_range 0 n 100 = map (fun j => 100 * j) (seq 0 ((n + 99) / 100)).
Proof.
  unfold py_range. change 0 with (100 * 0) at 1.
  rewrite range_from_batches.
  - rewrite Nat.sub_0_r. reflexivity.
  - pose proof (Nat.div_mod_eq (n + 99) 100).
    pose proof (Nat.mod_upper_bound (n + 99) 100). lia.
Qed.

Lemma loop_call_is_batch_call (creditors : list pyval)
    (document_name : string) (k : nat) :
  ConsolidationRequest
    (PList (py_slice (100 * k) (100 * k + 100) creditors))
    (lote_label document_name (100 * k))
  = batch_call creditors document_name k.
Proof.
  unfold batch_call, batch, lote_label. rewrite py_slice_batch.
  rewrite (Nat.mul_comm 100 k), Nat.div_mul by discriminate. reflexivity.
Qed.

Lemma records_app (a b : list (list (string * pyval))) :
  records (a ++ b) = records a ++ records b.
Proof. apply map_app. Qed.

Lemma batch_of_records (cds : list (list (string * pyval))) (k : nat) :
  batch (records cds) k = records (firstn 100 (skipn (100 * k) cds)).
Proof. unfold batch, records. rewrite skipn_map, firstn_map. reflexivity. Qed.

(** With typed replies, a batch call on records returns records, and
    some if it was given some. *)
Lemma batch_outcome_typed (n : nat) (ds : list (list (string * pyval)))
    (document_name : string) :
  consolidation_replies_typed decode svc ->
  exists out,
    batch_outcome decode
      (svc n (ConsolidationRequest (PList (records ds)) document_name))
      (PList (records ds))
    = Ok (PList (records out)) /\
    (ds <> [] -> out <> []).
Proof.
  intros Ht.
  destruct (batch_outcome_cases
              (svc n (ConsolidationRequest (PList (records ds)) document_name))
              (PList (records ds)))
    as [[v [Hv [Hp Ha]]]|Hpop].
  - specialize (Ht _ _ _ _ Hp). rewrite Hv.
    unfold accepted in Ha. apply andb_prop in Ha as [Htr Hl].
    destruct v; try discriminate; simpl in Ht, Htr.
    + rewrite Ht in Htr. discriminate.
    + destruct (records_of_forallb _ Ht) as [out ->].
      exists out. split; [reflexivity|].
      intros _ ->. discriminate.
    + rewrite Ht in Htr. discriminate.
  - rewrite Hpop, pop_source_pages_records.
    exists (map without_source_pages ds). split; [reflexivity|].
    intros Hne Hmap. apply map_eq_nil in Hmap. contradiction.
Qed.

Lemma fold_calls_length (creditors : list pyval) (document_name : string)
    (ks : list nat) (n : nat) (total : list pyval) :
  List.length (fold_calls decode svc creditors document_name ks n total)
  = 2 * List.length ks.
Proof.
  revert n total. induction ks as [|k ks IH]; intros n total; simpl.
  - reflexivity.
  - rewrite IH. lia.
Qed.

(** With typed replies the loop never leaves by an exception: for every
    batch after the first it issues the batch call and then the fold call
    on the running total followed by the batch's output. *)
Lemma consolidate_batches_calls (cds : list (list (string * pyval)))
    (document_name : string) :
  consolidation_replies_typed decode svc ->
  forall (ks : list nat) (total : list (list (string * pyval))) (w : world),
    Forall (fun k => 100 * k < List.length cds) ks ->
    total <> [] ->
    exists final,
      final <> [] /\
      consolidate_batches decode svc (records cds) document_name
        (map (fun k => 100 * k) ks) (PList (records total)) w
      = (Ok (PList (records final)),
         mkWorld
           (calls w ++ fold_calls decode svc (records cds) document_name ks
                         (List.length (calls w)) (records total))
           (progress w)).
Proof.
  intros Ht. induction ks as [|k ks IH]; intros total w Hks Htot.
  - exists total. split; [assumption|].
    cbn. rewrite app_nil_r. destruct w; reflexivity.
  - inversion Hks as [|k' ks' Hk Hks']; subst.
    cbn [map]. rewrite consolidate_batches_cons. cbv zeta.
    rewrite loop_call_is_batch_call.
    rewrite py_slice_batch. fold (batch (records cds) k).
    unfold batch_call at 1. rewrite batch_of_records.
    destruct (batch_outcome_typed (List.length (calls w))
                (firstn 100 (skipn (100 * k) cds))
                (document_name ++ " - Lote " ++ str_of_nat (k + 1)) Ht)
      as [out1 [Hout1 Hne1]].
    rewrite Hout1.
    replace (py_truthy (PList (records total))) with true
      by (destruct total; [contradiction|reflexivity]).
    cbn [py_add]. rewrite <- !records_app.
    destruct (batch_outcome_typed (S (List.length (calls w)))
                (total ++ out1) document_name Ht)
      as [out2 [Hout2 Hne2]].
    rewrite Hout2.
    assert (Hne : out2 <> []).
    { apply Hne2. destruct total; [contradiction|discriminate]. }
    destruct (IH out2
                (mkWorld
                   (calls w ++
                    [batch_call (records cds) document_name k;
                     ConsolidationRequest (PList (records (total ++ out1)))
                       document_name])
                   (progress w)) Hks' Hne)
      as [final [Hfinal Hrun]].
    exists final. split; [assumption|].
    rewrite Hrun. cbn [calls progress]. f_equal. f_equal.
    rewrite <- app_assoc. f_equal.
    rewrite length_app. cbn [List.length fold_calls app].
    assert (Ho1 : outcome_of decode svc (List.length (calls w))
                    (batch_call (records cds) document_name k)
                  = records out1).
    { unfold outcome_of, batch_call.
      rewrite batch_of_records, Hout1. reflexivity. }
    rewrite Ho1, <- !records_app.
    assert (Ho2 : outcome_of decode svc (List.length (calls w) + 1)
                    (ConsolidationRequest (PList (records (total ++ out1)))
                       document_name)
                  = records out2).
    { unfold outcome_of. rewrite Nat.add_1_r, Hout2. reflexivity. }
    rewrite Ho2. reflexivity.
Qed.

Lemma try_except_lift_calls (body : M pyval) (r : result pyval) (w : world) :
  calls (snd (try_except body (fun _ => lift r) w)) = calls (snd (body w)).
Proof.
  unfold try_except, lift. destruct (body w) as [[v|e] w']; reflexivity.
Qed.

(** Above 150 records and with typed replies, the whole loop returns a
    non-empty list of records and issues the batched calls. *)
Lemma consolidate_batches_all (cds : list (list (string * pyval)))
    (document_name : string) (w : world) :
  150 < List.length cds ->
  consolidation_replies_typed decode svc ->
  exists final,
    final <> [] /\
    consolidate_batches decode svc (records cds) document_name
      (py_range 0 (List.length cds) 100) (PList []) w
    = (Ok (PList (records final)),
       mkWorld
         (calls w ++ batched_calls decode svc (records cds) document_name
                       (List.length (calls w)))
         (progress w)).
Proof.
  intros Hgt Ht.
  pose proof (Nat.div_mod_eq (List.length cds + 99) 100) as Hd.
  pose proof (Nat.mod_upper_bound (List.length cds + 99) 100) as Hm.
  assert (Hlen : List.length (records cds) = List.length cds)
    by apply length_map.
  unfold batched_calls. rewrite Hlen.
  set (count := (List.length cds + 99) / 100) in *.
  assert (Hrange : py_range 0 (List.length cds) 100
                   = 100 * 0 :: map (fun j => 100 * j) (seq 1 (count - 1))).
  { rewrite py_range_batches. fold count.
    replace count with (S (count - 1)) at 1 by lia. reflexivity. }
  assert (Ho : exists out1,
             out1 <> [] /\
             batch_outcome decode
               (svc (List.length (calls w))
                  (batch_call (records cds) document_name 0))
               (PList (batch (records cds) 0))
             = Ok (PList (records out1))).
  { unfold batch_call. rewrite batch_of_records.
    destruct (batch_outcome_typed (List.length (calls w))
                (firstn 100 (skipn (100 * 0) cds))
                (document_name ++ " - Lote " ++ str_of_nat (0 + 1)) Ht)
      as [out1 [Hout1 Hne1]].
    exists out1. split; [|assumption].
    apply Hne1. cbn [Nat.mul skipn].
    destruct cds as [|d cds']; [cbn in Hgt; lia|]. discriminate. }
  destruct Ho as [out1 [Hne1 Hout1]].
  destruct (consolidate_batches_calls cds document_name Ht
              (seq 1 (count - 1)) out1
              (mkWorld
                 (calls w ++ [batch_call (records cds) document_name 0])
                 (progress w)))
    as [final [Hfinal Hrun]].
  - apply Forall_forall. intros k Hk. apply in_seq in Hk. lia.
  - assumption.
  - exists final. split; [assumption|].
    rewrite Hrange, consolidate_batches_cons. cbv zeta.
    rewrite (loop_call_is_batch_call (records cds) document_name 0).
    rewrite py_slice_batch. fold (batch (records cds) 0).
    cbn [py_truthy List.length Nat.eqb negb].
    rewrite Hout1, Hrun. cbn [calls progress]. f_equal. f_equal.
    rewrite <- app_assoc. f_equal. cbn [app]. f_equal.
    rewrite length_app, Nat.add_1_r. cbn [List.length].
    rewrite Nat.add_1_r.
    f_equal. unfold outcome_of. unfold batch_call at 1.
    fold (batch_call (records cds) document_name 0).
    rewrite Hout1. reflexivity.
Qed.

(** Whatever the service does, a loop over the indices issues
    consolidation calls only, and at most two per index: one only at an
    index met without a running total. *)
Lemma consolidate_batches_issued (creditors : list pyval)
    (document_name : string) (indices : list nat) :
  forall (total : pyval) (w : world),
    exists issued,
      calls (snd (consolidate_batches decode svc creditors document_name
                    indices total w))
      = calls w ++ issued /\
      forallb is_consolidation issued = true /\
      List.length issued
      <= 2 * List.length indices - (if py_truthy total then 0 else 1) /\
      (indices <> [] -> 1 <= List.length issued).
Proof.
  induction indices as [|i rest IH]; intros total w.
  - exists []. cbn. rewrite app_nil_r. repeat split; try lia.
    intros H. contradiction.
  - rewrite consolidate_batches_cons. cbv zeta.
    destruct (batch_outcome decode _ _) as [bc|e].
    2:{ eexists. cbn [snd calls]. split; [reflexivity|].
        split; [reflexivity|]. cbn [List.length].
        split; [destruct (py_truthy total); lia|lia]. }
    destruct (py_truthy total).
    + destruct (py_add total bc) as [combined|e].
      2:{ eexists. cbn [snd calls]. split; [reflexivity|].
          split; [reflexivity|]. cbn [List.length]. split; lia. }
      destruct (batch_outcome decode _ combined) as [total'|e].
      2:{ eexists. cbn [snd calls]. split; [reflexivity|].
          split; [reflexivity|]. cbn [List.length]. split; lia. }
      match goal with
      | |- context [consolidate_batches _ _ _ _ rest ?t ?w1] =>
          destruct (IH t w1) as [l [Hc [Hl [Hn _]]]]
      end.
      eexists. rewrite Hc. cbn [calls]. rewrite <- app_assoc.
      split; [reflexivity|]. split; [|split].
      * cbn [app forallb is_consolidation]. assumption.
      * cbn [app List.length]. lia.
      * intros _. cbn [app List.length]. lia.
    + match goal with
      | |- context [consolidate_batches _ _ _ _ rest ?t ?w1] =>
          destruct (IH t w1) as [l [Hc [Hl [Hn _]]]]
      end.
      eexists. rewrite Hc. cbn [calls]. rewrite <- app_assoc.
      split; [reflexivity|]. split; [|split].
      * cbn [app forallb is_consolidation]. assumption.
      * cbn [app List.length]. lia.
      * intros _. cbn [app List.length]. lia.
Qed.

(** Whatever the service does, a loop that had a batch to visit and that
    returns, returns what its last call came to. *)
Lemma consolidate_batches_last (creditors : list pyval)
    (document_name : string) (indices : list nat) :
  forall (total : pyval) (w : world) (v : pyval) (w' : world),
    indices <> [] ->
    consolidate_batches decode svc creditors document_name indices total w
    = (Ok v, w') ->
    exists before sent name,
      calls w' = before ++ [ConsolidationRequest sent name] /\
      List.length (calls w) <= List.length before /\
      batch_outcome decode
        (svc (List.length before) (ConsolidationRequest sent name)) sent
      = Ok v.
Proof.
  induction indices as [|i rest IH]; intros total w v w' Hne Hrun;
    [contradiction|].
  rewrite consolidate_batches_cons in Hrun. cbv zeta in Hrun.
  destruct (batch_outcome decode _ _) as [bc|e] eqn:Hbc; [|discriminate].
  destruct (py_truthy total).
  - destruct (py_add total bc) as [combined|e]; [|discriminate].
    destruct (batch_outcome decode _ combined) as [total'|e] eqn:Ht;
      [|discriminate].
    destruct rest as [|j rest].
    + cbn in Hrun. injection Hrun as <- <-.
      exists (calls w ++ [ConsolidationRequest
                            (PList (py_slice i (i + 100) creditors))
                            (lote_label document_name i)]),
        combined, document_name.
      cbn [calls]. rewrite <- app_assoc. cbn [app].
      split; [reflexivity|].
      rewrite length_app. cbn [List.length]. rewrite Nat.add_1_r.
      split; [lia|exact Ht].
    + destruct (IH _ _ _ _ ltac:(discriminate) Hrun)
        as [before [sent [name [Hc [Hl Ho]]]]].
      exists before, sent, name. split; [exact Hc|]. split; [|exact Ho].
      cbn [calls] in Hl. rewrite length_app in Hl. lia.
  - destruct rest as [|j rest].
    + cbn in Hrun. injection Hrun as <- <-.
      exists (calls w), (PList (py_slice i (i + 100) creditors)),
        (lote_label document_name i).
      cbn [calls]. split; [reflexivity|]. split; [lia|exact Hbc].
    + destruct (IH _ _ _ _ ltac:(discriminate) Hrun)
        as [before [sent [name [Hc [Hl Ho]]]]].
      exists before, sent, name. split; [exact Hc|]. split; [|exact Ho].
      cbn [calls] in Hl. rewrite length_app in Hl. lia.
Qed.

Lemma py_range_batches_length (n : nat) :
  List.length (py_range 0 n 100) = (n + 99) / 100.
Proof. rewrite py_range_batches, length_map, length_seq. reflexivity. Qed.

(** C3, as the code has it: up to 150 records, [consolidate] issues
    exactly one call, on the whole list, whatever the service does.  Above
    150 records, and provided every consolidation reply that parses is a
    list of records or is rejected (so that no exception ends the loop
    early), it issues one call per run of 100 records, in order, and after
    each run but the first one fold call on the running total followed by
    that run's output: [ceil(N/100) + (ceil(N/100) - 1)] calls.  Without
    that proviso the calls issued are consolidation calls, at least one
    and at most that many of them. *)
Theorem consolidate_calls (cds : list (list (string * pyval)))
    (document_name : string) (w : world) :
  let after :=
    calls (snd (_consolidate_creditors_with_ai decode svc (records cds)
                  document_name w)) in
  let count := (List.length cds + 99) / 100 in
  ((150 < List.length cds -> consolidation_replies_typed decode svc) ->
   let issued :=
     if (List.length cds <=? 150)%nat
     then [ConsolidationRequest (PList (records cds)) document_name]
     else batched_calls decode svc (records cds) document_name
            (List.length (calls w)) in
   after = calls w ++ issued /\
   List.length issued
   = if (List.length cds <=? 150)%nat then 1 else count + (count - 1)) /\
  (exists issued,
      after = calls w ++ issued /\
      forallb is_consolidation issued = true /\
      1 <= List.length issued /\
      List.length issued
      <= if (List.length cds <=? 150)%nat then 1 else count + (count - 1)).
Proof.
  intros after count. subst after count.
  unfold _consolidate_creditors_with_ai.
  rewrite try_except_lift_calls.
  assert (Hlen : List.length (records cds) = List.length cds)
    by apply length_map.
  rewrite Hlen.
  destruct (Nat.leb_spec (List.length cds) 150) as [Hle|Hgt].
  - erewrite consolidate_batch_run by reflexivity. cbn [snd calls].
    split.
    + intros _. split; reflexivity.
    + eexists. split; [reflexivity|]. cbn. repeat split; lia.
  - rewrite logged_len_run. split.
    + intros Ht. split.
      * destruct (consolidate_batches_all cds document_name w Hgt (Ht Hgt))
          as [final [_ ->]].
        reflexivity.
      * pose proof (Nat.div_mod_eq (List.length cds + 99) 100) as Hd.
        pose proof (Nat.mod_upper_bound (List.length cds + 99) 100) as Hm.
        unfold batched_calls. rewrite Hlen.
        cbn [List.length]. rewrite fold_calls_length, length_seq. lia.
    + destruct (consolidate_batches_issued (records cds) document_name
                  (py_range 0 (List.length cds) 100) (PList []) w)
        as [issued [Hc [Hk [Hn H1]]]].
      rewrite py_range_batches_length in Hn.
      change (py_truthy (PList [])) with false in Hn. cbv iota in Hn.
      exists issued. split; [|split; [exact Hk|split]].
      * destruct (consolidate_batches _ _ _ _ _ _ w) as [[v|e] w'];
          [|exact Hc].
        destruct (py_len v); exact Hc.
      * apply H1. intros H.
        pose proof (py_range_batches_length (List.length cds)) as Hr.
        rewrite H in Hr. cbn [List.length] in Hr.
        pose proof (Nat.div_mod_eq (List.length cds + 99) 100) as Hd.
        pose proof (Nat.mod_upper_bound (List.length cds + 99) 100) as Hm.
        lia.
      * lia.
Qed.

(** C10, as the code has it: given a non-empty list of records, and
    whatever the service does at each call, [consolidate] returns (it never
    raises) a value whose length is not zero.  That value is the records it
    was given, without their pages; or what was parsed from the reply to
    the last call issued, when that was accepted; or the list sent in that
    last call, without its items' pages.  Up to 150 records the one call
    sends the records given.  The value is a non-empty list of records when
    every consolidation reply that parses is a list of records or is
    rejected. *)
Theorem consolidate_never_empty (ds : list (list (string * pyval)))
    (document_name : string) (w : world) :
  ds <> [] ->
  let run :=
    _consolidate_creditors_with_ai decode svc (records ds) document_name w in
  let given := PList (records (map without_source_pages ds)) in
  exists v,
    fst run = Ok v /\
    nonempty v /\
    (v = given \/
     exists before sent name,
       calls (snd run) = before ++ [ConsolidationRequest sent name] /\
       List.length (calls w) <= List.length before /\
       ((parsed_reply decode
           (svc (List.length before) (ConsolidationRequest sent name)) = Ok v /\
         accepted v = true) \/
        pop_source_pages sent = Ok v)) /\
    (List.length ds <= 150 ->
     v = given \/
     (parsed_reply decode
        (svc (List.length (calls w))
           (ConsolidationRequest (PList (records ds)) document_name)) = Ok v /\
      accepted v = true)) /\
    (consolidation_replies_typed decode svc ->
     exists out, v = PList (records out) /\ out <> []).
Proof.
  intros Hne run given. subst run given.
  unfold _consolidate_creditors_with_ai.
  rewrite consolidate_handler, try_except_lift_calls.
  assert (Hin : nonempty (PList (records ds))).
  { destruct ds; [contradiction|]. eexists. reflexivity. }
  assert (Hout : nonempty (PList (records (map without_source_pages ds)))).
  { destruct ds; [contradiction|]. eexists. reflexivity. }
  assert (Hlen : List.length (records ds) = List.length ds)
    by apply length_map.
  rewrite Hlen.
  destruct (Nat.leb_spec (List.length ds) 150) as [Hle|Hgt].
  - erewrite consolidate_batch_run by reflexivity. cbn [fst snd calls].
    destruct (batch_outcome _ _ _) as [v|e] eqn:Hv.
    + exists v. split; [reflexivity|split; [|split; [|split]]].
      * eapply batch_outcome_nonempty; [exact Hin|exact Hv].
      * destruct (batch_outcome_cases
                    (svc (List.length (calls w))
                       (ConsolidationRequest (PList (records ds))
                          document_name))
                    (PList (records ds))) as [[v' [Hv' [Hp Ha]]]|Hpop].
        -- rewrite Hv in Hv'. injection Hv' as <-.
           right. exists (calls w), (PList (records ds)), document_name.
           split; [reflexivity|]. split; [lia|]. left. split; assumption.
        -- left. rewrite Hpop, pop_source_pages_records in Hv.
           injection Hv as <-. reflexivity.
      * intros _.
        destruct (batch_outcome_cases
                    (svc (List.length (calls w))
                       (ConsolidationRequest (PList (records ds))
                          document_name))
                    (PList (records ds))) as [[v' [Hv' [Hp Ha]]]|Hpop].
        -- rewrite Hv in Hv'. injection Hv' as <-.
           right. split; assumption.
        -- left. rewrite Hpop, pop_source_pages_records in Hv.
           injection Hv as <-. reflexivity.
      * intros Ht.
        destruct (batch_outcome_typed (List.length (calls w)) ds
                    document_name Ht) as [out [Hout' Hne']].
        rewrite Hout' in Hv. injection Hv as <-.
        exists out. split; [reflexivity|apply Hne'; assumption].
    + eexists. split; [reflexivity|split; [assumption|]].
      split; [left; reflexivity|]. split; [left; reflexivity|].
      intros _. exists (map without_source_pages ds).
      split; [reflexivity|].
      intros Hmap. apply map_eq_nil in Hmap. contradiction.
  - rewrite logged_len_run.
    destruct (consolidate_batches _ _ _ _ _ _ w) as [[v|e] w'] eqn:Hrun;
      cbn [fst snd].
    + assert (Hv : nonempty v).
      { rewrite <- Hlen in Hrun.
        eapply consolidate_batches_nonempty; [apply range_from_lt| |exact Hrun].
        left. unfold py_range.
        destruct ds as [|d ds]; [contradiction|]. cbn. discriminate. }
      assert (Hidx : py_range 0 (List.length ds) 100 <> []).
      { unfold py_range. destruct ds as [|d ds]; [contradiction|].
        cbn. discriminate. }
      destruct (consolidate_batches_last _ _ _ _ _ _ _ Hidx Hrun)
        as [before [sent [name [Hc [Hl Ho]]]]].
      destruct Hv as [m Hm]. rewrite Hm. cbn [fst snd].
      exists v. split; [reflexivity|split; [|split; [|split]]].
      * exists m. assumption.
      * right. exists before, sent, name.
        split; [exact Hc|]. split; [exact Hl|].
        destruct (batch_outcome_cases
                    (svc (List.length before)
                       (ConsolidationRequest sent name)) sent)
          as [[v' [Hv' [Hp Ha]]]|Hpop].
        -- rewrite Ho in Hv'. injection Hv' as <-. left. split; assumption.
        -- right. rewrite <- Hpop. exact Ho.
      * intros Hle. lia.
      * intros Ht.
        destruct (consolidate_batches_all ds document_name w Hgt Ht)
          as [final [Hfinal Hall]].
        rewrite Hall in Hrun. injection Hrun as <- _.
        exists final. split; [reflexivity|assumption].
    + eexists. split; [reflexivity|split; [assumption|]].
      split; [left; reflexivity|]. split; [left; reflexivity|].
      intros _. exists (map without_source_pages ds).
      split; [reflexivity|].
      intros Hmap. apply map_eq_nil in Hmap. contradiction.
Qed.

(** ** The chunk loop *)

(** One turn of the loop: the notification, one service call, and the
    tagged records of the reply added to the accumulated list. *)
Lemma extract_chunks_cons (document_name : string) (progress_callback : bool)
    (total i : nat) (chunk : Chunk) (rest : list Chunk)
    (all_creditors : list pyval) (w : world) :
  extract_chunks decode svc document_name progress_callback total i
    (chunk :: rest) all_creditors w
  = let req := ExtractionRequest (str_head 8000 (text chunk))
                 (chunk_label document_name chunk) in
    let w1 := mkWorld (calls w ++ [req])
                (if progress_callback
                 then progress w ++ [(i, total, start_page chunk, end_page chunk)]
                 else progress w) in
    match chunk_items decode (svc (List.length (calls w)) req)
            (source_pages chunk) with
    | Ok items =>
        extract_chunks decode svc document_name progress_callback total
          (S i) rest (all_creditors ++ items) w1
    | Raise e => (Raise e, w1)
    end.
Proof.
  cbn [extract_chunks]. cbv zeta.
  unfold chunk_items, bind, fal_client_run, lift, ret, notify_progress.
  destruct progress_callback; cbn [calls progress];
    (destruct (svc _ _) as [response|e]; cbn [rbind]; [|reflexivity];
     destruct (response_content response) as [content|e]; cbn [rbind];
       [|reflexivity];
     destruct (_parse_ai_response decode content) as [v|e]; cbn [rbind];
       [|reflexivity];
     destruct (set_source_pages v (source_pages chunk)) as [v'|e];
       cbn [rbind]; [|reflexivity];
     destruct (py_iter v') as [items|e]; cbn [rbind]; [|reflexivity];
     destruct (py_len v') as [n|e]; reflexivity).
Qed.

Lemma chunk_items_tagged (reply : result pyval) (pages : string)
    (items : list pyval) :
  chunk_items decode reply pages = Ok items ->
  Forall (has_source_pages pages) items.
Proof.
  unfold chunk_items. intros H.
  destruct reply as [response|e]; cbn [rbind] in H; [|discriminate].
  destruct (response_content response) as [content|e]; cbn [rbind] in H;
    [|discriminate].
  destruct (_parse_ai_response decode content) as [v|e]; cbn [rbind] in H;
    [|discriminate].
  destruct (set_source_pages v pages) as [v'|e] eqn:Hs; cbn [rbind] in H;
    [|discriminate].
  destruct (py_iter v') as [items'|e] eqn:Hi; cbn [rbind] in H; [|discriminate].
  destruct (py_len v'); cbn [rbind] in H; [|discriminate].
  injection H as <-. eapply set_source_pages_items; eassumption.
Qed.

Lemma extract_chunks_tagged (document_name : string)
    (progress_callback : bool) (total : nat) (chunks : list Chunk) :
  forall (i : nat) (all_creditors : list pyval) (w : world)
         (all' : list pyval) (w' : world),
    extract_chunks decode svc document_name progress_callback total i
      chunks all_creditors w = (Ok all', w') ->
    exists groups,
      all' = all_creditors ++ List.concat groups /\
      Forall2 (fun chunk group =>
                 Forall (has_source_pages (source_pages chunk)) group)
        chunks groups.
Proof.
  induction chunks as [|chunk rest IH]; intros i all_creditors w all' w' H.
  - cbn in H. injection H as <- _. exists [].
    split; [cbn; rewrite app_nil_r; reflexivity|constructor].
  - rewrite extract_chunks_cons in H. cbv zeta in H.
    destruct (chunk_items _ _ _) as [items|e] eqn:Hitems; [|discriminate].
    apply IH in H as [groups [-> Hgroups]].
    exists (items :: groups). split.
    + cbn [List.concat]. rewrite app_assoc. reflexivity.
    + constructor; [|assumption].
      eapply chunk_items_tagged. eassumption.
Qed.


Lemma consolidate_batches_progress (creditors : list pyval)
    (document_name : string) (indices : list nat) :
  forall (total : pyval) (w : world),
    progress (snd (consolidate_batches decode svc creditors document_name
                     indices total w))
    = progress w.
Proof.
  induction indices as [|i rest IH]; intros total w; [reflexivity|].
  rewrite consolidate_batches_cons. cbv zeta.
  destruct (batch_outcome _ _ _) as [bc|e]; [|reflexivity].
  destruct (py_truthy total); [|rewrite IH; reflexivity].
  destruct (py_add total bc) as [combined|e]; [|reflexivity].
  destruct (batch_outcome _ _ combined); [rewrite IH|]; reflexivity.
Qed.

Lemma consolidate_progress (creditors : list pyval) (document_name : string)
    (w : world) :
  progress (snd (_consolidate_creditors_with_ai decode svc creditors
                   document_name w))
  = progress w.
Proof.
  unfold _consolidate_creditors_with_ai, try_except, lift.
  destruct (List.length creditors <=? 150)%nat.
  - pose proof (consolidate_batch_progress (PList creditors) document_name w)
      as H.
    destruct (_consolidate_batch _ _ _ _ w) as [[v|e] w1]; exact H.
  - rewrite logged_len_run.
    pose proof (consolidate_batches_progress creditors document_name
                  (py_range 0 (List.length creditors) 100) (PList []) w) as H.
    destruct (consolidate_batches _ _ _ _ _ _ w) as [[v|e] w1]; [|exact H].
    destruct (py_len v); exact H.
Qed.

Lemma chunk_items_typed (n : nat) (pdf_text label pages : string) :
  extraction_replies_typed decode svc ->
  exists items,
    chunk_items decode (svc n (ExtractionRequest pdf_text label)) pages
    = Ok items.
Proof.
  intros Ht.
  destruct (Ht n pdf_text label) as [response [content [v [Hr [Hc [Hp Hv]]]]]].
  destruct (set_source_pages_taggable v pages Hv)
    as [v' [items [m [Hs [Hi Hl]]]]].
  exists items. unfold chunk_items.
  rewrite Hr. cbn [rbind]. rewrite Hc. cbn [rbind]. rewrite Hp. cbn [rbind].
  rewrite Hs. cbn [rbind]. rewrite Hi. cbn [rbind]. rewrite Hl. reflexivity.
Qed.

Lemma extract_chunks_progress (document_name : string) (total : nat)
    (chunks : list Chunk) :
  extraction_replies_typed decode svc ->
  forall (i : nat) (all_creditors : list pyval) (w : world),
    exists all' w',
      extract_chunks decode svc document_name true total i chunks
        all_creditors w = (Ok all', w') /\
      progress w' = progress w ++ progress_of total i chunks.
Proof.
  intros Ht. induction chunks as [|chunk rest IH]; intros i all_creditors w.
  - exists all_creditors, w. split; [reflexivity|].
    cbn. rewrite app_nil_r. reflexivity.
  - rewrite extract_chunks_cons. cbv zeta.
    destruct (chunk_items_typed (List.length (calls w))
                (str_head 8000 (text chunk))
                (chunk_label document_name chunk) (source_pages chunk) Ht)
      as [items ->].
    destruct (IH (S i) (all_creditors ++ items)
                (mkWorld
                   (calls w ++
                    [ExtractionRequest (str_head 8000 (text chunk))
                       (chunk_label document_name chunk)])
                   (progress w ++
                    [(i, total, start_page chunk, end_page chunk)])))
      as [all' [w' [Hrun Hp]]].
    exists all', w'. split; [assumption|].
    rewrite Hp. cbn [progress progress_of]. rewrite <- app_assoc. reflexivity.
Qed.

Lemma progress_of_nth (total : nat) (chunks : list Chunk) :
  forall (j i : nat) (chunk : Chunk),
    nth_error chunks i = Some chunk ->
    nth_error (progress_of total j chunks) i
    = Some (j + i, total, start_page chunk, end_page chunk).
Proof.
  induction chunks as [|c rest IH]; intros j i chunk H.
  - destruct i; discriminate.
  - destruct i as [|i]; cbn in H |- *.
    + injection H as ->. rewrite Nat.add_0_r. reflexivity.
    + rewrite (IH (S j) i chunk H).
      replace (j + S i) with (S j + i) by lia. reflexivity.
Qed.

Lemma progress_of_length (total : nat) (chunks : list Chunk) (j : nat) :
  List.length (progress_of total j chunks) = List.length chunks.
Proof.
  revert j. induction chunks as [|c rest IH]; intros j; cbn; [reflexivity|].
  rewrite IH. reflexivity.
Qed.

(** C8, as the code has it: when every per-chunk service call returns a
    response whose content the parser turns into a list of records (the
    empty list when nothing decodes) or into an empty string or object, the
    callback is invoked exactly once per chunk, in chunk order, the [i]-th
    time (from 0) with [(i, K, start page, end page)] of the [i]-th chunk. *)
Theorem progress_once_per_chunk (chunks : list Chunk) (document_name : string)
    (w : world) :
  extraction_replies_typed decode svc ->
  let K := List.length chunks in
  let after :=
    progress (snd (extract_creditors_from_chunks decode svc chunks
                     document_name true w)) in
  after = progress w ++ progress_of K 0 chunks /\
  List.length (progress_of K 0 chunks) = K /\
  forall i chunk,
    nth_error chunks i = Some chunk ->
    nth_error (progress_of K 0 chunks) i
    = Some (i, K, start_page chunk, end_page chunk).
Proof.
  intros Ht K after. subst after. split; [|split].
  - unfold extract_creditors_from_chunks, try_except, bind.
    destruct (extract_chunks_progress document_name K chunks Ht 0 [] w)
      as [all' [w' [Hrun Hp]]].
    fold K. rewrite Hrun.
    destruct (0 <? List.length all')%nat.
    + pose proof (consolidate_progress all' document_name w') as Hc.
      destruct (_consolidate_creditors_with_ai _ _ _ _ w') as [[v|e] w2];
        cbn [snd] in Hc.
      * unfold lift, ret, raise. destruct (py_len v); cbn [snd]; congruence.
      * unfold raise. cbn [snd]. congruence.
    + unfold ret. cbn [snd]. assumption.
  - apply progress_of_length.
  - intros i chunk H. apply (progress_of_nth K chunks 0 i chunk H).
Qed.

(** ** The chunk loop and [extract_creditors] on an empty response *)

Lemma chunk_items_empty_content (pages : string) :
  decode "" = Raise JSONDecodeError ->
  chunk_items decode (Ok (response_with (PStr ""))) pages = Ok [].
Proof.
  intros Hd. unfold chunk_items. cbn [rbind].
  change (response_content (response_with (PStr ""))) with (Ok (PStr "")).
  cbn [rbind]. rewrite parse_ai_response_first_outcome.
  change (array_candidates "") with [""; ""].
  cbn [first_outcome]. rewrite Hd. reflexivity.
Qed.

Lemma extract_chunks_empty_content (document_name : string)
    (progress_callback : bool) (total : nat) (chunks : list Chunk) :
  decode "" = Raise JSONDecodeError ->
  (forall n pdf_text label,
      svc n (ExtractionRequest pdf_text label)
      = Ok (response_with (PStr ""))) ->
  forall (i : nat) (w : world),
    fst (extract_chunks decode svc document_name progress_callback total i
           chunks [] w) = Ok [].
Proof.
  intros Hd Hs. induction chunks as [|chunk rest IH]; intros i w;
    [reflexivity|].
  rewrite extract_chunks_cons. cbv zeta.
  rewrite Hs, (chunk_items_empty_content _ Hd). apply IH.
Qed.

(** C4, the code at a service that answers every extraction call with an
    empty content: [extract_creditors] raises its extraction error, and so
    does the chunk loop that calls it for each chunk, while
    [extract_creditors_from_chunks] returns normally, with no record and a
    count of zero. *)
Theorem empty_content_in_chunks_is_no_error (chunk : Chunk)
    (chunks : list Chunk) (document_name : string)
    (progress_callback : bool) (w : world) :
  decode "" = Raise JSONDecodeError ->
  (forall n pdf_text label,
      svc n (ExtractionRequest pdf_text label)
      = Ok (response_with (PStr ""))) ->
  fst (extract_creditors decode svc (text chunk)
         (chunk_label document_name chunk) w)
  = Raise (Wrapped ErroAnaliseIA ValueError) /\
  fst (extract_chunks_by_text decode svc document_name progress_callback
         (List.length (chunk :: chunks)) 0 (chunk :: chunks) [] w)
  = Raise (Wrapped ErroAnaliseIA ValueError) /\
  fst (extract_creditors_from_chunks decode svc (chunk :: chunks)
         document_name progress_callback w)
  = Ok (PList [], 0).
Proof.
  intros Hd Hs.
  assert (Hx : forall pdf_text label w0,
             fst (extract_creditors decode svc pdf_text label w0)
             = Raise (Wrapped ErroAnaliseIA ValueError)).
  { intros pdf_text label w0.
    unfold extract_creditors, try_except, bind, fal_client_run, lift, raise.
    rewrite Hs. reflexivity. }
  split; [apply Hx|split].
  - cbn [extract_chunks_by_text]. unfold bind.
    destruct progress_callback; unfold notify_progress, ret.
    + pose proof (Hx (text chunk) (chunk_label document_name chunk)
                    (mkWorld (calls w)
                       (progress w ++
                        [(0, List.length (chunk :: chunks), start_page chunk,
                          end_page chunk)]))) as H.
      destruct (extract_creditors _ _ _ _ _) as [[v|e] w1]; cbn [fst] in H;
        [discriminate|]. injection H as ->. reflexivity.
    + pose proof (Hx (text chunk) (chunk_label document_name chunk) w) as H.
      destruct (extract_creditors _ _ _ _ _) as [[v|e] w1]; cbn [fst] in H;
        [discriminate|]. injection H as ->. reflexivity.
  - unfold extract_creditors_from_chunks, try_except, bind.
    pose proof (extract_chunks_empty_content document_name progress_callback
                  (List.length (chunk :: chunks)) (chunk :: chunks) Hd Hs 0 w)
      as H.
    destruct (extract_chunks _ _ _ _ _ _ _ _ w) as [[all|e] w1];
      cbn [fst] in H; [|discriminate].
    injection H as ->. reflexivity.
Qed.

End Properties.

(** * Runs on concrete inputs *)

Example parse_fenced_array :
  _parse_ai_response Json.decode (PStr "Segue a lista: ```json [1, 2] ``` fim")
  = Ok (PList [PInt 1; PInt 2]).
Proof. reflexivity. Qed.

Example parse_prose_is_empty_list :
  _parse_ai_response Json.decode (PStr "nenhum credor encontrado")
  = Ok (PList []).
Proof. reflexivity. Qed.

(** The two-chunk example: one record from the first chunk, two from the
    second, and a consolidation that removes the duplicate. *)
Example two_chunks_three_extracted_two_unique :
  fst (extract_creditors_from_chunks Json.decode
         (scripted
            [json_array [creditor_json "Banco X" "100"];
             json_array [creditor_json "Banco X" "100";
                         creditor_json "Loja Y" "50"];
             json_array [creditor_json "Banco X" "100";
                         creditor_json "Loja Y" "50"]])
         [chunk_1_20; chunk_21_40] "QGC" false world0)
  = Ok (PList [creditor "Banco X" "100"; creditor "Loja Y" "50"], 3).
Proof. reflexivity. Qed.

(** What the consolidation was asked in that run: the three extracted
    records, each with the pages of its chunk. *)
Example two_chunks_consolidation_request :
  nth_error
    (calls (snd (extract_creditors_from_chunks Json.decode
                   (scripted
                      [json_array [creditor_json "Banco X" "100"];
                       json_array [creditor_json "Banco X" "100";
                                   creditor_json "Loja Y" "50"];
                       "[]"])
                   [chunk_1_20; chunk_21_40] "QGC" false world0)))
    2
  = Some (ConsolidationRequest
            (PList
               [PDict [("nome", PStr "Banco X"); ("valor", PStr "100");
                       ("_source_pages", PStr "1-20")];
                PDict [("nome", PStr "Banco X"); ("valor", PStr "100");
                       ("_source_pages", PStr "21-40")];
                PDict [("nome", PStr "Loja Y"); ("valor", PStr "50");
                       ("_source_pages", PStr "21-40")]])
            "QGC").
Proof. reflexivity. Qed.

Example parse_none_raises :
  _parse_ai_response Json.decode PNone = Raise TypeError.
Proof. reflexivity. Qed.

(** C1 fails as stated: the service answers in prose, the parser falls
    back to the all-zero default, and [compare] returns it as it is; the one
    record of the old list is in none of the four classifications. *)
Lemma compare_returns_unvalidated_result :
  exists c,
    fst (compare_creditors_with_ai Json.decode (always "sem diferenças")
           [banco_x] [] world0) = Ok c /\
    ~ valid_partition [banco_x] [] c.
Proof.
  exists default_comparison. split; [reflexivity|].
  intros [Hall _]. specialize (Hall banco_x (or_introl eq_refl)).
  unfold classified_once, in_new, in_removed, in_modified, in_unchanged in Hall.
  cbn in Hall.
  destruct Hall as [[H _]|[[_ [H _]]|[[_ [_ [[e [H _]] _]]]|[_ [_ [_ H]]]]]];
    exact H.
Qed.

Lemma parts_of_short_prose (t : string) :
  is_substring t "n/a" -> decodes_or_rejects Json.decode t.
Proof.
  intros [a [b H]].
  parts_of H a t ltac:(first [left; reflexivity|right; eexists; reflexivity]).
Defined.

Lemma parts_of_short_array (t : string) :
  is_substring t "ok [1]" -> decodes_or_rejects Json.decode t.
Proof.
  intros [a [b H]].
  parts_of H a t ltac:(first [left; reflexivity|right; eexists; reflexivity]).
Defined.

Lemma compare_outcome_from_reply_alone_witness :
  let old_creditors := @nil pyval in
  let new_creditors := [creditor "Loja Y" "50"] in
  let svc := always one_new_json in
  let outcome :=
    fst (compare_creditors_with_ai Json.decode svc old_creditors new_creditors
           world0) in
  outcome
  = match _parse_comparison_response Json.decode (PStr one_new_json) with
    | Ok v => Ok v
    | Raise e => Raise (Wrapped ErroComparacaoIA e)
    end /\
  outcome = Ok one_new_comparison /\
  ((exists c', outcome = Ok c' /\
               valid_partition old_creditors new_creditors c') <->
   valid_partition old_creditors new_creditors one_new_comparison) /\
  outcome
  = match first_outcome Json.decode (object_candidates one_new_json)
            default_comparison with
    | Ok v => Ok v
    | Raise e => Raise (Wrapped ErroComparacaoIA e)
    end /\
  (forall old_creditors' new_creditors' w',
      svc (List.length (calls w'))
        (ComparisonRequest old_creditors' new_creditors')
      = svc (List.length (calls world0))
          (ComparisonRequest old_creditors new_creditors) ->
      fst (compare_creditors_with_ai Json.decode svc old_creditors'
             new_creditors' w')
      = outcome).
Proof.
  pose proof (compare_outcome_from_reply_alone Json.decode
                (always one_new_json) [] [creditor "Loja Y" "50"] world0
                one_new_json) as H.
  cbv zeta in H.
  destruct H as [H0 [H1 [H2 H3]]].
  - eexists. split; reflexivity.
  - discriminate.
  - destruct (H1 one_new_comparison eq_refl) as [Ha Hb].
    cbv zeta. split; [exact H0|]. split; [exact Ha|]. split; [exact Hb|].
    split; [apply H2; reflexivity|exact H3].
Defined.

(** The comparison of that run does classify the one record it was given,
    and its count of new creditors is right. *)
Example one_new_comparison_is_valid :
  valid_partition [] [creditor "Loja Y" "50"] one_new_comparison.
Proof.
  split; [|repeat split].
  intros r [<-|[]]. left.
  unfold in_new, in_removed, in_modified, in_unchanged. cbn.
  split; [left; reflexivity|].
  split; [intros []|]. split; [intros [e [[] _]]|intros []].
Qed.

Lemma consolidate_batch_fallback_witness :
  fst (_consolidate_batch Json.decode (always "[]")
         (PList (records [banco_x_fields])) "QGC" world0)
  = Ok (PList (records (map without_source_pages [banco_x_fields]))) /\
  List.length (map without_source_pages [banco_x_fields])
  = List.length [banco_x_fields] /\
  Forall (fun d =>
            dict_lookup "_source_pages" (without_source_pages d) = None /\
            forall k, k <> "_source_pages" ->
                      dict_lookup k (without_source_pages d) = dict_lookup k d)
    [banco_x_fields].
Proof.
  apply (consolidate_batch_fallback Json.decode (always "[]")
           [banco_x_fields] "QGC" world0).
  right. left. exists (PList []). split; reflexivity.
Defined.

(** C3 fails as stated: 151 records, and a service that wraps its list
    in an object.  The sum of the first batch's result and the second's
    raises, the handler returns the input, and two calls were issued, not
    the three that the two batches and their fold would take. *)
Lemma consolidate_fold_cut_short :
  let run := _consolidate_creditors_with_ai Json.decode (always wrapped_list)
               (records (repeat banco_x_fields 151)) "QGC" world0 in
  List.length (calls (snd run)) = 2 /\
  List.length (calls (snd run)) <> (151 + 99) / 100 + ((151 + 99) / 100 - 1) /\
  fst run
  = Ok (PList (records (map without_source_pages (repeat banco_x_fields 151)))).
Proof.
  vm_compute. split; [reflexivity|split; [discriminate|reflexivity]].
Qed.

Lemma parsed_empty_list :
  parsed_reply Json.decode (Ok (response_with (PStr "[]"))) = Ok (PList []).
Proof. reflexivity. Defined.

Lemma parsed_one_record :
  parsed_reply Json.decode (Ok (response_with (PStr "[{}]")))
  = Ok (PList [PDict []]).
Proof. reflexivity. Defined.

Lemma always_one_record_typed :
  consolidation_replies_typed Json.decode (always "[{}]").
Proof.
  intros n creditors document_name v H. unfold always in H.
  rewrite parsed_one_record in H. injection H as <-. reflexivity.
Defined.

Lemma consolidate_calls_witness :
  let cds := repeat banco_x_fields 151 in
  let after :=
    calls (snd (_consolidate_creditors_with_ai Json.decode (always "[{}]")
                  (records cds) "QGC" world0)) in
  let count := (List.length cds + 99) / 100 in
  (let issued :=
     if (List.length cds <=? 150)%nat
     then [ConsolidationRequest (PList (records cds)) "QGC"]
     else batched_calls Json.decode (always "[{}]") (records cds) "QGC"
            (List.length (calls world0)) in
   after = calls world0 ++ issued /\
   List.length issued
   = if (List.length cds <=? 150)%nat then 1 else count + (count - 1)) /\
  (exists issued,
      after = calls world0 ++ issued /\
      forallb is_consolidation issued = true /\
      1 <= List.length issued /\
      List.length issued
      <= if (List.length cds <=? 150)%nat then 1 else count + (count - 1)).
Proof.
  destruct (consolidate_calls Json.decode (always "[{}]")
              (repeat banco_x_fields 151) "QGC" world0) as [H1 H2].
  split; [apply H1; intros _; exact always_one_record_typed|exact H2].
Defined.

(** The calls need not fall short when an exception leaves the loop: 151
    records, two accepted replies that are lists of numbers, and an empty
    third content.  All three calls are issued; the last one's list cannot
    be stripped of its pages, and [consolidate] returns the records it was
    given. *)
Example consolidate_raises_after_last_call :
  let run := _consolidate_creditors_with_ai Json.decode
               (scripted ["[1]"; "[2]"; ""])
               (records (repeat banco_x_fields 151)) "QGC" world0 in
  List.length (calls (snd run)) = (151 + 99) / 100 + ((151 + 99) / 100 - 1) /\
  nth_error (calls (snd run)) 2
  = Some (ConsolidationRequest (PList [PInt 1; PInt 2]) "QGC") /\
  pop_source_pages (PList [PInt 1; PInt 2]) = Raise AttributeError /\
  fst run
  = Ok (PList (records (map without_source_pages (repeat banco_x_fields 151)))).
Proof. vm_compute. repeat split. Qed.

Lemma empty_content_in_chunks_is_no_error_witness :
  fst (extract_creditors Json.decode (always "") (text chunk_1_20)
         (chunk_label "QGC" chunk_1_20) world0)
  = Raise (Wrapped ErroAnaliseIA ValueError) /\
  fst (extract_chunks_by_text Json.decode (always "") "QGC" true
         (List.length [chunk_1_20; chunk_21_40]) 0 [chunk_1_20; chunk_21_40]
         [] world0)
  = Raise (Wrapped ErroAnaliseIA ValueError) /\
  fst (extract_creditors_from_chunks Json.decode (always "")
         [chunk_1_20; chunk_21_40] "QGC" true world0)
  = Ok (PList [], 0).
Proof.
  apply (empty_content_in_chunks_is_no_error Json.decode (always "")
           chunk_1_20 [chunk_21_40] "QGC" true world0).
  - reflexivity.
  - intros n pdf_text label. reflexivity.
Defined.

(** C5 fails as stated: the response is an integer literal of 4400
    digits.  [json.loads] raises [ValueError] on it (the literal is over
    the 4300 digits that [int] converts), and the parsers catch
    [JSONDecodeError] only: both raise. *)
Lemma parser_raises_on_long_integer :
  Json.decode many_digits = Raise ValueError /\
  _parse_ai_response Json.decode (PStr many_digits) = Raise ValueError /\
  _parse_comparison_response Json.decode (PStr many_digits) = Raise ValueError.
Proof. repeat split; vm_compute; reflexivity. Qed.

Lemma parsers_never_raise_witness :
  let s := "ok [1]" in
  ((exists v,
       _parse_ai_response Json.decode (PStr s) = Ok v /\
       ((exists t, is_substring t s /\ Json.decode t = Ok v) \/ v = PList [])) /\
   (exists v,
       _parse_comparison_response Json.decode (PStr s) = Ok v /\
       ((exists t, is_substring t s /\ Json.decode t = Ok v) \/
        v = default_comparison))) /\
  (_parse_ai_response Json.decode (PStr s)
   = first_outcome Json.decode (array_candidates s) (PList []) /\
   _parse_comparison_response Json.decode (PStr s)
   = first_outcome Json.decode (object_candidates s) default_comparison /\
   ((exists c,
        first_not_rejected Json.decode (array_candidates s) c
          (_parse_ai_response Json.decode (PStr s))) \/
    (Forall (fun t => Json.decode t = Raise JSONDecodeError)
       (array_candidates s) /\
     _parse_ai_response Json.decode (PStr s) = Ok (PList []))) /\
   ((exists c,
        first_not_rejected Json.decode (object_candidates s) c
          (_parse_comparison_response Json.decode (PStr s))) \/
    (Forall (fun t => Json.decode t = Raise JSONDecodeError)
       (object_candidates s) /\
     _parse_comparison_response Json.decode (PStr s)
     = Ok default_comparison))) /\
  _parse_ai_response Json.decode (PStr s) = Ok (PList [PInt 1]) /\
  _parse_comparison_response Json.decode (PStr s) = Ok default_comparison.
Proof.
  destruct (parsers_never_raise Json.decode "ok [1]") as [H1 H2].
  split; [exact (H1 parts_of_short_array)|].
  split; [exact (H2 eq_refl)|].
  split; reflexivity.
Defined.

(** C6 fails as stated: the call succeeds, the content is a literal of
    4400 digits, and [json.loads] raises [ValueError] on it, which the
    parser does not catch: [compare] raises its comparison error. *)
Lemma compare_raises_on_long_integer :
  reply_is (always many_digits 0 (ComparisonRequest [banco_x] []))
    (Responds many_digits) /\
  many_digits <> "" /\
  Json.decode many_digits = Raise ValueError /\
  fst (compare_creditors_with_ai Json.decode (always many_digits) [banco_x] []
         world0)
  = Raise (Wrapped ErroComparacaoIA ValueError).
Proof.
  split; [eexists; split; reflexivity|].
  split; [discriminate|].
  split; vm_compute; reflexivity.
Qed.

Lemma compare_raises_iff_witness :
  let outcome :=
    fst (compare_creditors_with_ai Json.decode (always "n/a") [banco_x] []
           world0) in
  (forall e, outcome = Raise e ->
             exists cause, e = Wrapped ErroComparacaoIA cause) /\
  outcome
  = match _parse_comparison_response Json.decode (PStr "n/a") with
    | Ok v => Ok v
    | Raise e => Raise (Wrapped ErroComparacaoIA e)
    end /\
  (exists v, outcome = Ok v) /\
  outcome
  = match first_outcome Json.decode (object_candidates "n/a")
            default_comparison with
    | Ok v => Ok v
    | Raise e => Raise (Wrapped ErroComparacaoIA e)
    end /\
  ((exists e, outcome = Raise e) <->
   (exists e, first_outcome Json.decode (object_candidates "n/a")
                default_comparison = Raise e)) /\
  outcome = Ok default_comparison.
Proof.
  pose proof (compare_raises_iff Json.decode (always "n/a") [banco_x] []
                world0 (Responds "n/a")) as H.
  cbv zeta in H.
  destruct H as [H1 [_ [_ H4]]].
  - eexists. split; reflexivity.
  - destruct (H4 "n/a" eq_refl ltac:(discriminate)) as [H0 [Hr Hp]].
    destruct (Hp eq_refl) as [Ha [Hb Hc]].
    cbv zeta. split; [exact H1|]. split; [exact H0|].
    split; [exact (Hr parts_of_short_prose)|].
    split; [exact Ha|]. split; [exact Hb|].
    apply Hc. repeat constructor.
Defined.

(** C7 fails as stated: one record in, and a service that answers with
    two: [consolidate] returns the two. *)
Lemma consolidate_returns_more_than_given :
  fst (_consolidate_creditors_with_ai Json.decode (always "[{}, {}]")
         (records [banco_x_fields]) "QGC" world0)
  = Ok (PList [PDict []; PDict []]) /\
  ~ at_most (List.length [banco_x_fields]) (PList [PDict []; PDict []]).
Proof.
  split; [reflexivity|].
  intros [m [Hm Hle]]. cbn in Hm, Hle. injection Hm as <-. lia.
Qed.

Lemma merging_bounded : consolidation_replies_bounded Json.decode merging.
Proof.
  intros n creditors document_name v k m Hp Ha Hk Hm.
  destruct creditors as [| | | | |[|x l]|]; cbn [merging] in Hp;
    try (rewrite parsed_empty_list in Hp; injection Hp as <-; discriminate).
  rewrite parsed_one_record in Hp. injection Hp as <-.
  cbn in Hk, Hm. injection Hk as <-. injection Hm as <-. lia.
Defined.

Lemma consolidate_at_most_input_witness :
  exists v,
    fst (_consolidate_creditors_with_ai Json.decode merging
           (records [banco_x_fields; banco_x_fields; banco_x_fields]) "QGC"
           world0) = Ok v /\
    at_most (List.length [banco_x_fields; banco_x_fields; banco_x_fields]) v.
Proof.
  apply (consolidate_at_most_input Json.decode merging
           [banco_x_fields; banco_x_fields; banco_x_fields] "QGC" world0).
  exact merging_bounded.
Defined.

(** C8 fails as stated: two chunks, every service call returns, but the
    content is an object around the list.  Tagging its key raises in the
    first chunk, and the callback has been invoked once, not twice. *)
Lemma progress_stops_at_untaggable_reply :
  (forall n req, exists response, always wrapped_list n req = Ok response) /\
  progress (snd (extract_creditors_from_chunks Json.decode (always wrapped_list)
                   [chunk_1_20; chunk_21_40] "QGC" true world0))
  = [(0, 2, 1%Z, 20%Z)] /\
  List.length
    (progress (snd (extract_creditors_from_chunks Json.decode
                      (always wrapped_list) [chunk_1_20; chunk_21_40] "QGC"
                      true world0)))
  <> List.length [chunk_1_20; chunk_21_40] /\
  fst (extract_creditors_from_chunks Json.decode (always wrapped_list)
         [chunk_1_20; chunk_21_40] "QGC" true world0)
  = Raise (Wrapped ErroExtracaoBlocos TypeError).
Proof.
  split; [|split; [reflexivity|split; [|reflexivity]]].
  - intros n req. eexists. reflexivity.
  - cbn. discriminate.
Qed.

Lemma always_one_record_extraction_typed :
  extraction_replies_typed Json.decode (always "[{}]").
Proof.
  intros n pdf_text document_name.
  exists (response_with (PStr "[{}]")), (PStr "[{}]"), (PList [PDict []]).
  repeat split.
Defined.

Lemma progress_once_per_chunk_witness :
  let chunks := [chunk_1_20; chunk_21_40] in
  let K := List.length chunks in
  let after :=
    progress (snd (extract_creditors_from_chunks Json.decode (always "[{}]")
                     chunks "QGC" true world0)) in
  after = progress world0 ++ progress_of K 0 chunks /\
  List.length (progress_of K 0 chunks) = K /\
  forall i chunk,
    nth_error chunks i = Some chunk ->
    nth_error (progress_of K 0 chunks) i
    = Some (i, K, start_page chunk, end_page chunk).
Proof.
  apply (progress_once_per_chunk Json.decode (always "[{}]")
           [chunk_1_20; chunk_21_40] "QGC" world0).
  exact always_one_record_extraction_typed.
Defined.


(** C10 fails as stated: one record in, and a service that wraps its list
    in an object.  The object has one key, so it passes the test on the
    result and [consolidate] returns it: not a list of records, and with no
    record in it. *)
Lemma consolidate_returns_wrapper_object :
  fst (_consolidate_creditors_with_ai Json.decode (always wrapped_list)
         (records [banco_x_fields]) "QGC" world0)
  = Ok (PDict [("credores", PList [])]) /\
  ~ (exists l, PDict [("credores", PList [])] = PList l /\ l <> []).
Proof.
  split; [reflexivity|].
  intros [l [H _]]. discriminate.
Qed.

Lemma fold_rejected_typed :
  consolidation_replies_typed Json.decode fold_rejected.
Proof.
  intros n creditors document_name v H.
  unfold fold_rejected, scripted in H.
  destruct n as [|[|[|n]]]; cbn [nth_error] in H.
  - vm_compute in H. injection H as <-. reflexivity.
  - vm_compute in H. injection H as <-. reflexivity.
  - vm_compute in H. injection H as <-. reflexivity.
  - destruct n; discriminate H.
Defined.

Lemma consolidate_never_empty_witness :
  let ds := repeat banco_x_fields 151 in
  let run :=
    _consolidate_creditors_with_ai Json.decode fold_rejected (records ds)
      "QGC" world0 in
  let given := PList (records (map without_source_pages ds)) in
  exists v,
    fst run = Ok v /\
    nonempty v /\
    (v = given \/
     exists before sent name,
       calls (snd run) = before ++ [ConsolidationRequest sent name] /\
       List.length (calls world0) <= List.length before /\
       ((parsed_reply Json.decode
           (fold_rejected (List.length before)
              (ConsolidationRequest sent name)) = Ok v /\
         accepted v = true) \/
        pop_source_pages sent = Ok v)) /\
    (exists out, v = PList (records out) /\ out <> []).
Proof.
  destruct (consolidate_never_empty Json.decode fold_rejected
              (repeat banco_x_fields 151) "QGC" world0)
    as [v [Hv [Hn [Hl [_ Ht]]]]].
  - discriminate.
  - exists v. split; [exact Hv|]. split; [exact Hn|]. split; [exact Hl|].
    exact (Ht fold_rejected_typed).
Defined.

(** In that run the value returned is neither the records given nor what
    was parsed from a reply: the third content is empty, and the list sent
    in that call, the first reply's record followed by the second's, comes
    back without its pages. *)
Example consolidate_returns_stripped_fold_input :
  let run :=
    _consolidate_creditors_with_ai Json.decode fold_rejected
      (records (repeat banco_x_fields 151)) "QGC" world0 in
  fst run = Ok (PList [creditor "Banco X" "100"; PDict [("nome", PStr "Loja Y")]]) /\
  nth_error (calls (snd run)) 2
  = Some (ConsolidationRequest
            (PList [creditor "Banco X" "100";
                    PDict [("nome", PStr "Loja Y");
                           ("_source_pages", PStr "21-40")]])
            "QGC") /\
  List.length (calls (snd run)) = 3.
Proof. vm_compute. repeat split. Qed.

(** Up to 150 records the value is the records given or the accepted
    reply of the one call. *)
Example consolidate_small_list_outcome :
  fst (_consolidate_creditors_with_ai Json.decode failing
         (records [banco_x_fields]) "QGC" world0)
  = Ok (PList (records (map without_source_pages [banco_x_fields]))).
Proof. reflexivity. Qed.

(** * Further properties *)

(** ** Strings *)

Lemma has_ink_app (a b : string) :
  has_ink (a ++ b) = has_ink a || has_ink b.
Proof.
  induction a as [|x a IH]; simpl; [reflexivity|].
  rewrite IH, orb_assoc. reflexivity.
Qed.

Lemma lstrip_empty_iff (s : string) : lstrip s = "" <-> has_ink s = false.
Proof.
  induction s as [|c s IH]; simpl; [tauto|].
  destruct (is_space c); simpl; [exact IH|].
  split; discriminate.
Qed.

Lemma lstrip_ink (s : string) : has_ink (lstrip s) = has_ink s.
Proof.
  induction s as [|c s IH]; simpl; [reflexivity|].
  destruct (is_space c) eqn:E; simpl; [exact IH|]. rewrite E. reflexivity.
Qed.

Lemma has_ink_of_list (l : list ascii) :
  has_ink (string_of_list_ascii l) = existsb (fun c => negb (is_space c)) l.
Proof. induction l as [|c l IH]; simpl; [reflexivity|]. rewrite IH. reflexivity. Qed.

Lemma has_ink_rev (s : string) : has_ink (string_rev s) = has_ink s.
Proof.
  unfold string_rev. rewrite has_ink_of_list.
  rewrite <- (string_of_list_ascii_of_string s) at 2. rewrite has_ink_of_list.
  generalize (list_ascii_of_string s). intros l.
  induction l as [|c l IH]; simpl; [reflexivity|].
  rewrite existsb_app, IH. simpl. rewrite orb_false_r. apply orb_comm.
Qed.

(** [s.strip()] is empty exactly when [s] is all white space. *)
Lemma lstrip_nonempty_ink (s : string) : lstrip s <> "" -> has_ink s = true.
Proof.
  intros H. destruct (has_ink s) eqn:E; [reflexivity|].
  apply lstrip_empty_iff in E. contradiction.
Qed.

Lemma nonblank_has_ink (s : string) : nonblank s = has_ink s.
Proof.
  unfold nonblank, strip, rstrip.
  assert (H : has_ink (string_rev (lstrip (string_rev (lstrip s)))) = has_ink s).
  { rewrite has_ink_rev, lstrip_ink, has_ink_rev, lstrip_ink. reflexivity. }
  destruct (string_rev (lstrip (string_rev (lstrip s)))) as [|c r] eqn:E.
  - simpl in H. rewrite <- H. reflexivity.
  - cbn [String.eqb negb]. rewrite <- H, <- E, has_ink_rev, lstrip_ink.
    symmetry. apply lstrip_nonempty_ink.
    intros Hn. rewrite Hn in E. discriminate.
Qed.

(** ** PDF text extraction *)

Lemma add_pages_ok (texts : list string) (acc : string) :
  add_pages (map Ok texts) acc = Ok (acc ++ join_pages texts)%string.
Proof.
  revert acc. induction texts as [|t texts IH]; intros acc; cbn [map add_pages join_pages].
  - rewrite string_app_nil_r. reflexivity.
  - rewrite IH. destruct (String.eqb t ""); cbn [append].
    + reflexivity.
    + rewrite !string_app_assoc. reflexivity.
Qed.

Lemma join_pages_app (a b : list string) :
  join_pages (a ++ b) = (join_pages a ++ join_pages b)%string.
Proof.
  induction a as [|t a IH]; cbn [app join_pages]; [reflexivity|].
  rewrite IH, string_app_assoc. reflexivity.
Qed.

(** The loop only appends to the list it is given. *)
Lemma chunk_pages_acc (pages : list (result string))
    (pages_per_chunk total_pages : nat) (starts : list nat) :
  forall chunks,
    chunk_pages pages pages_per_chunk total_pages starts chunks
    = (chunks ++ fst (chunk_pages pages pages_per_chunk total_pages starts []),
       snd (chunk_pages pages pages_per_chunk total_pages starts [])).
Proof.
  induction starts as [|s rest IH]; intros chunks; cbn [chunk_pages].
  - cbn. rewrite app_nil_r. reflexivity.
  - destruct (add_pages _ "") as [t|e]; [|cbn; rewrite app_nil_r; reflexivity].
    destruct (nonblank t).
    + rewrite IH. rewrite (IH ([] ++ _)). cbn [fst snd app].
      rewrite <- app_assoc. reflexivity.
    + apply IH.
Qed.

Lemma read_chunks_acc (reader : pdf_reader) (pages_per_chunk : nat)
    (chunks : list Chunk) :
  read_chunks reader pages_per_chunk chunks
  = (chunks ++ fst (read_chunks reader pages_per_chunk []),
     snd (read_chunks reader pages_per_chunk [])).
Proof.
  unfold read_chunks. destruct reader as [pages|e];
    [|cbn; rewrite app_nil_r; reflexivity].
  destruct (Nat.eqb pages_per_chunk 0); [cbn; rewrite app_nil_r; reflexivity|].
  apply chunk_pages_acc.
Qed.

Lemma range_from_multiples (fuel start stop step : nat) :
  (exists q, start = q * step) ->
  Forall (fun i => i < stop /\ exists q, i = q * step)
    (range_from fuel start stop step).
Proof.
  revert start. induction fuel as [|fuel IH]; intros start Hq; cbn [range_from].
  - constructor.
  - destruct (Nat.ltb_spec start stop); [|constructor].
    constructor; [split; assumption|].
    apply IH. destruct Hq as [q ->]. exists (S q). lia.
Qed.

Lemma new_chunk_in_range (pages_per_chunk total s : nat) (t : string) :
  0 < pages_per_chunk -> s < total -> (exists q, s = q * pages_per_chunk) ->
  nonblank t = true ->
  chunk_in_range pages_per_chunk
    (mkChunk t (Z.of_nat s + 1)
       (Z.of_nat (Nat.min (s + pages_per_chunk) total))
       (Z.of_nat total)).
Proof.
  intros Hp Hs [q Hq] Ht. unfold chunk_in_range. cbn [text start_page end_page total_pages].
  repeat split; try lia; [assumption|].
  replace (Z.of_nat s + 1 - 1)%Z with (Z.of_nat s) by lia.
  rewrite <- Nat2Z.inj_mod. rewrite Hq, Nat.Div0.mod_mul. reflexivity.
Qed.

Lemma chunk_pages_in_range (pages : list (result string))
    (pages_per_chunk total_pages : nat) (starts : list nat) :
  0 < pages_per_chunk ->
  Forall (fun i => i < total_pages /\ exists q, i = q * pages_per_chunk) starts ->
  forall chunks,
    Forall (chunk_in_range pages_per_chunk) chunks ->
    Forall (chunk_in_range pages_per_chunk)
      (fst (chunk_pages pages pages_per_chunk total_pages starts chunks)).
Proof.
  intros Hp Hstarts. induction Hstarts as [|s rest [Hs Hq] _ IH];
    intros chunks Hc; cbn [chunk_pages]; [assumption|].
  destruct (add_pages _ "") as [t|e]; [|assumption].
  apply IH. destruct (nonblank t) eqn:Ht; [|assumption].
  apply Forall_app. split; [assumption|]. constructor; [|constructor].
  apply new_chunk_in_range; assumption.
Qed.

Lemma read_chunks_in_range (reader : pdf_reader) (pages_per_chunk : nat)
    (chunks : list Chunk) :
  Forall (chunk_in_range pages_per_chunk) chunks ->
  Forall (chunk_in_range pages_per_chunk)
    (fst (read_chunks reader pages_per_chunk chunks)).
Proof.
  intros Hc. unfold read_chunks. destruct reader as [pages|e]; [|assumption].
  destruct (Nat.eqb_spec pages_per_chunk 0) as [|Hne]; [assumption|].
  apply chunk_pages_in_range; [lia| |assumption].
  apply range_from_multiples. exists 0. reflexivity.
Qed.

(** X1: whatever the two libraries do, the chunks that
    [extract_text_in_chunks] returns are never an empty list, and each has a
    text that is not blank and a page range inside its document: it starts
    on the first page of a run of [pages_per_chunk] pages (1-based), ends
    inside that run, and not after the last page. *)
Theorem chunks_lie_in_document (f : pdf_file) (pages_per_chunk : nat)
    (chunks : list Chunk) :
  extract_text_in_chunks f pages_per_chunk = PdfOk chunks ->
  chunks <> [] /\ Forall (chunk_in_range pages_per_chunk) chunks.
Proof.
  unfold extract_text_in_chunks. intros H.
  destruct (seek f); [|discriminate].
  pose proof (read_chunks_in_range (pdfplumber f) pages_per_chunk []
                (Forall_nil _)) as H1.
  destruct (read_chunks (pdfplumber f) pages_per_chunk []) as [cs1 r1].
  cbn [fst] in H1.
  pose proof (read_chunks_in_range (pypdf2 f) pages_per_chunk cs1 H1) as H2.
  destruct (read_chunks (pypdf2 f) pages_per_chunk cs1) as [cs2 r2].
  cbn [fst] in H2.
  destruct cs1 as [|c1 cs1], r1 as [e1|];
    destruct cs2 as [|c2 cs2], r2 as [e2|]; cbn in H; try discriminate;
    injection H as <-; (split; [discriminate|assumption]).
Qed.

Lemma chunk_pages_readable (texts : list string) (pages_per_chunk : nat)
    (starts : list nat) :
  chunk_pages (map Ok texts) pages_per_chunk (List.length texts) starts []
  = (map (chunk_at texts pages_per_chunk)
       (filter (fun i => nonblank (group_text texts pages_per_chunk i)) starts),
     None).
Proof.
  induction starts as [|s rest IH]; [reflexivity|].
  cbn [chunk_pages filter]. unfold page_slice.
  rewrite skipn_map, firstn_map, add_pages_ok. cbn [append].
  fold (group_text texts pages_per_chunk s).
  rewrite chunk_pages_acc, IH. cbn [fst snd].
  destruct (nonblank (group_text texts pages_per_chunk s)); reflexivity.
Qed.

(** The runs of pages partition the document. *)
Lemma groups_partition (texts : list string) (pages_per_chunk : nat) :
  0 < pages_per_chunk ->
  forall fuel s,
    List.length texts <= s + fuel ->
    String.concat ""
      (map (group_text texts pages_per_chunk)
         (range_from fuel s (List.length texts) pages_per_chunk))
    = join_pages (skipn s texts).
Proof.
  intros Hp. induction fuel as [|fuel IH]; intros s Hs; cbn [range_from map String.concat].
  - rewrite skipn_all2 by lia. reflexivity.
  - destruct (Nat.ltb_spec s (List.length texts)) as [Hlt|Hge].
    + cbn [map]. 
      assert (Hc : forall (x : string) (l : list string),
                 String.concat "" (x :: l) = (x ++ String.concat "" l)%string).
      { intros x l. destruct l as [|y l]; cbn [String.concat].
        - rewrite string_app_nil_r. reflexivity.
        - reflexivity. }
      rewrite Hc, IH by lia.
      unfold group_text. rewrite <- join_pages_app. f_equal.
      set (n := Nat.min (s + pages_per_chunk) (List.length texts) - s).
      destruct (Nat.le_gt_cases (s + pages_per_chunk) (List.length texts)).
      * replace n with pages_per_chunk by (unfold n; lia).
        rewrite Nat.add_comm, <- skipn_skipn. apply firstn_skipn.
      * rewrite (skipn_all2 (n := s + pages_per_chunk)) by lia.
        rewrite app_nil_r. apply firstn_all2. rewrite length_skipn. unfold n. lia.
    + cbn. rewrite skipn_all2 by lia. reflexivity.
Qed.

Lemma has_ink_concat (groups : list string) :
  has_ink (String.concat "" groups) = existsb has_ink groups.
Proof.
  induction groups as [|g groups IH]; [reflexivity|].
  cbn [existsb]. rewrite <- IH.
  destruct groups as [|g' groups]; cbn [String.concat].
  - cbn. rewrite orb_false_r. reflexivity.
  - rewrite has_ink_app. reflexivity.
Qed.

(** [range(0, n, step)] has [ceil(n / step)] items. *)
Lemma range_from_count (n step : nat) :
  0 < step ->
  forall fuel k,
    (n + (step - 1)) / step <= fuel + k ->
    List.length (range_from fuel (step * k) n step)
    = (n + (step - 1)) / step - k.
Proof.
  intros Hs.
  pose proof (Nat.div_mod_eq (n + (step - 1)) step) as Hd.
  assert (Hm : (n + (step - 1)) mod step < step)
    by (apply Nat.mod_upper_bound; lia).
  set (count := (n + (step - 1)) / step) in *.
  set (r := (n + (step - 1)) mod step) in *.
  induction fuel as [|fuel IH]; intros k Hk; cbn [range_from List.length].
  - lia.
  - destruct (Nat.ltb_spec (step * k) n) as [Hlt|Hge].
    + cbn [List.length]. replace (step * k + step) with (step * S k) by lia.
      assert (k < count).
      { destruct (Nat.lt_ge_cases k count) as [|Hc]; [assumption|].
        pose proof (Nat.mul_le_mono_l count k step Hc). lia. }
      rewrite IH by lia. lia.
    + cbn [List.length].
      assert (count <= k).
      { destruct (Nat.lt_ge_cases k count) as [Hc|]; [|assumption].
        pose proof (Nat.mul_le_mono_l (S k) count step Hc). lia. }
      lia.
Qed.

Lemma range_from_length (n step : nat) :
  0 < step ->
  List.length (range_from n 0 n step) = (n + (step - 1)) / step.
Proof.
  intros Hs.
  pose proof (range_from_count n step Hs n 0) as H.
  rewrite Nat.mul_0_r, Nat.sub_0_r, Nat.add_0_r in H. apply H.
  pose proof (Nat.div_mod_eq (n + (step - 1)) step) as Hd.
  set (count := (n + (step - 1)) / step) in *.
  destruct (Nat.le_gt_cases count n) as [|Hc]; [assumption|].
  pose proof (Nat.mul_le_mono_r 1 step n Hs).
  pose proof (Nat.mul_le_mono_l (S n) count step Hc).
  lia.
Qed.

Lemma add_pages_inv (pages : list (result string)) :
  forall acc t, add_pages pages acc = Ok t -> exists texts, pages = map Ok texts.
Proof.
  induction pages as [|p pages IH]; intros acc t H; cbn [add_pages] in H.
  - exists []. reflexivity.
  - destruct p as [page_text|e]; [|discriminate].
    apply IH in H as [texts ->]. exists (page_text :: texts). reflexivity.
Qed.

Lemma read_text_some (reader : pdf_reader) (t : string) :
  read_text reader = Some t ->
  exists texts,
    reader = Ok (map Ok texts) /\ t = join_pages texts /\ has_ink t = true.
Proof.
  unfold read_text. intros H. destruct reader as [pages|e]; [|discriminate].
  destruct (add_pages pages "") as [t'|e] eqn:E; [|discriminate].
  destruct (nonblank t') eqn:Hn; [|discriminate]. injection H as ->.
  destruct (add_pages_inv _ _ _ E) as [texts ->]. exists texts.
  rewrite add_pages_ok in E. cbn [append] in E. injection E as <-.
  rewrite <- nonblank_has_ink. auto.
Qed.

Lemma read_text_none (texts : list string) :
  read_text (Ok (map Ok texts)) = None -> has_ink (join_pages texts) = false.
Proof.
  unfold read_text. rewrite add_pages_ok. cbn [append].
  rewrite nonblank_has_ink. destruct (has_ink (join_pages texts)); [discriminate|reflexivity].
Qed.

Lemma runs_join (texts : list string) (pages_per_chunk : nat) :
  0 < pages_per_chunk ->
  String.concat "" (runs_of texts pages_per_chunk) = join_pages texts.
Proof.
  intros Hp. unfold runs_of, py_range. rewrite groups_partition by lia. reflexivity.
Qed.

Lemma runs_length (texts : list string) (pages_per_chunk : nat) :
  0 < pages_per_chunk ->
  List.length (runs_of texts pages_per_chunk)
  = (List.length texts + (pages_per_chunk - 1)) / pages_per_chunk.
Proof.
  intros Hp. unfold runs_of, py_range. rewrite length_map.
  apply range_from_length. assumption.
Qed.

(** What one library's loop makes of a document it reads to the end. *)
Lemma read_chunks_texts (texts : list string) (pages_per_chunk : nat) :
  0 < pages_per_chunk ->
  exists chunks,
    read_chunks (Ok (map Ok texts)) pages_per_chunk [] = (chunks, None) /\
    map text chunks = filter nonblank (runs_of texts pages_per_chunk) /\
    (chunks = [] <-> has_ink (join_pages texts) = false).
Proof.
  intros Hp.
  set (starts := py_range 0 (List.length texts) pages_per_chunk).
  set (kept := filter (fun i => nonblank (group_text texts pages_per_chunk i))
                 starts).
  exists (map (chunk_at texts pages_per_chunk) kept).
  split; [|split].
  - unfold read_chunks.
    destruct (Nat.eqb_spec pages_per_chunk 0) as [|_]; [lia|].
    cbv zeta. rewrite length_map. apply chunk_pages_readable.
  - unfold runs_of, kept. fold starts.
    induction starts as [|i l IH]; [reflexivity|]. cbn [filter map].
    destruct (nonblank (group_text texts pages_per_chunk i)); cbn [map];
      rewrite IH; reflexivity.
  - rewrite <- (runs_join texts pages_per_chunk Hp), has_ink_concat.
    unfold runs_of. fold starts. split.
    + intros Hnil. apply map_eq_nil in Hnil.
      destruct (existsb has_ink (map (group_text texts pages_per_chunk) starts))
        eqn:E; [|reflexivity].
      apply existsb_exists in E as [g [Hin Hg]].
      apply in_map_iff in Hin as [i [<- Hi]].
      assert (Hf : In i kept).
      { apply filter_In. split; [assumption|]. rewrite nonblank_has_ink. assumption. }
      rewrite Hnil in Hf. contradiction.
    + intros Hblank. destruct kept as [|i l] eqn:E; [reflexivity|].
      assert (Hf : In i kept) by (rewrite E; left; reflexivity).
      apply filter_In in Hf as [Hi Hn]. rewrite nonblank_has_ink in Hn.
      assert (existsb has_ink (map (group_text texts pages_per_chunk) starts) = true).
      { apply existsb_exists. eexists. split; [|exact Hn].
        apply in_map. assumption. }
      congruence.
Qed.

(** X2: on a document whose page texts have no white space beyond ASCII,
    and when pdfplumber does not fail part-way, the two extractions agree:
    the text that [extract_text] returns is the
    texts of the runs of [pages_per_chunk] pages of one of the two
    libraries' documents, one after the other, and [extract_text_in_chunks]
    on the same file returns one chunk for each of these runs that is not
    blank, in order, with that run's text.  What the chunks leave out of the
    document's text is white space only. *)
Theorem chunks_are_the_nonblank_runs (f : pdf_file) (t : string)
    (pages_per_chunk : nat) :
  ascii_spaced (pdfplumber f) ->
  ascii_spaced (pypdf2 f) ->
  reads_all_or_nothing (pdfplumber f) ->
  0 < pages_per_chunk ->
  extract_text f = PdfOk t ->
  exists texts chunks,
    (pdfplumber f = Ok (map Ok texts) \/ pypdf2 f = Ok (map Ok texts)) /\
    List.length (runs_of texts pages_per_chunk)
    = (List.length texts + (pages_per_chunk - 1)) / pages_per_chunk /\
    t = String.concat "" (runs_of texts pages_per_chunk) /\
    extract_text_in_chunks f pages_per_chunk = PdfOk chunks /\
    map text chunks = filter nonblank (runs_of texts pages_per_chunk).
Proof.
  intros _ _ Hall Hp Ht. unfold extract_text in Ht.
  unfold extract_text_in_chunks.
  destruct (seek f) as [[]|e]; [|discriminate].
  destruct (read_text (pdfplumber f)) as [t1|] eqn:E1.
  - injection Ht as ->.
    apply read_text_some in E1 as [texts [Hpl [-> Hink]]].
    destruct (read_chunks_texts texts pages_per_chunk Hp) as [chunks [Hr [Htx Hnil]]].
    exists texts, chunks. rewrite Hpl, Hr.
    split; [left; reflexivity|]. split; [apply runs_length; assumption|].
    split; [symmetry; apply runs_join; assumption|]. split; [|assumption].
    destruct chunks as [|c cs]; [|reflexivity].
    destruct Hnil as [Hnil _]. rewrite Hnil in Hink by reflexivity. discriminate.
  - destruct (read_text (pypdf2 f)) as [t2|] eqn:E2; [|discriminate].
    injection Ht as ->.
    apply read_text_some in E2 as [texts [Hpy [-> Hink]]].
    destruct (read_chunks_texts texts pages_per_chunk Hp) as [chunks [Hr [Htx Hnil]]].
    exists texts, chunks. rewrite Hpy.
    split; [right; reflexivity|]. split; [apply runs_length; assumption|].
    split; [symmetry; apply runs_join; assumption|]. split; [|assumption].
    assert (H1 : exists r1, read_chunks (pdfplumber f) pages_per_chunk [] = ([], r1)).
    { destruct (pdfplumber f) as [pages|e] eqn:Hpl.
      - destruct Hall as [texts1 ->].
        destruct (read_chunks_texts texts1 pages_per_chunk Hp)
          as [cs1 [Hr1 [_ Hnil1]]].
        exists None. rewrite Hr1. f_equal. apply Hnil1.
        apply read_text_none. assumption.
      - exists (Some e). reflexivity. }
    destruct H1 as [r1 ->]. rewrite Hr.
    destruct chunks as [|c cs].
    + destruct Hnil as [Hnil _]. rewrite Hnil in Hink by reflexivity. discriminate.
    + destruct r1; reflexivity.
Qed.

(** X3: on a document whose page texts have no white space beyond ASCII,
    the text that [extract_text] returns is never blank, and it is the
    whole text of one library: the texts of all its pages that have text, each
    followed by a newline; PyPDF2's only when pdfplumber gave no text that
    is not blank.  Text read by pdfplumber before it failed is not part of
    it. *)
Theorem extract_text_is_one_library_text (f : pdf_file) (t : string) :
  ascii_spaced (pdfplumber f) ->
  ascii_spaced (pypdf2 f) ->
  extract_text f = PdfOk t ->
  has_ink t = true /\
  exists texts,
    t = join_pages texts /\
    (pdfplumber f = Ok (map Ok texts) \/
     (read_text (pdfplumber f) = None /\ pypdf2 f = Ok (map Ok texts))).
Proof.
  unfold extract_text. intros _ _ H.
  destruct (seek f); [|discriminate].
  destruct (read_text (pdfplumber f)) as [t1|] eqn:E1.
  - injection H as ->. apply read_text_some in E1 as [texts [Hpl [-> Hink]]].
    split; [assumption|]. exists texts. split; [reflexivity|]. left. assumption.
  - destruct (read_text (pypdf2 f)) as [t2|] eqn:E2; [|discriminate].
    injection H as ->. apply read_text_some in E2 as [texts [Hpy [-> Hink]]].
    split; [assumption|]. exists texts. split; [reflexivity|]. right.
    split; [reflexivity|assumption].
Qed.

Lemma pages_ascend_le (lo lo' : Z) (chunks : list Chunk) :
  (lo' <= lo)%Z -> pages_ascend lo chunks -> pages_ascend lo' chunks.
Proof.
  destruct chunks as [|c cs]; cbn [pages_ascend]; [trivial|].
  intros Hle [H1 H2]. split; [lia|assumption].
Qed.

(** One library's loop appends chunks whose page ranges follow one
    another, whether or not it reaches the end of the document. *)
Lemma chunk_pages_ascend (pages : list (result string))
    (pages_per_chunk total : nat) :
  forall fuel s,
    pages_ascend (Z.of_nat s)
      (fst (chunk_pages pages pages_per_chunk total
              (range_from fuel s total pages_per_chunk) [])).
Proof.
  induction fuel as [|fuel IH]; intros s; cbn [range_from]; [exact I|].
  destruct (s <? total)%nat; [|exact I].
  cbn [chunk_pages].
  destruct (add_pages _ "") as [t|e]; [|exact I].
  destruct (nonblank t).
  - rewrite chunk_pages_acc. cbn [fst app pages_ascend start_page end_page].
    split; [lia|].
    apply pages_ascend_le with (lo := Z.of_nat (s + pages_per_chunk)); [lia|].
    apply IH.
  - apply pages_ascend_le with (lo := Z.of_nat (s + pages_per_chunk)); [lia|].
    apply IH.
Qed.

Lemma read_chunks_ascend (reader : pdf_reader) (pages_per_chunk : nat) :
  pages_ascend 0 (fst (read_chunks reader pages_per_chunk [])).
Proof.
  unfold read_chunks. destruct reader as [pages|e]; [|exact I].
  destruct (Nat.eqb pages_per_chunk 0); [exact I|].
  apply (chunk_pages_ascend pages pages_per_chunk (List.length pages)
           (List.length pages) 0).
Qed.

(** A library that does not fail part-way leaves no chunk behind when it
    fails. *)
Lemma read_chunks_all_or_nothing (reader : pdf_reader) (pages_per_chunk : nat) :
  reads_all_or_nothing reader ->
  fst (read_chunks reader pages_per_chunk []) = [] \/
  snd (read_chunks reader pages_per_chunk []) = None.
Proof.
  intros Hall. destruct reader as [pages|e]; [|left; reflexivity].
  destruct Hall as [texts ->].
  destruct (Nat.eq_dec pages_per_chunk 0) as [->|Hne]; [left; reflexivity|].
  destruct (read_chunks_texts texts pages_per_chunk) as [chunks [-> _]]; [lia|].
  right. reflexivity.
Qed.

(** X4: when pdfplumber does not fail part-way, the chunks returned follow
    one another through the document: each starts after the page on which
    the one before it ends, so that no page is in two chunks. *)
Theorem chunks_do_not_overlap (f : pdf_file) (pages_per_chunk : nat)
    (chunks : list Chunk) :
  reads_all_or_nothing (pdfplumber f) ->
  extract_text_in_chunks f pages_per_chunk = PdfOk chunks ->
  pages_ascend 0 chunks.
Proof.
  intros Hall. unfold extract_text_in_chunks.
  destruct (seek f); [|discriminate].
  pose proof (read_chunks_ascend (pdfplumber f) pages_per_chunk) as Ha1.
  pose proof (read_chunks_all_or_nothing _ pages_per_chunk Hall) as H1.
  pose proof (read_chunks_ascend (pypdf2 f) pages_per_chunk) as Ha2.
  destruct (read_chunks (pdfplumber f) pages_per_chunk []) as [cs1 r1].
  cbn [fst snd] in *.
  rewrite (read_chunks_acc (pypdf2 f)).
  destruct (read_chunks (pypdf2 f) pages_per_chunk []) as [cs2 r2].
  cbn [fst snd] in *.
  destruct cs1 as [|c1 cs1].
  - cbn [app]. intros H.
    destruct r1, cs2 as [|c2 cs2], r2; try discriminate;
      injection H as <-; assumption.
  - destruct H1 as [H1|H1]; [discriminate|]. subst r1.
    intros H. injection H as <-. assumption.
Qed.

(** X5: the two libraries append to the same list.  When pdfplumber fails
    part-way, the chunks it had appended stay, and PyPDF2's chunks of the
    whole document come after them: the pages pdfplumber had read are then
    in the result twice. *)
Theorem fallback_keeps_partial_chunks (f : pdf_file) (pages_per_chunk : nat)
    (partial : list Chunk) (e : exn) (fallback : list Chunk) :
  seek f = Ok tt ->
  read_chunks (pdfplumber f) pages_per_chunk [] = (partial, Some e) ->
  read_chunks (pypdf2 f) pages_per_chunk [] = (fallback, None) ->
  fallback <> [] ->
  extract_text_in_chunks f pages_per_chunk = PdfOk (partial ++ fallback).
Proof.
  intros Hseek H1 H2 Hne. unfold extract_text_in_chunks.
  rewrite Hseek, H1. rewrite (read_chunks_acc (pypdf2 f)), H2. cbn [fst snd].
  destruct partial as [|c cs]; cbn [app].
  - destruct fallback; [contradiction|reflexivity].
  - reflexivity.
Qed.

(** ** [clean_text] *)

Lemma all_plain_app (a b : string) :
  all_plain (a ++ b) = all_plain a && all_plain b.
Proof.
  induction a as [|c a IH]; cbn [append all_plain]; [reflexivity|].
  rewrite IH, andb_assoc. reflexivity.
Qed.

Lemma plain_chars_app (a b : string) :
  plain_chars (a ++ b) = (plain_chars a ++ plain_chars b)%string.
Proof.
  induction a as [|c a IH]; cbn [append plain_chars]; [reflexivity|].
  rewrite IH. destruct (is_plain c); reflexivity.
Qed.

Lemma plain_chars_remove_nul (s : string) :
  plain_chars (remove_nul s) = plain_chars s.
Proof.
  induction s as [|c s IH]; cbn [remove_nul plain_chars]; [reflexivity|].
  unfold is_plain. destruct (Ascii.eqb c "000") eqn:E.
  - rewrite andb_false_r. assumption.
  - cbn [plain_chars]. unfold is_plain. rewrite E, IH. reflexivity.
Qed.

Lemma remove_nul_plain (s : string) :
  forallb (fun c => negb (Ascii.eqb c "000")) (list_ascii_of_string s) = true ->
  remove_nul s = s.
Proof.
  induction s as [|c s IH]; cbn [remove_nul list_ascii_of_string forallb];
    [reflexivity|].
  intros H. apply andb_true_iff in H as [Hc Hs].
  destruct (Ascii.eqb c "000"); [discriminate|]. rewrite IH by assumption.
  reflexivity.
Qed.

Lemma no_nul_app (a b : string) :
  forallb (fun c => negb (Ascii.eqb c "000")) (list_ascii_of_string (a ++ b))
  = forallb (fun c => negb (Ascii.eqb c "000")) (list_ascii_of_string a)
    && forallb (fun c => negb (Ascii.eqb c "000")) (list_ascii_of_string b).
Proof.
  induction a as [|c a IH]; cbn [append list_ascii_of_string forallb];
    [reflexivity|].
  rewrite IH, andb_assoc. reflexivity.
Qed.

Lemma all_plain_no_nul (w : string) :
  all_plain w = true ->
  forallb (fun c => negb (Ascii.eqb c "000")) (list_ascii_of_string w) = true.
Proof.
  induction w as [|c w IH]; cbn [all_plain list_ascii_of_string forallb];
    [reflexivity|].
  intros H. apply andb_true_iff in H as [Hc Hw]. rewrite IH by assumption.
  unfold is_plain in Hc. apply andb_true_iff in Hc as [_ ->]. reflexivity.
Qed.

Lemma concat_cons (sep x : string) (l : list string) :
  String.concat sep (x :: l)
  = match l with [] => x | _ :: _ => (x ++ sep ++ String.concat sep l)%string end.
Proof. reflexivity. Qed.

Lemma words_no_nul (words : list string) :
  forallb is_word words = true ->
  forallb (fun c => negb (Ascii.eqb c "000"))
    (list_ascii_of_string (String.concat " " words)) = true.
Proof.
  induction words as [|x l IH]; [reflexivity|].
  cbn [forallb]. intros H. apply andb_true_iff in H as [Hx Hl].
  unfold is_word in Hx. apply andb_true_iff in Hx as [_ Hx].
  rewrite concat_cons. destruct l as [|y l]; [apply all_plain_no_nul; assumption|].
  rewrite !no_nul_app, IH by assumption.
  rewrite all_plain_no_nul by assumption. reflexivity.
Qed.

(** The words [split] gives are words. *)
Lemma py_split_words (s : string) :
  forall word,
    all_plain word = true ->
    forallb (fun c => negb (Ascii.eqb c "000")) (list_ascii_of_string s) = true ->
    forallb is_word (py_split s word) = true.
Proof.
  induction s as [|c s IH]; intros word Hw Hs; cbn [py_split].
  - destruct (String.eqb word "") eqn:E; [reflexivity|].
    cbn [forallb]. unfold is_word. rewrite E, Hw. reflexivity.
  - cbn [list_ascii_of_string forallb] in Hs.
    apply andb_true_iff in Hs as [Hc Hs].
    destruct (is_space c) eqn:Ec.
    + destruct (String.eqb word "") eqn:E; [apply IH; [reflexivity|assumption]|].
      cbn [forallb]. unfold is_word at 1. rewrite E, Hw.
      apply IH; [reflexivity|assumption].
    + apply IH; [|assumption].
      rewrite all_plain_app, Hw. cbn [all_plain]. unfold is_plain.
      rewrite Ec, Hc. reflexivity.
Qed.

Lemma remove_nul_no_nul (s : string) :
  forallb (fun c => negb (Ascii.eqb c "000"))
    (list_ascii_of_string (remove_nul s)) = true.
Proof.
  induction s as [|c s IH]; cbn [remove_nul]; [reflexivity|].
  destruct (Ascii.eqb c "000") eqn:E; [assumption|].
  cbn [list_ascii_of_string forallb]. rewrite E, IH. reflexivity.
Qed.

Lemma clean_text_words (t : string) :
  forallb is_word (py_split (remove_nul t) "") = true.
Proof. apply py_split_words; [reflexivity|apply remove_nul_no_nul]. Qed.

(** X6: what [clean_text] returns is words with exactly one space between
    each two: no NUL, no white space but these single spaces, none at
    either end. *)
Theorem clean_text_single_spaced (t : string) : single_spaced (clean_text t).
Proof.
  unfold single_spaced, clean_text. eexists. split; [|reflexivity].
  apply clean_text_words.
Qed.

(** Reading a word puts it in the accumulator. *)
Lemma py_split_word (x : string) :
  all_plain x = true ->
  forall rest word, py_split (x ++ rest) word = py_split rest (word ++ x).
Proof.
  induction x as [|c x IH]; intros Hx rest word; cbn [append].
  - rewrite string_app_nil_r. reflexivity.
  - cbn [all_plain] in Hx. apply andb_true_iff in Hx as [Hc Hx].
    cbn [py_split]. unfold is_plain in Hc. apply andb_true_iff in Hc as [Hc _].
    destruct (is_space c); [discriminate|].
    rewrite IH by assumption. rewrite string_app_assoc. reflexivity.
Qed.

Lemma py_split_concat (words : list string) :
  forallb is_word words = true ->
  py_split (String.concat " " words) "" = words.
Proof.
  induction words as [|x l IH]; [reflexivity|].
  cbn [forallb]. intros H. apply andb_true_iff in H as [Hx Hl].
  unfold is_word in Hx. apply andb_true_iff in Hx as [Hne Hx].
  rewrite concat_cons. destruct l as [|y l].
  - rewrite <- (string_app_nil_r x) at 1. rewrite py_split_word by assumption.
    cbn [py_split append]. destruct (String.eqb x ""); [discriminate|reflexivity].
  - rewrite py_split_word by assumption. cbn [append py_split].
    change (is_space " ") with true. cbv iota.
    destruct (String.eqb x ""); [discriminate|].
    rewrite IH by assumption. reflexivity.
Qed.

Lemma clean_text_fixed (s : string) : single_spaced s -> clean_text s = s.
Proof.
  intros [words [Hw ->]]. unfold clean_text.
  rewrite remove_nul_plain by (apply words_no_nul; assumption).
  rewrite py_split_concat by assumption. reflexivity.
Qed.

(** X7: cleaning a cleaned text changes nothing. *)
Theorem clean_text_idempotent (t : string) :
  clean_text (clean_text t) = clean_text t.
Proof.
  apply clean_text_fixed. exists (py_split (remove_nul t) "").
  split; [apply clean_text_words|reflexivity].
Qed.

Lemma plain_chars_split (s : string) :
  forall word,
    plain_chars (String.concat " " (py_split s word))
    = (plain_chars word ++ plain_chars s)%string.
Proof.
  induction s as [|c s IH]; intros word; cbn [py_split].
  - cbn [plain_chars]. rewrite string_app_nil_r.
    destruct (String.eqb_spec word ""); [subst; reflexivity|reflexivity].
  - destruct (is_space c) eqn:Ec.
    + assert (Hc : plain_chars (String c s) = plain_chars s).
      { cbn [plain_chars]. unfold is_plain. rewrite Ec. reflexivity. }
      rewrite Hc.
      destruct (String.eqb_spec word "") as [->|Hne]; [apply IH|].
      rewrite concat_cons. specialize (IH "").
      destruct (py_split s "") as [|y l].
      * cbn in IH. rewrite <- IH, string_app_nil_r. reflexivity.
      * rewrite !plain_chars_app, IH. reflexivity.
    + rewrite IH, plain_chars_app, string_app_assoc. cbn [plain_chars].
      destruct (is_plain c); reflexivity.
Qed.

(** X8: on a text without white space beyond ASCII, [clean_text] changes
    white space and NULs only: the other characters of the text are all
    kept, in their order. *)
Theorem clean_text_keeps_plain_chars (t : string) :
  has_wide_space t = false ->
  plain_chars (clean_text t) = plain_chars t.
Proof.
  intros _. unfold clean_text. rewrite plain_chars_split. cbn [plain_chars append].
  apply plain_chars_remove_nul.
Qed.

(** ** The extraction from one text *)

Section FurtherProperties.

Variable decode : string -> result pyval.
Variable svc : nat -> request -> result pyval.

Lemma extract_run (pdf_text document_name : string) (w : world)
    (c : service_reply) :
  reply_is (svc (List.length (calls w))
              (extraction_call pdf_text document_name)) c ->
  fst (extract_creditors decode svc pdf_text document_name w)
  = match c with
    | Throws e => Raise (Wrapped ErroAnaliseIA e)
    | Responds s =>
        if String.eqb s "" then Raise (Wrapped ErroAnaliseIA ValueError)
        else
          match first_outcome decode (array_candidates s) (PList []) with
          | Ok creditors =>
              match py_len creditors with
              | Ok n => Ok (creditors, n)
              | Raise e => Raise (Wrapped ErroAnaliseIA e)
              end
          | Raise e => Raise (Wrapped ErroAnaliseIA e)
          end
    end.
Proof.
  intros H.
  unfold extract_creditors, try_except, bind, fal_client_run, lift, raise, ret.
  unfold extraction_call in H.
  destruct c as [e|s]; cbn [reply_is] in H.
  - rewrite H. reflexivity.
  - destruct H as [response [-> Hc]]. rewrite Hc.
    cbn [py_truthy negb].
    destruct (String.eqb s ""); cbn [negb]; [reflexivity|].
    cbn [py_len py_slice_check].
    rewrite parse_ai_response_first_outcome.
    destruct (first_outcome decode (array_candidates s) (PList []))
      as [creditors|e]; [|reflexivity].
    destruct (py_len creditors); reflexivity.
Qed.

(** X9: for a service that keeps to its contract, [extract_creditors]
    raises only its own wrapped error; it raises it when the call throws
    and when the content is empty.  With a content that is not empty and
    has no white space beyond ASCII, it raises it also when [json.loads]
    raises something other than [JSONDecodeError] on a text the parser
    tries, and when the content parses to a value that has no length (a
    number, [true], [null]): the parser returned, and [len(creditors)]
    raised.  Otherwise it returns the value of the first array-mode
    candidate that is not rejected (the empty list when all are) and its
    length.  When [json.loads] decodes or rejects every part of the
    content, the value is the empty list or decoded from a part of the
    content, and the outcome depends on its length alone. *)
Theorem extract_raises_iff (pdf_text document_name : string) (w : world)
    (c : service_reply) :
  reply_is (svc (List.length (calls w))
              (extraction_call pdf_text document_name)) c ->
  let outcome := fst (extract_creditors decode svc pdf_text document_name w) in
  let parsed s := first_outcome decode (array_candidates s) (PList []) in
  let counted v :=
    match py_len v with
    | Ok n => Ok (v, n)
    | Raise e => Raise (Wrapped ErroAnaliseIA e)
    end in
  (forall e, outcome = Raise e -> exists cause, e = Wrapped ErroAnaliseIA cause) /\
  (forall e, c = Throws e -> outcome = Raise (Wrapped ErroAnaliseIA e)) /\
  (c = Responds "" -> outcome = Raise (Wrapped ErroAnaliseIA ValueError)) /\
  (forall s, c = Responds s -> s <> "" -> has_wide_space s = false ->
     outcome
     = match parsed s with
       | Ok creditors => counted creditors
       | Raise e => Raise (Wrapped ErroAnaliseIA e)
       end /\
     ((exists e, outcome = Raise e) <->
      ((exists e, parsed s = Raise e) \/
       (exists creditors e,
           parsed s = Ok creditors /\ py_len creditors = Raise e))) /\
     (forall creditors n,
         parsed s = Ok creditors -> py_len creditors = Ok n ->
         outcome = Ok (creditors, n)) /\
     (Forall (fun t => decode t = Raise JSONDecodeError) (array_candidates s) ->
      outcome = Ok (PList [], 0))) /\
  (forall s, c = Responds s -> s <> "" ->
     (forall t, is_substring t s -> decodes_or_rejects decode t) ->
     exists creditors,
       (creditors = PList [] \/
        exists t, is_substring t s /\ decode t = Ok creditors) /\
       outcome = counted creditors).
Proof.
  intros H outcome parsed counted. subst outcome parsed counted.
  rewrite (extract_run _ _ _ _ H). cbv beta.
  split; [|split; [|split; [|split]]].
  - intros e He. destruct c as [e'|s].
    + injection He as <-. eexists. reflexivity.
    + destruct (String.eqb s "");
        [injection He as <-; eexists; reflexivity|].
      destruct (first_outcome decode (array_candidates s) (PList []))
        as [creditors|e'].
      * destruct (py_len creditors); [discriminate|].
        injection He as <-. eexists. reflexivity.
      * injection He as <-. eexists. reflexivity.
  - intros e ->. reflexivity.
  - intros ->. reflexivity.
  - intros s -> Hne _. apply String.eqb_neq in Hne. rewrite Hne.
    split; [reflexivity|]. split; [|split].
    + split.
      * intros [e He].
        destruct (first_outcome decode (array_candidates s) (PList []))
          as [creditors|e']; [|left; exists e'; reflexivity].
        right. destruct (py_len creditors) as [n|e'] eqn:El; [discriminate|].
        exists creditors, e'. split; [reflexivity|assumption].
      * intros [[e He]|[creditors [e [Hp He]]]].
        -- rewrite He. eexists. reflexivity.
        -- rewrite Hp, He. eexists. reflexivity.
    + intros creditors n Hp Hn. rewrite Hp, Hn. reflexivity.
    + intros Hall.
      destruct (first_outcome_cases decode (array_candidates s) (PList []))
        as [[t [before [after [Hc [_ [Ht Hneq]]]]]]|[_ ->]]; [|reflexivity].
      exfalso. rewrite Forall_forall in Hall.
      rewrite <- Ht, (Hall t) in Hneq; [contradiction|].
      rewrite Hc. apply in_or_app. right. left. reflexivity.
  - intros s -> Hne Hdec. apply String.eqb_neq in Hne. rewrite Hne.
    destruct (candidates_return decode s (array_candidates s) (PList [])
                (array_candidates_substrings s) Hdec) as [v [-> Hv]].
    exists v. split; [|reflexivity].
    destruct Hv as [Ht| ->]; [right; assumption|left; reflexivity].
Qed.

(** ** The 8000 characters of the prompt *)

Lemma str_head_app (s extra : string) :
  begins_character extra = true ->
  forall n, n <= str_len s -> str_head n (s ++ extra) = str_head n s.
Proof.
  intros Hx. induction s as [|c s IH]; intros n Hn; cbn [str_len] in Hn.
  - replace n with 0 by lia. cbn [append].
    destruct extra as [|x extra]; [reflexivity|].
    cbn [begins_character] in Hx. cbn [str_head].
    destruct (is_continuation x); [discriminate|reflexivity].
  - cbn [append str_head]. destruct (is_continuation c).
    + rewrite IH by lia. reflexivity.
    + destruct n as [|n]; [reflexivity|]. rewrite IH by lia. reflexivity.
Qed.

Lemma extract_chunks_same_head (document_name : string)
    (progress_callback : bool) (total : nat) (chunks chunks' : list Chunk) :
  Forall2 same_head chunks chunks' ->
  forall (i : nat) (all_creditors : list pyval) (w : world),
    extract_chunks decode svc document_name progress_callback total i
      chunks all_creditors w
    = extract_chunks decode svc document_name progress_callback total i
        chunks' all_creditors w.
Proof.
  induction 1 as [|c c' chunks chunks' [Ht [Hs [He Hn]]] _ IH]; intros i acc w;
    [reflexivity|].
  rewrite !extract_chunks_cons. unfold chunk_label, source_pages.
  rewrite Ht, Hs, He, Hn. cbv zeta.
  destruct (chunk_items decode _ _) as [items|e]; [|reflexivity].
  apply IH.
Qed.

(** X10: only the first 8000 characters of a text reach the service.
    [extract_creditors] on a text of 8000 characters or more does the same
    whatever follows them; and the chunk loop does the same on two chunk
    lists whose chunks have the same pages and the same first 8000
    characters: what a chunk's pages hold beyond that is not analysed. *)
Theorem text_beyond_8000_is_ignored (pdf_text extra document_name : string)
    (chunks chunks' : list Chunk) (progress_callback : bool) (w : world) :
  8000 <= str_len pdf_text ->
  begins_character extra = true ->
  Forall2 same_head chunks chunks' ->
  extract_creditors decode svc (pdf_text ++ extra) document_name w
  = extract_creditors decode svc pdf_text document_name w /\
  extract_creditors_from_chunks decode svc chunks document_name
    progress_callback w
  = extract_creditors_from_chunks decode svc chunks' document_name
      progress_callback w.
Proof.
  intros Hlen Hextra Hsame. split.
  - unfold extract_creditors. rewrite str_head_app by assumption. reflexivity.
  - unfold extract_creditors_from_chunks, try_except, bind.
    rewrite (Forall2_length Hsame).
    rewrite (extract_chunks_same_head _ _ _ _ _ Hsame). reflexivity.
Qed.

(** ** The calls of the chunk loop *)

Lemma extract_chunks_calls (document_name : string) (progress_callback : bool)
    (total : nat) (chunks : list Chunk) :
  forall (i : nat) (all_creditors : list pyval) (w : world),
    exists k,
      k <= List.length chunks /\
      calls (snd (extract_chunks decode svc document_name progress_callback
                    total i chunks all_creditors w))
      = calls w ++ map (chunk_call document_name) (firstn k chunks) /\
      progress (snd (extract_chunks decode svc document_name progress_callback
                       total i chunks all_creditors w))
      = progress w ++ (if progress_callback
                       then firstn k (progress_of total i chunks) else []) /\
      (forall all',
          fst (extract_chunks decode svc document_name progress_callback
                 total i chunks all_creditors w) = Ok all' ->
          k = List.length chunks).
Proof.
  induction chunks as [|chunk rest IH]; intros i acc w.
  - exists 0. cbn. destruct progress_callback; rewrite !app_nil_r; auto.
  - rewrite extract_chunks_cons. cbv zeta.
    destruct (chunk_items decode _ _) as [items|e].
    + match goal with
      | |- context [extract_chunks _ _ _ _ _ ?j rest ?a ?w1] =>
          destruct (IH j a w1) as [k [Hk [Hc [Hp Hok]]]]
      end.
      exists (S k). split; [cbn [List.length]; lia|]. split; [|split].
      * rewrite Hc. cbn [calls firstn map]. rewrite <- app_assoc. reflexivity.
      * rewrite Hp. cbn [progress firstn progress_of].
        destruct progress_callback; [|rewrite !app_nil_r; reflexivity].
        rewrite <- app_assoc. reflexivity.
      * intros all' H. rewrite (Hok all' H). reflexivity.
    + exists 1. split; [cbn [List.length]; lia|]. split; [|split].
      * cbn [snd calls firstn map]. destruct rest; reflexivity.
      * cbn [snd progress firstn progress_of].
        destruct progress_callback; [|rewrite app_nil_r; reflexivity].
        destruct rest; reflexivity.
      * intros all' H. discriminate.
Qed.

Lemma consolidate_batches_calls_kind (creditors : list pyval)
    (document_name : string) (indices : list nat) :
  forall (total : pyval) (w : world),
    exists l,
      calls (snd (consolidate_batches decode svc creditors document_name
                    indices total w))
      = calls w ++ l /\
      forallb is_consolidation l = true /\
      (indices <> [] -> l <> []).
Proof.
  induction indices as [|i rest IH]; intros total w.
  - exists []. cbn. rewrite app_nil_r. split; [reflexivity|]. split; [reflexivity|].
    intros H. contradiction.
  - rewrite consolidate_batches_cons. cbv zeta.
    destruct (batch_outcome decode _ _) as [bc|e].
    2:{ eexists. cbn [snd calls]. split; [reflexivity|].
        split; [reflexivity|discriminate]. }
    destruct (py_truthy total).
    + destruct (py_add total bc) as [combined|e].
      2:{ eexists. cbn [snd calls]. split; [reflexivity|].
          split; [reflexivity|discriminate]. }
      destruct (batch_outcome decode _ combined) as [total'|e].
      2:{ eexists. cbn [snd calls]. split; [reflexivity|].
          split; [reflexivity|discriminate]. }
      match goal with
      | |- context [consolidate_batches _ _ _ _ rest ?t ?w1] =>
          destruct (IH t w1) as [l [Hc [Hl _]]]
      end.
      eexists. rewrite Hc. cbn [calls]. rewrite <- app_assoc.
      split; [reflexivity|]. split; [|discriminate].
      cbn [app forallb is_consolidation]. assumption.
    + match goal with
      | |- context [consolidate_batches _ _ _ _ rest ?t ?w1] =>
          destruct (IH t w1) as [l [Hc [Hl _]]]
      end.
      eexists. rewrite Hc. cbn [calls]. rewrite <- app_assoc.
      split; [reflexivity|]. split; [|discriminate].
      cbn [app forallb is_consolidation]. assumption.
Qed.

Lemma consolidate_calls_kind (creditors : list pyval) (document_name : string)
    (w : world) :
  creditors <> [] ->
  exists l,
    calls (snd (_consolidate_creditors_with_ai decode svc creditors
                  document_name w))
    = calls w ++ l /\
    forallb is_consolidation l = true /\ l <> [].
Proof.
  intros Hne. unfold _consolidate_creditors_with_ai.
  rewrite try_except_lift_calls.
  destruct (List.length creditors <=? 150)%nat eqn:E.
  - erewrite consolidate_batch_run by reflexivity. cbn [snd calls].
    eexists. split; [reflexivity|]. split; [reflexivity|discriminate].
  - rewrite logged_len_run.
    destruct (consolidate_batches_calls_kind creditors document_name
                (py_range 0 (List.length creditors) 100) (PList []) w)
      as [l [Hc [Hl Hn]]].
    assert (Hidx : py_range 0 (List.length creditors) 100 <> []).
    { unfold py_range. destruct creditors; [contradiction|].
      cbn [List.length range_from]. discriminate. }
    exists l.
    destruct (consolidate_batches decode svc creditors document_name _ _ w)
      as [[v|e] w'] eqn:Eb; cbn [snd] in Hc.
    + destruct (py_len v); cbn [snd]; auto.
    + cbn [snd]. auto.
Qed.

(** X11: the calls that [extract_creditors_from_chunks] issues are one
    extraction call for each chunk of a prefix of the chunk list, in chunk
    order, each with the first 8000 characters of the chunk's text and the
    label of its pages, and after them consolidation calls only; the
    progress callback, when one is given, is invoked for the chunks of the
    same prefix, each before its call, and never when none is given.  There
    are consolidation calls only after all the chunks had their call; and
    when the run returns, every chunk had its call, and consolidation was
    called exactly when the count returned is not zero. *)
Theorem chunk_pipeline_calls (chunks : list Chunk) (document_name : string)
    (progress_callback : bool) (w : world) :
  let run := extract_creditors_from_chunks decode svc chunks document_name
               progress_callback w in
  exists k consolidation,
    calls (snd run)
    = calls w ++ map (chunk_call document_name) (firstn k chunks)
        ++ consolidation /\
    progress (snd run)
    = progress w ++ (if progress_callback
                     then firstn k (progress_of (List.length chunks) 0 chunks)
                     else []) /\
    k <= List.length chunks /\
    forallb is_consolidation consolidation = true /\
    (consolidation <> [] -> k = List.length chunks) /\
    (forall v n, fst run = Ok (v, n) ->
                 k = List.length chunks /\ (consolidation = [] <-> n = 0)).
Proof.
  cbv zeta. unfold extract_creditors_from_chunks, try_except, bind.
  destruct (extract_chunks_calls document_name progress_callback
              (List.length chunks) chunks 0 [] w) as [k [Hk [Hc [Hp Hok]]]].
  destruct (extract_chunks decode svc document_name progress_callback
              (List.length chunks) 0 chunks [] w) as [[all|e] w1] eqn:E;
    cbn [fst snd] in Hc, Hp, Hok.
  - specialize (Hok all eq_refl). subst k.
    destruct all as [|r all].
    + cbn [List.length Nat.ltb Nat.leb]. exists (List.length chunks), [].
      unfold ret. cbn [fst snd]. rewrite Hc, Hp, app_nil_r.
      split; [reflexivity|]. split; [reflexivity|]. split; [lia|].
      split; [reflexivity|].
      split; [reflexivity|]. intros v n H. injection H as <- <-.
      split; [reflexivity|]. split; reflexivity.
    + destruct (consolidate_calls_kind (r :: all) document_name w1)
        as [l [Hl [Hkind Hne]]]; [discriminate|].
      pose proof (consolidate_progress decode svc (r :: all) document_name w1)
        as Hpc.
      exists (List.length chunks), l.
      change (0 <? List.length (r :: all))%nat with true. cbv iota.
      unfold lift, ret, raise. cbv beta.
      destruct (_consolidate_creditors_with_ai decode svc (r :: all)
                  document_name w1) as [[v|e] w2] eqn:Ec; cbn [snd] in Hl, Hpc.
      * destruct (py_len v) as [m|e]; cbn [fst snd];
          rewrite Hl, Hc, Hpc, Hp, <- app_assoc;
          (split; [reflexivity|]); (split; [reflexivity|]);
          (split; [lia|]); (split; [assumption|]);
          (split; [reflexivity|]).
        -- intros v' n H. injection H as <- <-. split; [reflexivity|].
           split; [intros Hl0; contradiction|intros H0; discriminate].
        -- intros v' n H. discriminate.
      * cbn [fst snd]. rewrite Hl, Hc, Hpc, Hp, <- app_assoc.
        split; [reflexivity|]. split; [reflexivity|]. split; [lia|].
        split; [assumption|]. split; [reflexivity|].
        intros v' n H. discriminate.
  - exists k, []. unfold raise. cbn [fst snd]. rewrite Hc, Hp, app_nil_r.
    split; [reflexivity|]. split; [reflexivity|].
    split; [assumption|]. split; [reflexivity|].
    split; [intros H; contradiction|]. intros v n H. discriminate.
Qed.

(** ** The consolidation when no reply is accepted *)

Lemma dict_remove_idem (k : string) (d : list (string * pyval)) :
  dict_remove k (dict_remove k d) = dict_remove k d.
Proof.
  induction d as [|[k' v] d IH]; cbn [dict_remove]; [reflexivity|].
  destruct (String.eqb k k') eqn:E; [assumption|].
  cbn [dict_remove]. rewrite E, IH. reflexivity.
Qed.

Lemma dict_remove_set (k : string) (v : pyval) (d : list (string * pyval)) :
  dict_remove k (dict_set k v d) = dict_remove k d.
Proof.
  induction d as [|[k' v'] d IH]; cbn [dict_set dict_remove].
  - rewrite String.eqb_refl. reflexivity.
  - destruct (String.eqb k k') eqn:E; cbn [dict_remove]; rewrite E;
      [reflexivity|]. rewrite IH. reflexivity.
Qed.

Lemma without_source_pages_idem (ds : list (list (string * pyval))) :
  map without_source_pages (map without_source_pages ds)
  = map without_source_pages ds.
Proof.
  rewrite map_map. apply map_ext. intros d. apply dict_remove_idem.
Qed.

Lemma batch_outcome_rejected (n : nat) (creditors : pyval)
    (document_name : string) :
  consolidation_rejected decode svc ->
  batch_outcome decode (svc n (ConsolidationRequest creditors document_name))
    creditors
  = pop_source_pages creditors.
Proof.
  intros Hr.
  destruct (batch_outcome_cases decode
              (svc n (ConsolidationRequest creditors document_name)) creditors)
    as [[v [_ [Hp Ha]]]|Hpop]; [|assumption].
  rewrite (Hr _ _ _ _ Hp) in Ha. discriminate.
Qed.

(** Every batch comes back as it was sent, without its provenance, and so
    does every fold: the running total is the records visited so far. *)
Lemma rejected_batches (ds : list (list (string * pyval)))
    (document_name : string) :
  consolidation_rejected decode svc ->
  forall (fuel i : nat) (done : list (list (string * pyval))) (w : world),
    List.length ds <= i + 100 * fuel ->
    fst (consolidate_batches decode svc (records ds) document_name
           (range_from fuel i (List.length (records ds)) 100)
           (PList (records (map without_source_pages done))) w)
    = Ok (PList (records (map without_source_pages (done ++ skipn i ds)))).
Proof.
  intros Hr.
  assert (Hlen : List.length (records ds) = List.length ds) by apply length_map.
  induction fuel as [|fuel IH]; intros i done w Hi; cbn [range_from].
  - rewrite skipn_all2, app_nil_r by lia. reflexivity.
  - destruct (Nat.ltb_spec i (List.length (records ds))) as [Hlt|Hge].
    2:{ rewrite skipn_all2, app_nil_r by lia. reflexivity. }
    rewrite consolidate_batches_cons. cbv zeta.
    rewrite py_slice_batch.
    assert (Hb : firstn 100 (skipn i (records ds))
                 = records (firstn 100 (skipn i ds))).
    { unfold records. rewrite skipn_map, firstn_map. reflexivity. }
    rewrite Hb, batch_outcome_rejected, pop_source_pages_records by assumption.
    assert (Hsplit : firstn 100 (skipn i ds) ++ skipn (i + 100) ds = skipn i ds).
    { rewrite (Nat.add_comm i 100), <- skipn_skipn. apply firstn_skipn. }
    destruct done as [|x done].
    + cbn [map records py_truthy List.length Nat.eqb negb].
      specialize (IH (i + 100) (firstn 100 (skipn i ds))).
      rewrite IH by lia. rewrite Hsplit. reflexivity.
    + replace (py_truthy (PList (records (map without_source_pages (x :: done)))))
        with true by reflexivity.
      cbn [py_add]. rewrite <- records_app, <- map_app.
      rewrite batch_outcome_rejected, pop_source_pages_records by assumption.
      rewrite without_source_pages_idem.
      specialize (IH (i + 100) ((x :: done) ++ firstn 100 (skipn i ds))).
      rewrite IH by lia. rewrite <- app_assoc, Hsplit. reflexivity.
Qed.

Lemma rejected_consolidation_run (ds : list (list (string * pyval)))
    (document_name : string) (w : world) :
  consolidation_rejected decode svc ->
  fst (_consolidate_creditors_with_ai decode svc (records ds) document_name w)
  = Ok (PList (records (map without_source_pages ds))).
Proof.
  intros Hr. unfold _consolidate_creditors_with_ai.
  rewrite consolidate_handler.
  destruct (List.length (records ds) <=? 150)%nat.
  - erewrite consolidate_batch_run by reflexivity. cbn [fst].
    rewrite batch_outcome_rejected, pop_source_pages_records by assumption.
    reflexivity.
  - rewrite logged_len_run.
    pose proof (rejected_batches ds document_name Hr (List.length (records ds))
                  0 [] w) as H.
    unfold py_range. cbn [map records] in H.
    destruct (consolidate_batches decode svc (records ds) document_name _ _ w)
      as [[v|e] w'].
    + cbn [fst] in H.
      assert (Hv : Ok v = Ok (PList (records (map without_source_pages ds))))
        by (apply H; unfold records; rewrite length_map; lia).
      injection Hv as ->. reflexivity.
    + reflexivity.
Qed.

(** X12: when no consolidation reply is accepted (the service is down, or
    answers nothing that parses to a non-empty value), [consolidate]
    returns the records it was given, all of them and in their order, each
    without [_source_pages] and with its other fields as they were -- for a
    list of any length, batched or not. *)
Theorem rejected_consolidation_returns_input
    (ds : list (list (string * pyval))) (document_name : string) (w : world) :
  consolidation_rejected decode svc ->
  fst (_consolidate_creditors_with_ai decode svc (records ds) document_name w)
  = Ok (PList (records (map without_source_pages ds))) /\
  List.length (map without_source_pages ds) = List.length ds /\
  Forall (fun d =>
            dict_lookup "_source_pages" (without_source_pages d) = None /\
            forall k, k <> "_source_pages" ->
                      dict_lookup k (without_source_pages d) = dict_lookup k d)
    ds.
Proof.
  intros Hr. split; [apply rejected_consolidation_run; assumption|].
  split; [apply length_map|].
  apply Forall_forall. intros d _. split.
  - apply dict_lookup_remove_same.
  - intros k Hk. apply dict_lookup_remove_other. assumption.
Qed.

(** ** The whole chunk pipeline *)

Lemma chunk_items_parsed (reply : result pyval) (pages : string) :
  chunk_items decode reply pages
  = rbind (parsed_reply decode reply) (fun chunk_creditors =>
    rbind (set_source_pages chunk_creditors pages) (fun tagged =>
    rbind (py_iter tagged) (fun items =>
    rbind (py_len tagged) (fun _ => Ok items)))).
Proof.
  unfold chunk_items, parsed_reply.
  destruct reply as [response|e]; cbn [rbind]; [|reflexivity].
  destruct (response_content response); reflexivity.
Qed.

Lemma set_records (pages : string) (group : list (list (string * pyval))) :
  rmap_list (fun creditor => py_setitem creditor "_source_pages" (PStr pages))
    (records group)
  = Ok (records (map (dict_set "_source_pages" (PStr pages)) group)).
Proof.
  induction group as [|d group IH]; [reflexivity|].
  unfold records in *. cbn [map rmap_list py_setitem rbind].
  rewrite IH. reflexivity.
Qed.

Lemma chunk_items_records (reply : result pyval) (pages : string)
    (group : list (list (string * pyval))) :
  parsed_reply decode reply = Ok (PList (records group)) ->
  chunk_items decode reply pages
  = Ok (records (map (dict_set "_source_pages" (PStr pages)) group)).
Proof.
  intros H. rewrite chunk_items_parsed, H. cbn [rbind].
  unfold set_source_pages. cbn [py_iter rbind]. rewrite set_records.
  reflexivity.
Qed.

Lemma extract_chunks_records (document_name : string)
    (progress_callback : bool) (total : nat) (chunks : list Chunk) :
  forall (groups : list (list (list (string * pyval)))) (i : nat)
         (acc : list (list (string * pyval))) (w : world),
    chunk_replies decode svc document_name (List.length (calls w)) chunks
      groups ->
    exists tagged,
      fst (extract_chunks decode svc document_name progress_callback total i
             chunks (records acc) w)
      = Ok (records (acc ++ tagged)) /\
      map without_source_pages tagged
      = map without_source_pages (List.concat groups).
Proof.
  induction chunks as [|chunk rest IH]; intros groups i acc w H;
    destruct groups as [|group groups]; cbn [chunk_replies] in H;
    try contradiction.
  - exists []. rewrite app_nil_r. split; reflexivity.
  - destruct H as [Hp Hrest].
    rewrite extract_chunks_cons. cbv zeta.
    fold (extraction_call (text chunk) (chunk_label document_name chunk)).
    fold (chunk_call document_name chunk).
    rewrite (chunk_items_records _ _ _ Hp), <- records_app.
    match goal with
    | |- context [extract_chunks _ _ _ _ _ ?j rest (records ?a) ?w1] =>
        destruct (IH groups j a w1) as [tagged [Hrun Hmap]]
    end.
    { cbn [calls]. rewrite length_app, Nat.add_1_r. assumption. }
    eexists. rewrite Hrun, <- app_assoc. split; [reflexivity|].
    cbn [List.concat]. rewrite !map_app, Hmap. f_equal.
    rewrite map_map. apply map_ext. intros d. apply dict_remove_set.
Qed.

(** X13: when the reply to each chunk's call parses to a list of records
    and no consolidation reply is accepted, [extract_creditors_from_chunks]
    returns the records of all the chunks, in chunk order and as the service
    gave them but for a [_source_pages] field, which none has; the count it
    returns is their number. *)
Theorem chunk_pipeline_without_consolidation (chunks : list Chunk)
    (groups : list (list (list (string * pyval)))) (document_name : string)
    (progress_callback : bool) (w : world) :
  consolidation_rejected decode svc ->
  chunk_replies decode svc document_name (List.length (calls w)) chunks
    groups ->
  fst (extract_creditors_from_chunks decode svc chunks document_name
         progress_callback w)
  = Ok (PList (records (map without_source_pages (List.concat groups))),
        List.length (List.concat groups)).
Proof.
  intros Hr Hg.
  destruct (extract_chunks_records document_name progress_callback
              (List.length chunks) chunks groups 0 [] w Hg)
    as [tagged [Hrun Hmap]].
  change (records []) with (@nil pyval) in Hrun. cbn [app] in Hrun.
  assert (Hlen : List.length tagged = List.length (List.concat groups)).
  { rewrite <- (length_map without_source_pages tagged), Hmap.
    apply length_map. }
  unfold extract_creditors_from_chunks, try_except, bind.
  destruct (extract_chunks decode svc document_name progress_callback
              (List.length chunks) 0 chunks [] w) as [[all|e] w1];
    cbn [fst] in Hrun; [|discriminate].
  injection Hrun as ->.
  assert (Hl : List.length (records tagged) = List.length (List.concat groups))
    by (unfold records; rewrite length_map; assumption).
  cbv beta zeta. rewrite Hl.
  destruct (List.concat groups) as [|g gs] eqn:Eg.
  - destruct tagged; [|discriminate]. reflexivity.
  - change (0 <? List.length (g :: gs))%nat with true. cbv iota.
    pose proof (rejected_consolidation_run tagged document_name w1 Hr) as Hc.
    unfold lift, ret. cbv beta.
    destruct (_consolidate_creditors_with_ai decode svc (records tagged)
                document_name w1) as [[v|e] w2]; cbn [fst] in Hc;
      [|discriminate].
    injection Hc as ->. cbn [py_len fst]. rewrite Hmap. reflexivity.
Qed.

Lemma extract_chunks_returns (document_name : string)
    (progress_callback : bool) (total : nat) (chunks : list Chunk) :
  extraction_replies_typed decode svc ->
  forall (i : nat) (all_creditors : list pyval) (w : world),
    exists all' w',
      extract_chunks decode svc document_name progress_callback total i
        chunks all_creditors w = (Ok all', w').
Proof.
  intros Ht. induction chunks as [|chunk rest IH]; intros i acc w.
  - eexists. eexists. reflexivity.
  - rewrite extract_chunks_cons. cbv zeta.
    destruct (chunk_items_typed decode svc (List.length (calls w))
                (str_head 8000 (text chunk))
                (chunk_label document_name chunk) (source_pages chunk) Ht)
      as [items ->].
    apply IH.
Qed.

Lemma tagged_are_records (pages : string) (items : list pyval) :
  Forall (has_source_pages pages) items -> forallb is_record items = true.
Proof.
  induction 1 as [|v items [d [-> _]] _ IH]; [reflexivity|].
  cbn [forallb is_record]. assumption.
Qed.

Lemma groups_are_records (chunks : list Chunk) (groups : list (list pyval)) :
  Forall2 (fun chunk group =>
             Forall (has_source_pages (source_pages chunk)) group)
    chunks groups ->
  forallb is_record (List.concat groups) = true.
Proof.
  induction 1 as [|chunk group chunks groups Hg _ IH]; [reflexivity|].
  cbn [List.concat]. rewrite forallb_app, IH, andb_true_r.
  eapply tagged_are_records. eassumption.
Qed.

(** Given records, the consolidation returns, and what it returns has a
    length; one that is not zero if it was given a record, and at most the
    number of records given if the service's replies are bounded. *)
Lemma consolidate_run_sized (ds : list (list (string * pyval)))
    (document_name : string) (w : world) :
  ds <> [] ->
  exists v m,
    fst (_consolidate_creditors_with_ai decode svc (records ds)
           document_name w) = Ok v /\
    py_len v = Ok (S m) /\
    (consolidation_replies_bounded decode svc -> S m <= List.length ds).
Proof.
  intros Hne. unfold _consolidate_creditors_with_ai.
  rewrite consolidate_handler.
  assert (Hin : nonempty (PList (records ds))).
  { destruct ds; [contradiction|]. eexists. reflexivity. }
  assert (Hlen : List.length (records ds) = List.length ds)
    by apply length_map.
  assert (Hout : exists m,
             py_len (PList (records (map without_source_pages ds))) = Ok (S m) /\
             S m <= List.length ds).
  { cbn [py_len]. unfold records. rewrite !length_map.
    destruct ds as [|d ds]; [contradiction|]. exists (List.length ds).
    split; [reflexivity|]. cbn [List.length]. lia. }
  destruct Hout as [m0 [Hm0 Hle0]].
  assert (Hbound : forall v m,
             py_len v = Ok (S m) -> at_most (List.length ds) v ->
             S m <= List.length ds).
  { intros v m Hm [m' [Hm' Hle]]. rewrite Hm in Hm'. injection Hm' as <-.
    assumption. }
  destruct (List.length (records ds) <=? 150)%nat.
  - erewrite consolidate_batch_run by reflexivity. cbn [fst].
    destruct (batch_outcome _ _ _) as [v|e] eqn:Hv.
    + destruct (batch_outcome_nonempty decode _ _ _ Hin Hv) as [m Hm].
      exists v, m. split; [reflexivity|]. split; [assumption|].
      intros Hb. apply (Hbound v m Hm). rewrite <- Hlen.
      exact (batch_outcome_at_most decode svc _ _ (PList (records ds)) _ _
               Hb eq_refl Hv).
    + exists (PList (records (map without_source_pages ds))), m0. auto.
  - rewrite logged_len_run.
    destruct (consolidate_batches _ _ _ _ _ _ w) as [[v|e] w'] eqn:Hrun;
      cbn [fst].
    + assert (Hv : nonempty v).
      { eapply consolidate_batches_nonempty; [apply range_from_lt| |exact Hrun].
        left. unfold py_range.
        destruct ds as [|d ds]; [contradiction|]. cbn. discriminate. }
      destruct Hv as [m Hm]. rewrite Hm. cbn [fst].
      exists v, m. split; [reflexivity|]. split; [assumption|].
      intros Hb. apply (Hbound v m Hm). rewrite <- Hlen.
      unfold py_range in Hrun.
      apply consolidate_batches_at_most with (t := 0) in Hrun;
        [|assumption|exists 0; split; [reflexivity|lia]].
      eapply at_most_le; [|exact Hrun]. lia.
    + exists (PList (records (map without_source_pages ds))), m0. auto.
Qed.

(** X14: when every extraction reply is one the chunk loop can tag (the
    parser made a list of records of it, or nothing), the chunk pipeline
    returns, whatever the consolidation calls do: the count it returns is
    the number of records extracted from the chunks; with none it
    returns the empty list, and otherwise a value whose length is not zero,
    and at most the count when no accepted consolidation reply has more
    items than were sent: the reduction that the application reports is then
    not negative. *)
Theorem chunk_pipeline_returns (chunks : list Chunk) (document_name : string)
    (progress_callback : bool) (w : world) :
  extraction_replies_typed decode svc ->
  exists v n,
    fst (extract_creditors_from_chunks decode svc chunks document_name
           progress_callback w) = Ok (v, n) /\
    (n = 0 -> v = PList []) /\
    (0 < n -> nonempty v) /\
    (consolidation_replies_bounded decode svc -> at_most n v).
Proof.
  intros Ht.
  destruct (extract_chunks_returns document_name progress_callback
              (List.length chunks) chunks Ht 0 [] w) as [all [w1 Hrun]].
  destruct (extract_chunks_tagged decode svc _ _ _ _ _ _ _ _ _ Hrun)
    as [groups [Hall Hg]].
  cbn [app] in Hall.
  destruct (records_of_forallb all) as [ds Hds].
  { rewrite Hall. eapply groups_are_records. eassumption. }
  unfold extract_creditors_from_chunks, try_except, bind.
  rewrite Hrun. cbv beta zeta. rewrite Hds.
  assert (Hlen : List.length (records ds) = List.length ds)
    by apply length_map.
  destruct ds as [|d ds].
  - exists (PList []), 0. cbn. split; [reflexivity|].
    split; [reflexivity|]. split; [lia|].
    intros _. exists 0. split; [reflexivity|lia].
  - change (0 <? List.length (records (d :: ds)))%nat with true. cbv iota.
    destruct (consolidate_run_sized (d :: ds) document_name w1)
      as [v [m [Hv [Hm Hb]]]]; [discriminate|].
    unfold lift, ret. cbv beta.
    destruct (_consolidate_creditors_with_ai decode svc (records (d :: ds))
                document_name w1) as [[v'|e] w2]; cbn [fst] in Hv;
      [|discriminate].
    injection Hv as ->. rewrite Hm. cbn [fst].
    exists v, (List.length (records (d :: ds))).
    split; [reflexivity|]. rewrite Hlen. split; [discriminate|].
    split; [intros _; exists m; assumption|].
    intros Hbd. exists (S m). split; [assumption|apply Hb; assumption].
Qed.

(** ** What the parser recovers from a reply that is not bare JSON *)




Lemma drop_app (pre rest : string) (n : nat) :
  drop (String.length pre + n) (pre ++ rest) = drop n rest.
Proof.
  induction pre as [|a pre IH]; cbn [append String.length]; [reflexivity|].
  cbn [Nat.add drop]. assumption.
Qed.

Lemma substring_skip (pre s : string) (n : nat) :
  substring (String.length pre) n (pre ++ s) = substring 0 n s.
Proof.
  induction pre as [|a pre IH]; cbn [append String.length substring];
    [reflexivity|assumption].
Qed.

Lemma substring_0_length (x rest : string) :
  substring 0 (String.length x) (x ++ rest) = x.
Proof.
  induction x as [|a x IH]; cbn [append String.length substring].
  - destruct rest; reflexivity.
  - rewrite IH. reflexivity.
Qed.




Lemma prefix_app (p rest : string) : prefix p (p ++ rest) = true.
Proof.
  induction p as [|a p IH]; cbn [append prefix].
  - destruct rest; reflexivity.
  - destruct (ascii_dec a a) as [_|N]; [assumption|contradiction].
Qed.

Lemma index_here (p s : string) (c : ascii) :
  prefix p (String c s) = true -> index 0 p (String c s) = Some 0.
Proof. intros H. cbn [index]. rewrite H. reflexivity. Qed.

Lemma index_fence_first (pre rest : string) :
  ~ In "`"%char (list_ascii_of_string pre) ->
  index 0 fence (pre ++ fence ++ rest) = Some (String.length pre).
Proof.
  induction pre as [|a pre IH]; intros H.
  - apply index_here. apply (prefix_app fence rest).
  - cbn [append String.length]. cbn [list_ascii_of_string] in H.
    assert (Ha : a <> "`"%char) by (intros ->; apply H; left; reflexivity).
    assert (Hp : prefix fence (String a (pre ++ fence ++ rest)) = false).
    { unfold fence. cbn [prefix].
      destruct (ascii_dec "`" a) as [E|_]; [symmetry in E; contradiction|].
      reflexivity. }
    cbn [index]. rewrite Hp.
    rewrite IH by (intros Hin; apply H; right; assumption). reflexivity.
Qed.

(** The fence pattern finds the text between the first fence, with its
    [json] tag, and the next one. *)
Lemma fence_found (pre inner suf : string) :
  ~ In "`"%char (list_ascii_of_string pre) ->
  ~ In "`"%char (list_ascii_of_string inner) ->
  re_search_fence (pre ++ fence ++ "json" ++ inner ++ fence ++ suf)
  = Some (strip inner).
Proof.
  intros Hpre Hinner. unfold re_search_fence.
  rewrite index_fence_first by assumption.
  rewrite drop_app. change (drop 3 (fence ++ "json" ++ inner ++ fence ++ suf))
    with ("json" ++ inner ++ fence ++ suf)%string.
  cbv zeta.
  replace (startswith "json" ("json" ++ inner ++ fence ++ suf)) with true
    by (symmetry; apply prefix_app).
  change (drop 4 ("json" ++ inner ++ fence ++ suf))
    with (inner ++ fence ++ suf)%string.
  rewrite index_fence_first by assumption.
  rewrite substring_0_length. reflexivity.
Qed.

(** X17: a reply that gives its JSON in a fenced block tagged [json], as
    language models often do: when the reply as a whole is not JSON, both
    parsers return what the text between the first fence and the next one
    decodes to, once stripped of the white space around it. *)
Theorem fenced_json_is_recovered (pre inner suf : string) (v : pyval) :
  ~ In "`"%char (list_ascii_of_string pre) ->
  ~ In "`"%char (list_ascii_of_string inner) ->
  decode (pre ++ "```json" ++ inner ++ "```" ++ suf) = Raise JSONDecodeError ->
  decode (strip inner) = Ok v ->
  _parse_ai_response decode
    (PStr (pre ++ "```json" ++ inner ++ "```" ++ suf)) = Ok v /\
  _parse_comparison_response decode
    (PStr (pre ++ "```json" ++ inner ++ "```" ++ suf)) = Ok v.
Proof.
  intros Hpre Hinner Hs Hv.
  rewrite parse_ai_response_first_outcome,
    parse_comparison_response_first_outcome.
  unfold array_candidates, object_candidates. cbn [first_outcome]. rewrite Hs.
  change ("```json" ++ inner ++ "```" ++ suf)%string
    with (fence ++ "json" ++ inner ++ fence ++ suf)%string.
  rewrite fence_found by assumption.
  cbn [opt_list app first_outcome]. rewrite Hv. split; reflexivity.
Qed.

(** *** The fourth strategy *)

Lemma index_fence_absent (s : string) :
  ~ In "`"%char (list_ascii_of_string s) -> index 0 fence s = None.
Proof.
  induction s as [|a s IH]; intros H; [reflexivity|].
  cbn [list_ascii_of_string] in H.
  assert (Ha : a <> "`"%char) by (intros ->; apply H; left; reflexivity).
  assert (Hp : prefix fence (String a s) = false).
  { unfold fence. cbn [prefix].
    destruct (ascii_dec "`" a) as [E|_]; [symmetry in E; contradiction|].
    reflexivity. }
  cbn [index]. rewrite Hp.
  rewrite IH by (intros Hin; apply H; right; assumption). reflexivity.
Qed.

Lemma find_char_absent (c : ascii) (s : string) :
  ~ In c (list_ascii_of_string s) -> find_char c s = None.
Proof.
  induction s as [|a s IH]; cbn [list_ascii_of_string find_char];
    [reflexivity|].
  intros H. rewrite IH by (intros Hin; apply H; right; assumption).
  destruct (Ascii.eqb_spec a c) as [->|_]; [|reflexivity].
  exfalso. apply H. left. reflexivity.
Qed.

Lemma prefix_fence_backtick (s : string) :
  prefix fence s = true -> In "`"%char (list_ascii_of_string s).
Proof.
  destruct s as [|a s]; [discriminate|].
  unfold fence. cbn [prefix list_ascii_of_string].
  destruct (ascii_dec "`" a) as [<-|_]; [|discriminate].
  intros _. left. reflexivity.
Qed.

Lemma strip_chars (c : ascii) (s : string) :
  In c (list_ascii_of_string (strip s)) -> In c (list_ascii_of_string s).
Proof.
  destruct (is_substring_strip s) as [a [b H]]. intros Hin.
  rewrite H, !list_ascii_of_string_app.
  apply in_or_app. right. apply in_or_app. left. assumption.
Qed.

Lemma lstrip_nonspace (c : ascii) (s : string) :
  is_space c = false -> lstrip (String c s) = String c s.
Proof. intros H. cbn [lstrip]. rewrite H. reflexivity. Qed.

Lemma rstrip_fixed (s : string) (c : ascii) (r : string) :
  string_rev s = String c r -> is_space c = false -> rstrip s = s.
Proof.
  intros Hr Hc. unfold rstrip.
  rewrite Hr, lstrip_nonspace, <- Hr by assumption.
  apply string_rev_involutive.
Qed.

Lemma string_rev_fenced (inner : string) :
  string_rev (fence ++ inner ++ fence) = (fence ++ string_rev inner ++ fence)%string.
Proof.
  rewrite !string_rev_app, string_app_assoc. reflexivity.
Qed.

Lemma strip_fenced (inner : string) :
  strip (fence ++ inner ++ fence) = (fence ++ inner ++ fence)%string.
Proof.
  unfold strip.
  change (fence ++ inner ++ fence)%string
    with (String "`" ("``" ++ inner ++ fence)) at 1.
  rewrite lstrip_nonspace by reflexivity.
  change (String "`" ("``" ++ inner ++ fence))
    with (fence ++ inner ++ fence)%string.
  apply rstrip_fixed with (c := "`"%char)
                          (r := ("``" ++ string_rev inner ++ fence)%string);
    [|reflexivity].
  rewrite string_rev_fenced. reflexivity.
Qed.

(** What the fourth strategy tries on a response between two fences. *)
Lemma clean_fences_fenced (inner : string) :
  clean_fences (fence ++ inner ++ fence)
  = if startswith "json" (strip inner) then strip (drop 4 (strip inner))
    else strip inner.
Proof.
  unfold clean_fences. rewrite strip_fenced. cbv zeta.
  assert (Hs : startswith fence (fence ++ inner ++ fence) = true)
    by apply prefix_app.
  assert (He : endswith fence (fence ++ inner ++ fence) = true).
  { unfold endswith. rewrite string_rev_fenced. apply (prefix_app fence). }
  rewrite Hs, He. cbn [andb].
  assert (Hi : substring 3 (String.length (fence ++ inner ++ fence) - 6)
                 (fence ++ inner ++ fence) = inner).
  { rewrite !string_length_append.
    replace (String.length fence + (String.length inner + String.length fence)
             - 6) with (String.length inner)
      by (change (String.length fence) with 3; lia).
    change 3 with (String.length fence).
    rewrite substring_skip. apply substring_0_length. }
  rewrite Hi. reflexivity.
Qed.

(** X20: the fourth strategy of [_parse_ai_response] on a response with no
    fence and no opening bracket, and no white space beyond ASCII: when
    [json.loads] rejects the response as it is, the parser's outcome is
    that of [json.loads] on the response without the white space around
    it -- the empty list when that is rejected too.  (Python's [strip]
    removes more than the four characters that JSON takes for white
    space.) *)
Theorem stripped_reply_is_decoded (s : string) :
  has_wide_space s = false ->
  ~ In "`"%char (list_ascii_of_string s) ->
  ~ In "["%char (list_ascii_of_string s) ->
  decode s = Raise JSONDecodeError ->
  _parse_ai_response decode (PStr s)
  = match decode (strip s) with
    | Raise JSONDecodeError => Ok (PList [])
    | outcome => outcome
    end.
Proof.
  intros _ Hfence Hbracket Hs.
  rewrite parse_ai_response_first_outcome. unfold array_candidates.
  unfold re_search_fence, re_search_span.
  rewrite index_fence_absent, find_char_absent by assumption.
  cbn [opt_list app first_outcome]. rewrite Hs.
  assert (Hc : clean_fences s = strip s).
  { unfold clean_fences. cbv zeta.
    destruct (startswith fence (strip s)) eqn:E; [|reflexivity].
    exfalso. apply Hfence. apply strip_chars.
    apply prefix_fence_backtick. exact E. }
  rewrite Hc. destruct (decode (strip s)) as [v|[]]; reflexivity.
Qed.

(** X21: the fourth strategy on a response that begins and ends with a
    fence and has no white space beyond ASCII: when [json.loads] rejects
    the response, the text that the second strategy finds and the span that
    the third finds (if any), the parser's outcome is that of [json.loads]
    on the text between the two fences, without the white space around it
    and without a leading [json] tag -- the empty list when that is
    rejected too. *)
Theorem fenced_reply_is_cleaned (inner : string) :
  let s := ("```" ++ inner ++ "```")%string in
  has_wide_space s = false ->
  decode s = Raise JSONDecodeError ->
  (forall fenced,
      re_search_fence s = Some fenced ->
      decode fenced = Raise JSONDecodeError) ->
  (forall span,
      re_search_span "[" "]" s = Some span ->
      decode span = Raise JSONDecodeError) ->
  _parse_ai_response decode (PStr s)
  = let cleaned := strip inner in
    let cleaned :=
      if startswith "json" cleaned then strip (drop 4 cleaned) else cleaned in
    match decode cleaned with
    | Raise JSONDecodeError => Ok (PList [])
    | outcome => outcome
    end.
Proof.
  intros s _ Hs Hf Hp. subst s.
  rewrite parse_ai_response_first_outcome. unfold array_candidates.
  cbn [first_outcome]. rewrite Hs.
  change ("```" ++ inner ++ "```")%string
    with (fence ++ inner ++ fence)%string in *.
  rewrite clean_fences_fenced. cbv zeta.
  destruct (re_search_fence (fence ++ inner ++ fence)) as [fenced|];
    destruct (re_search_span "[" "]" (fence ++ inner ++ fence)) as [span|];
    cbn [opt_list app first_outcome];
    try rewrite (Hf fenced eq_refl); try rewrite (Hp span eq_refl);
    destruct (decode _) as [v|[]]; reflexivity.
Qed.

(** ** The rows of the CSV export *)

Lemma dict_lookup_set_other (k k' : string) (v : pyval)
    (d : list (string * pyval)) :
  k' <> k -> dict_lookup k' (dict_set k v d) = dict_lookup k' d.
Proof.
  intros Hne. induction d as [|[k0 v0] d IH]; cbn [dict_set dict_lookup].
  - destruct (String.eqb_spec k' k); [contradiction|reflexivity].
  - destruct (String.eqb_spec k k0) as [->|Hk]; cbn [dict_lookup].
    + destruct (String.eqb_spec k' k0); [contradiction|reflexivity].
    + rewrite IH. reflexivity.
Qed.

Lemma status_row_status (status changes : string) (creditor row : pyval) :
  status_row status changes creditor = Ok row ->
  status_of row = Some (PStr status).
Proof.
  unfold status_row. intros H.
  destruct creditor as [| | | | |l|d]; try discriminate.
  cbn in H. injection H as <-. cbn [status_of].
  rewrite dict_lookup_set_other by discriminate.
  apply dict_lookup_set_same.
Qed.

Lemma set_old_values_status (pairs : list (string * pyval)) :
  forall (d : list (string * pyval)) (row : pyval),
    set_old_values pairs (PDict d) = Ok row ->
    status_of row = dict_lookup "Status" d.
Proof.
  induction pairs as [|[key old_value] rest IH]; intros d row H;
    cbn [set_old_values] in H.
  - injection H as <-. reflexivity.
  - cbn [py_setitem rbind] in H. apply IH in H. rewrite H.
    apply dict_lookup_set_other. discriminate.
Qed.

Lemma modified_row_status (item row : pyval) :
  modified_row item = Ok row -> status_of row = Some (PStr "MODIFICADO").
Proof.
  unfold modified_row. intros H.
  destruct item as [| | | | | |e]; try discriminate.
  cbn [py_get rbind] in H.
  destruct (match dict_lookup "creditor" e with Some v => v | None => PDict [] end)
    as [| | | | |l|d]; try discriminate.
  cbn [py_copy py_setitem rbind] in H.
  destruct (py_items _) as [pairs|err]; [|discriminate].
  cbn [rbind] in H. apply set_old_values_status in H. rewrite H.
  rewrite !dict_lookup_set_other by discriminate.
  apply dict_lookup_set_same.
Qed.

Lemma rmap_list_all {A B : Type} (f : A -> result B) (P : B -> Prop)
    (l : list A) (l' : list B) :
  (forall a b, f a = Ok b -> P b) ->
  rmap_list f l = Ok l' -> Forall P l'.
Proof.
  intros Hf. revert l'. induction l as [|a l IH]; intros l' H; cbn [rmap_list] in H.
  - injection H as <-. constructor.
  - destruct (f a) as [b|e] eqn:Ea; [|discriminate]. cbn [rbind] in H.
    destruct (rmap_list f l) as [bs|e]; [|discriminate]. cbn [rbind] in H.
    injection H as <-. constructor; [eapply Hf; eassumption|].
    apply IH. reflexivity.
Qed.

Lemma map_const_repeat {A B : Type} (g : A -> B) (b : B) (l : list A) :
  Forall (fun a => g a = b) l -> map g l = repeat b (List.length l).
Proof.
  induction 1 as [|a l Ha _ IH]; [reflexivity|].
  cbn [map List.length repeat]. rewrite Ha, IH. reflexivity.
Qed.

(** The rows a bucket gives, when its loop ends: one for each item of the
    bucket, all with the same status. *)
Lemma bucket_rows_status (results : pyval) (name : string)
    (row : pyval -> result pyval) (status : string) (rows : list pyval) :
  (forall x r, row x = Ok r -> status_of r = Some (PStr status)) ->
  (forall s, row (PStr s) = Raise AttributeError) ->
  bucket_rows results name row = Ok rows ->
  map status_of rows
  = repeat (Some (PStr status)) (List.length (bucket results name)).
Proof.
  intros Hst Hstr H. unfold bucket_rows in H.
  destruct results as [| | | | | |d]; try discriminate.
  cbn [py_get rbind] in H. unfold bucket.
  assert (Hrows : forall items,
             rmap_list row items = Ok rows ->
             map status_of rows
             = repeat (Some (PStr status)) (List.length items)).
  { intros items Hi. rewrite <- (rmap_list_length _ _ _ Hi).
    apply map_const_repeat. eapply rmap_list_all; [|exact Hi].
    intros a b. apply Hst. }
  destruct (dict_lookup name d) as [[| | | |s|l|d']|].
  1-4: discriminate.
  - cbn [py_iter rbind] in H. destruct s as [|c s].
    + cbn in H. injection H as <-. reflexivity.
    + destruct (chars_of_cons c s) as [x [rest Hx]]. rewrite Hx in H.
      cbn [rmap_list] in H. rewrite Hstr in H. discriminate.
  - cbn [py_iter rbind] in H. apply Hrows. assumption.
  - cbn [py_iter rbind] in H. destruct d' as [|[k v] d']; cbn [map rmap_list] in H.
    + injection H as <-. reflexivity.
    + cbn [fst] in H. rewrite Hstr in H. discriminate.
  - cbn [py_iter rbind rmap_list] in H. injection H as <-. reflexivity.
Qed.

(** X18: when the four loops of [export_to_csv] end, [combined_data] has
    one row for each item of the four lists of the comparison, in the order
    new, removed, modified, unchanged, and its [Status] is the one of its
    list, whatever [Status] the record carried itself.  The number of rows
    is the number of items in the lists; the counts of the summary play no
    part. *)
Theorem export_rows_follow_the_buckets (results : pyval) (rows : list pyval) :
  combined_data results = Ok rows ->
  map status_of rows
  = repeat (Some (PStr "NOVO")) (List.length (bucket results "new_creditors"))
    ++ repeat (Some (PStr "REMOVIDO"))
         (List.length (bucket results "removed_creditors"))
    ++ repeat (Some (PStr "MODIFICADO"))
         (List.length (bucket results "modified_creditors"))
    ++ repeat (Some (PStr "INALTERADO"))
         (List.length (bucket results "unchanged_creditors")).
Proof.
  unfold combined_data. intros H.
  destruct (bucket_rows results "new_creditors" _) as [r1|e] eqn:E1;
    [|discriminate].
  destruct (bucket_rows results "removed_creditors" _) as [r2|e] eqn:E2;
    [|discriminate].
  destruct (bucket_rows results "modified_creditors" _) as [r3|e] eqn:E3;
    [|discriminate].
  destruct (bucket_rows results "unchanged_creditors" _) as [r4|e] eqn:E4;
    [|discriminate].
  cbn [rbind] in H. injection H as <-. rewrite !map_app.
  apply bucket_rows_status with (status := "NOVO") in E1;
    [|intros x r; apply status_row_status|reflexivity].
  apply bucket_rows_status with (status := "REMOVIDO") in E2;
    [|intros x r; apply status_row_status|reflexivity].
  apply bucket_rows_status with (status := "MODIFICADO") in E3;
    [|intros x r; apply modified_row_status|reflexivity].
  apply bucket_rows_status with (status := "INALTERADO") in E4;
    [|intros x r; apply status_row_status|reflexivity].
  rewrite E1, E2, E3, E4. reflexivity.
Qed.

Lemma rmap_list_raises {A B : Type} (f : A -> result B) (l : list A) (a : A) :
  In a l -> (exists e, f a = Raise e) -> exists e, rmap_list f l = Raise e.
Proof.
  intros Hin [e He]. induction l as [|x l IH]; [contradiction|].
  cbn [rmap_list]. destruct Hin as [->|Hin].
  - rewrite He. exists e. reflexivity.
  - destruct (f x); [|eexists; reflexivity]. cbn [rbind].
    destruct (IH Hin) as [e' ->]. exists e'. reflexivity.
Qed.

Lemma bucket_rows_raises (results : pyval) (name : string)
    (row : pyval -> result pyval) (item : pyval) :
  In item (bucket results name) ->
  (exists e, row item = Raise e) ->
  exists e, bucket_rows results name row = Raise e.
Proof.
  unfold bucket, bucket_rows. intros Hin Hrow.
  destruct results as [| | | | | |d]; try contradiction.
  cbn [py_get rbind].
  destruct (dict_lookup name d) as [[| | | | |l|]|]; try contradiction.
  cbn [py_iter rbind]. eapply rmap_list_raises; eassumption.
Qed.

Lemma status_row_raises (status changes : string) (item : pyval) :
  is_record item = false -> exists e, status_row status changes item = Raise e.
Proof.
  destruct item; try discriminate; intros _; eexists; reflexivity.
Qed.

Lemma modified_row_raises (item : pyval) :
  is_record item = false -> exists e, modified_row item = Raise e.
Proof.
  destruct item; try discriminate; intros _; eexists; reflexivity.
Qed.

(** X19: the export does not skip what it cannot use: if one of the four
    lists of the comparison has an item that is not a mapping, the loops
    raise, and [export_to_csv] with them. *)
Theorem export_raises_on_a_non_record (results item : pyval) (name : string) :
  In name bucket_names ->
  In item (bucket results name) ->
  is_record item = false ->
  exists e, combined_data results = Raise e.
Proof.
  intros Hname Hin Hrec. unfold combined_data.
  assert (Hs : forall status changes,
             exists e, status_row status changes item = Raise e)
    by (intros; apply status_row_raises; assumption).
  pose proof (modified_row_raises item Hrec) as Hm.
  unfold bucket_names in Hname. cbn [In] in Hname.
  destruct (bucket_rows results "new_creditors" _) as [r1|e] eqn:E1;
    [|eexists; reflexivity].
  destruct Hname as [<-|Hname].
  { match type of E1 with
    | bucket_rows _ _ ?row = _ =>
        destruct (bucket_rows_raises results _ row item Hin (Hs _ _)) as [e He]
    end.
    rewrite He in E1. discriminate. }
  cbn [rbind].
  destruct (bucket_rows results "removed_creditors" _) as [r2|e] eqn:E2;
    [|eexists; reflexivity].
  destruct Hname as [<-|Hname].
  { match type of E2 with
    | bucket_rows _ _ ?row = _ =>
        destruct (bucket_rows_raises results _ row item Hin (Hs _ _)) as [e He]
    end.
    rewrite He in E2. discriminate. }
  cbn [rbind].
  destruct (bucket_rows results "modified_creditors" _) as [r3|e] eqn:E3;
    [|eexists; reflexivity].
  destruct Hname as [<-|Hname].
  { destruct (bucket_rows_raises results _ modified_row item Hin Hm) as [e He].
    rewrite He in E3. discriminate. }
  cbn [rbind].
  destruct (bucket_rows results "unchanged_creditors" _) as [r4|e] eqn:E4;
    [|eexists; reflexivity].
  destruct Hname as [<-|[]].
  match type of E4 with
  | bucket_rows _ _ ?row = _ =>
      destruct (bucket_rows_raises results _ row item Hin (Hs _ _)) as [e He]
  end.
  rewrite He in E4. discriminate.
Qed.

End FurtherProperties.

(** * Further runs on concrete inputs *)

Lemma chunks_lie_in_document_witness :
  three_pages_chunks <> [] /\
  Forall (chunk_in_range 2) three_pages_chunks.
Proof.
  apply (chunks_lie_in_document three_pages 2 three_pages_chunks).
  reflexivity.
Defined.

Lemma chunks_are_the_nonblank_runs_witness :
  exists texts chunks,
    (pdfplumber three_pages = Ok (map Ok texts) \/
     pypdf2 three_pages = Ok (map Ok texts)) /\
    List.length (runs_of texts 2) = (List.length texts + (2 - 1)) / 2 /\
    ("Banco X 100" ++ newline ++ "Loja Y 50" ++ newline)%string
    = String.concat "" (runs_of texts 2) /\
    extract_text_in_chunks three_pages 2 = PdfOk chunks /\
    map text chunks = filter nonblank (runs_of texts 2).
Proof.
  apply (chunks_are_the_nonblank_runs three_pages
           ("Banco X 100" ++ newline ++ "Loja Y 50" ++ newline) 2).
  - repeat constructor.
  - repeat constructor.
  - exists ["Banco X 100"; ""; "Loja Y 50"]. reflexivity.
  - lia.
  - reflexivity.
Defined.

(** pdfplumber fails on the second page: the text is PyPDF2's, all of it. *)
Lemma extract_text_is_one_library_text_witness :
  has_ink ("Banco X 100" ++ newline ++ "Loja Y 50" ++ newline) = true /\
  exists texts,
    ("Banco X 100" ++ newline ++ "Loja Y 50" ++ newline)%string
    = join_pages texts /\
    (pdfplumber second_page_fails = Ok (map Ok texts) \/
     (read_text (pdfplumber second_page_fails) = None /\
      pypdf2 second_page_fails = Ok (map Ok texts))).
Proof.
  apply (extract_text_is_one_library_text second_page_fails
           ("Banco X 100" ++ newline ++ "Loja Y 50" ++ newline)).
  - repeat constructor.
  - repeat constructor.
  - reflexivity.
Defined.

Lemma chunks_do_not_overlap_witness : pages_ascend 0 three_pages_chunks.
Proof.
  apply (chunks_do_not_overlap three_pages 2 three_pages_chunks).
  - exists ["Banco X 100"; ""; "Loja Y 50"]. reflexivity.
  - reflexivity.
Defined.

(** pdfplumber fails on the second page, in chunks of one page: the first
    page is in the result twice. *)
Lemma fallback_keeps_partial_chunks_witness :
  extract_text_in_chunks second_page_fails 1
  = PdfOk ([page_1_chunk] ++ [page_1_chunk; page_2_chunk]).
Proof.
  apply (fallback_keeps_partial_chunks second_page_fails 1
           [page_1_chunk] KeyError [page_1_chunk; page_2_chunk]).
  - reflexivity.
  - reflexivity.
  - reflexivity.
  - discriminate.
Defined.

(** A page as PDF extraction gives it: runs of blanks, a line break, a
    NUL. *)
Lemma clean_text_keeps_plain_chars_witness :
  clean_text ("  Banco X" ++ String "000" EmptyString ++ "   100" ++ newline)
  = "Banco X 100" /\
  plain_chars
    (clean_text ("  Banco X" ++ String "000" EmptyString ++ "   100"
                   ++ newline))
  = plain_chars
      ("  Banco X" ++ String "000" EmptyString ++ "   100" ++ newline).
Proof.
  split; [reflexivity|].
  apply (clean_text_keeps_plain_chars
           ("  Banco X" ++ String "000" EmptyString ++ "   100" ++ newline)).
  reflexivity.
Defined.

(** The service answers [42]: JSON, but nothing that has a length. *)
Lemma extract_raises_iff_witness :
  let outcome :=
    fst (extract_creditors Json.decode (always "42") "Banco X 100" "QGC"
           world0) in
  let parsed s := first_outcome Json.decode (array_candidates s) (PList []) in
  let counted v :=
    match py_len v with
    | Ok n => Ok (v, n)
    | Raise e => Raise (Wrapped ErroAnaliseIA e)
    end in
  (forall e, outcome = Raise e -> exists cause, e = Wrapped ErroAnaliseIA cause) /\
  outcome
  = match parsed "42" with
    | Ok creditors => counted creditors
    | Raise e => Raise (Wrapped ErroAnaliseIA e)
    end /\
  ((exists e, outcome = Raise e) <->
   ((exists e, parsed "42" = Raise e) \/
    (exists creditors e,
        parsed "42" = Ok creditors /\ py_len creditors = Raise e))) /\
  (exists creditors,
      (creditors = PList [] \/
       exists t, is_substring t "42" /\ Json.decode t = Ok creditors) /\
      outcome = counted creditors) /\
  outcome = Raise (Wrapped ErroAnaliseIA TypeError).
Proof.
  pose proof (extract_raises_iff Json.decode (always "42") "Banco X 100" "QGC"
                world0 (Responds "42")) as H.
  cbv zeta in H.
  destruct H as [H1 [_ [_ [H4 H5]]]].
  - exists (response_with (PStr "42")). split; reflexivity.
  - destruct (H4 "42" eq_refl ltac:(discriminate) eq_refl) as [Ha [Hb _]].
    cbv zeta. split; [exact H1|]. split; [exact Ha|]. split; [exact Hb|].
    split; [|rewrite Ha; reflexivity].
    apply (H5 "42" eq_refl); [discriminate|].
    intros t [a [b Ht]].
    parts_of Ht a t
      ltac:(first [left; reflexivity|right; eexists; reflexivity]).
Defined.

(** Characters, not bytes: the cedilla and the tilde letters take two
    bytes each. *)
Example head_counts_characters :
  str_len "ação" = 4 /\ String.length "ação" = 6 /\
  str_head 3 "ação" = "açã" /\
  py_len (PStr "ação") = Ok 4.
Proof. repeat split. Qed.

Lemma long_text_length : 8000 <= str_len long_text.
Proof. apply Nat.leb_le. vm_compute. reflexivity. Defined.

Lemma same_head_long :
  Forall2 same_head [mkChunk (long_text ++ " Banco X 100") 1 20 40]
    [mkChunk (long_text ++ " Loja Y 50") 1 20 40].
Proof.
  constructor; [|constructor].
  split; [vm_compute; reflexivity|repeat split].
Defined.

Lemma text_beyond_8000_is_ignored_witness :
  extract_creditors Json.decode (always "[{}]") (long_text ++ " Banco X 100")
    "QGC" world0
  = extract_creditors Json.decode (always "[{}]") long_text "QGC" world0 /\
  extract_creditors_from_chunks Json.decode (always "[{}]")
    [mkChunk (long_text ++ " Banco X 100") 1 20 40] "QGC" true world0
  = extract_creditors_from_chunks Json.decode (always "[{}]")
      [mkChunk (long_text ++ " Loja Y 50") 1 20 40] "QGC" true world0.
Proof.
  apply (text_beyond_8000_is_ignored Json.decode (always "[{}]") long_text
           " Banco X 100" "QGC").
  - exact long_text_length.
  - reflexivity.
  - exact same_head_long.
Defined.

Lemma failing_rejected : consolidation_rejected Json.decode failing.
Proof. intros n creditors document_name v H. discriminate. Defined.

Lemma rejected_consolidation_returns_input_witness :
  fst (_consolidate_creditors_with_ai Json.decode failing
         (records [banco_x_fields]) "QGC" world0)
  = Ok (PList (records (map without_source_pages [banco_x_fields]))) /\
  List.length (map without_source_pages [banco_x_fields])
  = List.length [banco_x_fields] /\
  Forall (fun d =>
            dict_lookup "_source_pages" (without_source_pages d) = None /\
            forall k, k <> "_source_pages" ->
                      dict_lookup k (without_source_pages d) = dict_lookup k d)
    [banco_x_fields].
Proof.
  apply (rejected_consolidation_returns_input Json.decode failing
           [banco_x_fields] "QGC" world0).
  exact failing_rejected.
Defined.

Lemma consolidation_down_rejected :
  consolidation_rejected Json.decode consolidation_down.
Proof. intros n creditors document_name v H. discriminate. Defined.

(** Two chunks, one record from each, and no consolidation: both records
    come back, the same one twice, without their pages. *)
Lemma chunk_pipeline_without_consolidation_witness :
  let groups :=
    [[[("nome", PStr "Banco X"); ("valor", PStr "100")]];
     [[("nome", PStr "Banco X"); ("valor", PStr "100")]]] in
  fst (extract_creditors_from_chunks Json.decode consolidation_down
         [chunk_1_20; chunk_21_40] "QGC" true world0)
  = Ok (PList (records (map without_source_pages (List.concat groups))),
        List.length (List.concat groups)).
Proof.
  apply (chunk_pipeline_without_consolidation Json.decode consolidation_down
           [chunk_1_20; chunk_21_40]
           [[[("nome", PStr "Banco X"); ("valor", PStr "100")]];
            [[("nome", PStr "Banco X"); ("valor", PStr "100")]]]
           "QGC" true world0).
  - exact consolidation_down_rejected.
  - cbn [chunk_replies]. repeat split; reflexivity.
Defined.

Lemma chunk_pipeline_returns_witness :
  exists v n,
    fst (extract_creditors_from_chunks Json.decode (always "[{}]")
           [chunk_1_20; chunk_21_40] "QGC" true world0) = Ok (v, n) /\
    (n = 0 -> v = PList []) /\
    (0 < n -> nonempty v) /\
    (consolidation_replies_bounded Json.decode (always "[{}]") -> at_most n v).
Proof.
  apply (chunk_pipeline_returns Json.decode (always "[{}]")
           [chunk_1_20; chunk_21_40] "QGC" true world0).
  exact always_one_record_extraction_typed.
Defined.



Lemma fenced_json_is_recovered_witness :
  _parse_ai_response Json.decode
    (PStr ("Segue a lista: " ++ "```json" ++ " [1, 2] " ++ "```" ++ " fim"))
  = Ok (PList [PInt 1; PInt 2]) /\
  _parse_comparison_response Json.decode
    (PStr ("Segue a lista: " ++ "```json" ++ " [1, 2] " ++ "```" ++ " fim"))
  = Ok (PList [PInt 1; PInt 2]).
Proof.
  apply (fenced_json_is_recovered Json.decode "Segue a lista: " " [1, 2] "
           " fim" (PList [PInt 1; PInt 2])).
  - cbn. intuition discriminate.
  - cbn. intuition discriminate.
  - reflexivity.
  - reflexivity.
Defined.

(** A number between two form feeds: [json.loads] does not take a form
    feed for white space, [strip] does. *)
Lemma stripped_reply_is_decoded_witness :
  let s := (String "012" EmptyString ++ "42" ++ String "012" EmptyString)%string in
  strip s = "42" /\
  _parse_ai_response Json.decode (PStr s) = Ok (PInt 42) /\
  _parse_ai_response Json.decode (PStr s)
  = match Json.decode (strip s) with
    | Raise JSONDecodeError => Ok (PList [])
    | outcome => outcome
    end.
Proof.
  split; [reflexivity|]. split; [reflexivity|].
  apply (stripped_reply_is_decoded Json.decode
           (String "012" EmptyString ++ "42" ++ String "012" EmptyString)).
  - reflexivity.
  - cbn. intuition discriminate.
  - cbn. intuition discriminate.
  - reflexivity.
Defined.

(** A JSON string with a fence inside it, between two fences: the second
    strategy stops at the inner fence, the fourth takes the whole. *)
Lemma fenced_reply_is_cleaned_witness :
  let inner := ("json " ++ dq ++ "a```b" ++ dq ++ " ")%string in
  let s := ("```" ++ inner ++ "```")%string in
  re_search_fence s = Some (dq ++ "a")%string /\
  _parse_ai_response Json.decode (PStr s) = Ok (PStr "a```b") /\
  _parse_ai_response Json.decode (PStr s)
  = let cleaned := strip inner in
    let cleaned :=
      if startswith "json" cleaned then strip (drop 4 cleaned) else cleaned in
    match Json.decode cleaned with
    | Raise JSONDecodeError => Ok (PList [])
    | outcome => outcome
    end.
Proof.
  split; [reflexivity|]. split; [reflexivity|].
  apply (fenced_reply_is_cleaned Json.decode
           ("json " ++ dq ++ "a```b" ++ dq ++ " ")).
  - reflexivity.
  - reflexivity.
  - intros fenced H. vm_compute in H. injection H as <-. reflexivity.
  - intros span H. vm_compute in H. discriminate.
Defined.

(** The new creditor's own [Status] is replaced; two rows, for two items. *)
Lemma export_rows_follow_the_buckets_witness :
  map status_of
    (match combined_data sample_comparison with
     | Ok rows => rows
     | Raise _ => []
     end)
  = repeat (Some (PStr "NOVO"))
      (List.length (bucket sample_comparison "new_creditors"))
    ++ repeat (Some (PStr "REMOVIDO"))
         (List.length (bucket sample_comparison "removed_creditors"))
    ++ repeat (Some (PStr "MODIFICADO"))
         (List.length (bucket sample_comparison "modified_creditors"))
    ++ repeat (Some (PStr "INALTERADO"))
         (List.length (bucket sample_comparison "unchanged_creditors")).
Proof.
  apply (export_rows_follow_the_buckets sample_comparison).
  reflexivity.
Defined.

Lemma export_raises_on_a_non_record_witness :
  exists e, combined_data names_only_comparison = Raise e.
Proof.
  apply (export_raises_on_a_non_record names_only_comparison (PStr "Banco X")
           "removed_creditors").
  - right. left. reflexivity.
  - left. reflexivity.
  - reflexivity.
Defined.
